(** * Mini SQL engine: parser.py and engine.py

    A shallow embedding of the query parser ([parse], parser.py) and of the
    query executor ([Engine.execute], engine.py), followed by the properties
    of the specification that were checked against them.

    Modelling conventions.
    - A Python [str] is a [string]; its characters are the 8-bit [ascii]
      characters and the character classes ([isspace], [isdigit], letter
      case) are the ASCII ones.  Text outside ASCII is not given its Unicode
      semantics.
    - A Python exception is a value of [exn] carrying the message of the
      source; a function that may raise returns [result].  A method of
      [Engine] is a function of the state [self] that returns its outcome
      together with the state it leaves ([M]).
    - Python's [int] is [Z]; [int(s)] and [str(n)] have no limit on the
      number of digits.  Python's [float] is the run-time's IEEE type: its
      conversions and comparisons are the operations of the interface
      [PyFloat], and [Binary64] (on the Standard Library's [spec_float])
      is the instance used to run the code on concrete inputs.
    - A row ([Dict[str, Any]]) is an association list in insertion order;
      the table registry ([Engine.tables]) is a finite map.
    - The body of [parse] is divided at the banners of the source into
      [split_clauses], [parse_select] and [parse_where], and the body of
      [execute] into [rows_after_where] and [select_rows]. *)

From Stdlib Require Import String Ascii ZArith List Bool Lia.
From Stdlib Require Import Floats.SpecFloat.
From stdpp Require Import gmap strings.
Import ListNotations.
Local Open Scope string_scope.
Local Open Scope Z_scope.

(** ** Characters *)

(** [str.isspace] on one ASCII character: tab, newline, vertical tab, form
    feed, carriage return, the separators 0x1c-0x1f, and the space. *)
Definition isspace (c : ascii) : bool :=
  let n := nat_of_ascii c in
  ((9 <=? n)%nat && (n <=? 13)%nat) || ((28 <=? n)%nat && (n <=? 32)%nat).

Definition is_upper_letter (c : ascii) : bool :=
  let n := nat_of_ascii c in (65 <=? n)%nat && (n <=? 90)%nat.

Definition is_lower_letter (c : ascii) : bool :=
  let n := nat_of_ascii c in (97 <=? n)%nat && (n <=? 122)%nat.

Definition is_digit (c : ascii) : bool :=
  let n := nat_of_ascii c in (48 <=? n)%nat && (n <=? 57)%nat.

(** The character class [[A-Za-z_]]. *)
Definition is_ident_start (c : ascii) : bool :=
  is_upper_letter c || is_lower_letter c || Ascii.eqb c "_".

(** The character class [[A-Za-z0-9_]]. *)
Definition is_ident_char (c : ascii) : bool :=
  is_ident_start c || is_digit c.

Definition char_upper (c : ascii) : ascii :=
  if is_lower_letter c then ascii_of_nat (nat_of_ascii c - 32) else c.

Definition char_lower (c : ascii) : ascii :=
  if is_upper_letter c then ascii_of_nat (nat_of_ascii c + 32) else c.

(** ** Python string operations *)

Fixpoint smap (f : ascii -> ascii) (s : string) : string :=
  match s with
  | EmptyString => EmptyString
  | String c s' => String (f c) (smap f s')
  end.

(** [s.upper()] and [s.lower()]. *)
Definition upper (s : string) : string := smap char_upper s.
Definition lower (s : string) : string := smap char_lower s.

(** [s.startswith(p)]. *)
Definition startswith (s p : string) : bool := String.prefix p s.

(** [s[n:]]. *)
Fixpoint drop_chars (n : nat) (s : string) : string :=
  match n, s with
  | O, _ => s
  | S n', String _ s' => drop_chars n' s'
  | S _, EmptyString => EmptyString
  end.

(** [s.endswith(p)]. *)
Definition endswith (s p : string) : bool :=
  (String.length p <=? String.length s)%nat &&
  String.eqb (drop_chars (String.length s - String.length p) s) p.

(** [s[1:-1]]. *)
Definition slice_1_m1 (s : string) : string :=
  String.substring 1 (String.length s - 2) s.

(** [sub in s]. *)
Fixpoint contains (sub s : string) : bool :=
  String.prefix sub s ||
  match s with
  | EmptyString => false
  | String _ s' => contains sub s'
  end.

(** Removing the leading, or the trailing, characters of a class. *)
Fixpoint lstrip_with (p : ascii -> bool) (s : string) : string :=
  match s with
  | EmptyString => EmptyString
  | String c s' => if p c then lstrip_with p s' else s
  end.

Fixpoint rstrip_with (p : ascii -> bool) (s : string) : string :=
  match s with
  | EmptyString => EmptyString
  | String c s' =>
      match rstrip_with p s' with
      | EmptyString => if p c then EmptyString else String c EmptyString
      | r => String c r
      end
  end.

(** [s.strip()]. *)
Definition strip (s : string) : string :=
  rstrip_with isspace (lstrip_with isspace s).

(** [s.rstrip(';')]. *)
Definition rstrip_semicolon (s : string) : string :=
  rstrip_with (fun c => Ascii.eqb c ";") s.

(** The first occurrence of a pattern: [find_at m n s] is the text before
    the first position at which [m] holds and the text [n] characters after
    that position. *)
Fixpoint find_at (m : string -> bool) (n : nat) (s : string)
  : option (string * string) :=
  if m s then Some (EmptyString, drop_chars n s)
  else match s with
       | EmptyString => None
       | String c s' =>
           match find_at m n s' with
           | Some (l, r) => Some (String c l, r)
           | None => None
           end
       end.

(** [s.split(sep, 1)] for a non-empty separator. *)
Definition split1 (sep s : string) : list string :=
  match find_at (String.prefix sep) (String.length sep) s with
  | Some (l, r) => [l; r]
  | None => [s]
  end.

(** Splitting at every non-overlapping occurrence, leftmost first, of a
    pattern that matches exactly [S n] characters: [skip] counts the
    characters of the current occurrence still to be passed over and [cur]
    is the piece being read, last character first. *)
Fixpoint split_go (m : string -> bool) (n : nat) (skip : nat)
    (cur : string) (s : string) : list string :=
  match s with
  | EmptyString => [String.rev cur]
  | String c s' =>
      match skip with
      | S k => split_go m n k cur s'
      | O =>
          if m s then String.rev cur :: split_go m n n EmptyString s'
          else split_go m n O (String c cur) s'
      end
  end.

(** [s.split(sep)] for a non-empty separator. *)
Definition split (sep s : string) : list string :=
  split_go (String.prefix sep) (String.length sep - 1) 0 EmptyString s.

(** The pattern [\sWHERE\s] under [re.IGNORECASE], tried at the head of a
    text: one white-space character, the five letters in either case, one
    white-space character. *)
Definition where_kw_at (s : string) : bool :=
  match s with
  | String c0 (String c1 (String c2 (String c3 (String c4 (String c5
      (String c6 _)))))) =>
      isspace c0 &&
      String.eqb
        (upper (String c1 (String c2 (String c3 (String c4
           (String c5 EmptyString)))))) "WHERE" &&
      isspace c6
  | _ => false
  end.

(** [re.split] on the pattern [\sWHERE\s] with [flags=re.IGNORECASE]. *)
Definition re_split_where (s : string) : list string :=
  split_go where_kw_at 6 0 EmptyString s.

(** [re.sub(r'\s+', ' ', s)]: [in_ws] tells that the previous character
    belonged to a run of white space, already replaced. *)
Fixpoint collapse_ws (in_ws : bool) (s : string) : string :=
  match s with
  | EmptyString => EmptyString
  | String c s' =>
      if isspace c then
        if in_ws then collapse_ws true s'
        else String " " (collapse_ws true s')
      else String c (collapse_ws false s')
  end.

Fixpoint all_chars (p : ascii -> bool) (s : string) : bool :=
  match s with
  | EmptyString => true
  | String c s' => p c && all_chars p s'
  end.

(** The end-of-text anchor [$] of [re]: at the end, or before a final
    newline. *)
Definition at_dollar (s : string) : bool :=
  String.eqb s EmptyString || String.eqb s (String "010" EmptyString).

(** The longest prefix of characters in a class, and the rest. *)
Fixpoint span (p : ascii -> bool) (s : string) : string * string :=
  match s with
  | EmptyString => (EmptyString, EmptyString)
  | String c s' =>
      if p c then let '(a, b) := span p s' in (String c a, b)
      else (EmptyString, s)
  end.

(** The identifier pattern of the source, [^[A-Za-z_][A-Za-z0-9_]*$] with
    [re.match], as a truth value. *)
Definition is_identifier (s : string) : bool :=
  match s with
  | EmptyString => false
  | String c s' => is_ident_start c && at_dollar (snd (span is_ident_char s'))
  end.

(** The bare-word pattern of the source, [^[A-Za-z0-9_]+$] with
    [re.match], as a truth value. *)
Definition is_bare_word (s : string) : bool :=
  match s with
  | EmptyString => false
  | String c s' => is_ident_char c && at_dollar (snd (span is_ident_char s'))
  end.

(** The pattern of the COUNT form, matched under [re.IGNORECASE] from the
    start of the text: the word COUNT and an opening parenthesis, optional
    white space, group 1 (a star, or an identifier), optional white space,
    a closing parenthesis, and the end-of-text anchor.  [match_count]
    gives the text of group 1 when the pattern matches.  The classes of
    white space and of identifier characters, the star and the closing
    parenthesis are pairwise disjoint, so the greedy reading below is the
    only way the pattern can match. *)
Definition match_count (s : string) : option string :=
  if String.prefix "COUNT(" (upper (String.substring 0 6 s)) then
    let body := lstrip_with isspace (drop_chars 6 s) in
    let '(grp, rest) :=
      match body with
      | String "*" rest => ("*", rest)
      | String c _ =>
          if is_ident_start c then span is_ident_char body
          else (EmptyString, body)
      | EmptyString => (EmptyString, body)
      end in
    match grp with
    | EmptyString => None
    | _ =>
        match lstrip_with isspace rest with
        | String ")" tl => if at_dollar tl then Some grp else None
        | _ => None
        end
    end
  else None.

(** [int(s)] on text: optional surrounding white space, an optional sign,
    then decimal digits in groups separated by single underscores.  [None]
    stands for [ValueError]. *)
Definition digit_val (c : ascii) : Z := Z.of_nat (nat_of_ascii c - 48).

Fixpoint digits_go (acc : Z) (after_digit : bool) (s : string) : option Z :=
  match s with
  | EmptyString => if after_digit then Some acc else None
  | String c s' =>
      if is_digit c then digits_go (10 * acc + digit_val c) true s'
      else if Ascii.eqb c "_" && after_digit then digits_go acc false s'
      else None
  end.

Definition int_of_str (s : string) : option Z :=
  match strip s with
  | String "-" s' => option_map Z.opp (digits_go 0 false s')
  | String "+" s' => digits_go 0 false s'
  | s' => digits_go 0 false s'
  end.

(** [s.isdigit()]. *)
Definition isdigit (s : string) : bool :=
  negb (String.eqb s EmptyString) && all_chars is_digit s.

(** [str(n)] for an [int]. *)
Fixpoint pos_digits (fuel : nat) (n : Z) (acc : string) : string :=
  match fuel with
  | O => acc
  | S fuel' =>
      let acc' := String (ascii_of_nat (48 + Z.to_nat (n mod 10))) acc in
      if n <? 10 then acc' else pos_digits fuel' (n / 10) acc'
  end.

Definition str_of_int (n : Z) : string :=
  if n <? 0 then String "-" (pos_digits (S (Z.to_nat (Z.log2 (- n)))) (- n) EmptyString)
  else pos_digits (S (Z.to_nat (Z.log2 n))) n EmptyString.

(** ** Exceptions *)

(** The exceptions the two modules can raise, with their messages:
    [SQLParseError] (parser.py), [TableNotFoundError] and [ColumnError]
    (engine.py), and the built-in ones that reach the caller. *)
Inductive exn : Type :=
| SQLParseError (msg : string)
| TableNotFoundError (msg : string)
| ColumnError (msg : string)
| ValueError (msg : string)
| TypeError (msg : string)
| IndexError (msg : string)
| KeyError (msg : string)
| OverflowError (msg : string)
| AttributeError (msg : string).

Inductive result (A : Type) : Type :=
| Ok (a : A)
| Raise (e : exn).
Arguments Ok {A} a.
Arguments Raise {A} e.

Definition rbind {A B} (r : result A) (k : A -> result B) : result B :=
  match r with
  | Ok a => k a
  | Raise e => Raise e
  end.

Notation "x <- r ;; k" := (rbind r (fun x => k))
  (at level 100, r at next level, right associativity).

(** [a, b = l]: unpacking a list into exactly two names. *)
Definition unpack2 {A} (l : list A) : result (A * A) :=
  match l with
  | [a; b] => Ok (a, b)
  | _ :: _ :: _ :: _ =>
      Raise (ValueError "too many values to unpack (expected 2)")
  | [_] => Raise (ValueError "not enough values to unpack (expected 2, got 1)")
  | [] => Raise (ValueError "not enough values to unpack (expected 2, got 0)")
  end.

(** [l[i]]. *)
Definition item {A} (l : list A) (i : nat) : result A :=
  match nth_error l i with
  | Some a => Ok a
  | None => Raise (IndexError "list index out of range")
  end.

(** ** Values *)

(** The run-time's [float]: the conversions [float(s)] and [float(n)]
    ([None] for the [ValueError], resp. [OverflowError], they raise),
    [str(x)], and the order, which leaves a NaN unordered ([None]).
    A comparison of an [int] with a [float] is exact in Python and is a
    primitive of its own. *)
Class PyFloat (float : Type) : Type := {
  float_of_str : string -> option float;
  float_of_int : Z -> option float;
  str_of_float : float -> string;
  float_compare : float -> float -> option comparison;
  int_float_compare : Z -> float -> option comparison
}.

(** ** The binary64 instance

    IEEE 754 double precision on [spec_float], with round-to-nearest-even
    conversions as CPython performs them. *)
Module Binary64.

Definition prec : Z := 53.
Definition emax : Z := 1024.

(** The correctly rounded value of [(-1)^s * m * 10^e]. *)
Definition of_decimal (s : bool) (m : Z) (e : Z) : spec_float :=
  if m =? 0 then S754_zero s
  else if 0 <=? e then
    binary_normalize prec emax (cond_Zopp s (m * 10 ^ e)) 0 s
  else
    let '(q, e', l) := SFdiv_core_binary prec emax m 0 (10 ^ (- e)) 0 in
    binary_round_aux prec emax s q e' l.

(** A run of decimal digits in which single underscores may separate
    digits: the value read (continuing [acc]), the number of digits, and
    the rest of the text. *)
Fixpoint read_digits (acc : Z) (n : nat) (s : string) : Z * nat * string :=
  match s with
  | String c s' =>
      if is_digit c then read_digits (10 * acc + digit_val c) (S n) s'
      else if Ascii.eqb c "_" && negb (Nat.eqb n 0) then
        match s' with
        | String c' _ => if is_digit c' then read_digits acc n s' else (acc, n, s)
        | EmptyString => (acc, n, s)
        end
      else (acc, n, s)
  | EmptyString => (acc, n, s)
  end.

(** The exponent part: empty, or [e] or [E], an optional sign, digits. *)
Definition read_exponent (s : string) : option Z :=
  match s with
  | EmptyString => Some 0
  | String c s' =>
      if Ascii.eqb (char_lower c) "e" then
        let '(neg, s'') :=
          match s' with
          | String "-" t => (true, t)
          | String "+" t => (false, t)
          | _ => (false, s')
          end in
        match read_digits 0 0 s'' with
        | (_, O, _) => None
        | (v, _, EmptyString) => Some (if neg then - v else v)
        | _ => None
        end
      else None
  end.

(** [float(s)] for a text. *)
Definition of_str (s : string) : option spec_float :=
  let t := strip s in
  let '(neg, body) :=
    match t with
    | String "-" t' => (true, t')
    | String "+" t' => (false, t')
    | _ => (false, t)
    end in
  let w := lower body in
  if String.eqb w "inf" || String.eqb w "infinity" then Some (S754_infinity neg)
  else if String.eqb w "nan" then Some S754_nan
  else
    let '(ip, ni, r1) := read_digits 0 0 body in
    let '(m, nf, r2) :=
      match r1 with
      | String "." r1' => read_digits ip 0 r1'
      | _ => (ip, O, r1)
      end in
    if Nat.eqb (ni + nf) 0 then None
    else match read_exponent r2 with
         | Some e => Some (of_decimal neg m (e - Z.of_nat nf))
         | None => None
         end.

(** [float(n)] for an [int]. *)
Definition of_int (n : Z) : option spec_float :=
  match binary_normalize prec emax n 0 false with
  | S754_infinity _ => None
  | x => Some x
  end.

(** The exact comparison of an [int] with a [float]. *)
Definition int_compare (n : Z) (x : spec_float) : option comparison :=
  match x with
  | S754_nan => None
  | S754_infinity s => Some (if s then Gt else Lt)
  | S754_zero _ => Some (n ?= 0)
  | S754_finite s m e =>
      let v := cond_Zopp s (Zpos m) in
      Some (if 0 <=? e then n ?= v * 2 ^ e else n * 2 ^ (- e) ?= v)
  end.

(** [repr]: the shortest decimal digits that read back as the same
    [float], the nearest to it among those.  [digits_at p m e] gives, for
    the positive value [m * 2^e], the [p]-digit candidates [d * 10^k] just
    below and just above it. *)
Definition ten_exp (m : positive) (e : Z) : Z :=
  (* the k with 10^(k-1) <= m*2^e < 10^k *)
  let num := if 0 <=? e then Zpos m * 2 ^ e else Zpos m in
  let den := if 0 <=? e then 1 else 2 ^ (- e) in
  let k0 := ((Z.log2 num - Z.log2 den) * 30103) / 100000 in
  let fits k := if 0 <=? k then num <? den * 10 ^ k
                else num * 10 ^ (- k) <? den in
  if fits (k0 - 1) then k0 - 1
  else if fits k0 then k0
  else if fits (k0 + 1) then k0 + 1
  else k0 + 2.

Definition candidates (p : Z) (m : positive) (e : Z) (k : Z) : Z * Z * Z * bool :=
  (* value / 10^(k-p) = num / den; floor, ceiling, scale, and whether the
     ceiling is the nearer one *)
  let sc := k - p in
  let num0 := if 0 <=? e then Zpos m * 2 ^ e else Zpos m in
  let den0 := if 0 <=? e then 1 else 2 ^ (- e) in
  let num := if 0 <=? sc then num0 else num0 * 10 ^ (- sc) in
  let den := if 0 <=? sc then den0 * 10 ^ sc else den0 in
  let lo := num / den in
  let r := num mod den in
  let hi := if r =? 0 then lo else lo + 1 in
  let up := (den <? 2 * r) || ((den =? 2 * r) && Z.odd lo) in
  (lo, hi, sc, up).

Definition sf_same (x y : spec_float) : bool :=
  match x, y with
  | S754_finite s m e, S754_finite s' m' e' =>
      Bool.eqb s s' && Pos.eqb m m' && Z.eqb e e'
  | _, _ => false
  end.

Fixpoint shortest (fuel : nat) (p : Z) (m : positive) (e : Z) (k : Z) : Z * Z :=
  let '(lo, hi, sc, up) := candidates p m e k in
  let x := S754_finite false m e in
  let ok d := sf_same (of_decimal false d sc) x in
  let first := if up then hi else lo in
  let second := if up then lo else hi in
  match fuel with
  | O => (first, sc)
  | S fuel' =>
      if ok first then (first, sc)
      else if ok second then (second, sc)
      else shortest fuel' (p + 1) m e k
  end.

Fixpoint strip_zeros (fuel : nat) (d sc : Z) : Z * Z :=
  match fuel with
  | O => (d, sc)
  | S fuel' => if (d mod 10 =? 0) && negb (d =? 0)
               then strip_zeros fuel' (d / 10) (sc + 1) else (d, sc)
  end.

Fixpoint zeros (n : nat) : string :=
  match n with O => EmptyString | S n' => String "0" (zeros n') end.

Definition take_chars (n : nat) (s : string) : string := String.substring 0 n s.

(** The layout of [repr]: [digits] are the significant digits and the
    value is [0.digits * 10^decpt]; exponent notation is used when
    [decpt <= -4] or [decpt > 16]. *)
Definition layout (digits : string) (decpt : Z) : string :=
  let n := Z.of_nat (String.length digits) in
  if (decpt <=? -4) || (16 <? decpt) then
    let ex := decpt - 1 in
    let exs := str_of_int (Z.abs ex) in
    let exs := if Z.abs ex <? 10 then String "0" exs else exs in
    let mant := match digits with
                | String c EmptyString => String c EmptyString
                | String c rest => String c (String "." rest)
                | EmptyString => EmptyString
                end in
    mant ++ "e" ++ (if ex <? 0 then "-" else "+") ++ exs
  else if decpt <=? 0 then
    "0." ++ zeros (Z.to_nat (- decpt)) ++ digits
  else if decpt <? n then
    take_chars (Z.to_nat decpt) digits ++ "." ++ drop_chars (Z.to_nat decpt) digits
  else
    digits ++ zeros (Z.to_nat (decpt - n)) ++ ".0".

(** [str(x)] for a [float]. *)
Definition to_str (x : spec_float) : string :=
  match x with
  | S754_nan => "nan"
  | S754_infinity s => if s then "-inf" else "inf"
  | S754_zero s => if s then "-0.0" else "0.0"
  | S754_finite s m e =>
      let k := ten_exp m e in
      let '(d, sc) := shortest 17 1 m e k in
      let '(d, sc) := strip_zeros 20 d sc in
      let digits := str_of_int d in
      let decpt := sc + Z.of_nat (String.length digits) in
      (if s then "-" else "") ++ layout digits decpt
  end.

End Binary64.

#[export] Instance Binary64_float : PyFloat spec_float := {|
  float_of_str := Binary64.of_str;
  float_of_int := Binary64.of_int;
  str_of_float := Binary64.to_str;
  float_compare := SFcompare;
  int_float_compare := Binary64.int_compare
|}.

Section Engine.

Context {float : Type} {F : PyFloat float}.

(** A scalar held in a cell or in a query: [None], an [int], a [float]
    or a [str]. *)
Inductive pyval : Type :=
| VNone
| VInt (n : Z)
| VFloat (x : float)
| VStr (s : string).

(** ** parser.py *)

Definition COMPARISON_OPS : list string := [">="; "<="; "!="; "="; ">"; "<"].

Definition normalize_whitespace (s : string) : string :=
  strip (collapse_ws false s).

(** The dictionaries [parse] builds.  [select] is a tagged record: its
    [type] is ["count"], with the key [count_col] set, or ["cols"], with the
    key [cols] set; the two shapes are the constructors [Count] and [Cols].
    [where] has the keys [col], [op], [val] and [val_type], and the result
    the keys [select], [from] and [where]. *)
Inductive select_t : Type :=
| Count (count_col : string)
| Cols (cols : list string).

Record where_t : Type := {
  w_col : string;
  w_op : string;
  w_val : pyval;
  w_val_type : string
}.

Record parsed_t : Type := {
  q_select : select_t;
  q_from : string;
  q_where : option where_t
}.

(** [parse], lines 17-44: the checks on the whole text and its division
    into the text of the selection, of the table and of the predicate
    ([None] when there is no WHERE). *)
Definition split_clauses (sql : string)
  : result (string * string * option string) :=
  if String.eqb sql "" || String.eqb (strip sql) "" then
    Raise (SQLParseError "Empty SQL")
  else
    let s := normalize_whitespace (rstrip_semicolon (strip sql)) in
    if negb (startswith (upper s) "SELECT ") then
      Raise (SQLParseError "Query must start with SELECT")
    else if negb (contains " FROM " (upper s)) then
      Raise (SQLParseError "Missing FROM clause")
    else
      sr <- unpack2 (if contains " from " s then split1 " from " s
                     else split1 " FROM " s) ;;
      let '(raw_select_part, raw_rest) := sr in
      let select_body := strip (drop_chars (String.length "SELECT ") raw_select_part) in
      let raw_rest_upper := upper raw_rest in
      if contains " WHERE " raw_rest_upper then
        let parts := re_split_where raw_rest in
        p0 <- item parts 0 ;;
        p1 <- item parts 1 ;;
        Ok (select_body, strip p0, Some (strip p1))
      else
        Ok (select_body, strip raw_rest, None).

(** [parse], line 72: the pieces of the selection text between commas
    that are not empty once trimmed, trimmed and lower-cased. *)
Definition selection_pieces (sb : string) : list string :=
  map (fun c => lower (strip c))
      (List.filter (fun c => negb (String.eqb (strip c) "")) (split "," sb)).

(** [parse], lines 52-82: the selection. *)
Definition parse_select (select_body : string) : result select_t :=
  if startswith (upper select_body) "COUNT(" then
    match match_count select_body with
    | None => Raise (SQLParseError "Invalid COUNT() syntax")
    | Some g =>
        Ok (Count (lower g))
    end
  else if String.eqb select_body "*" then
    Ok (Cols ["*"])
  else
    let cols := selection_pieces select_body in
    match cols with
    | [] => Raise (SQLParseError "No columns specified in SELECT")
    | _ =>
        match find (fun c => negb (is_identifier c)) cols with
        | Some c => Raise (SQLParseError ("Invalid column name: " ++ c))
        | None => Ok (Cols cols)
        end
    end.

(** [parse], lines 107-124: the literal of the predicate, with its
    [val_type]. *)
Definition parse_value (raw_val : string) : result (pyval * string) :=
  if startswith raw_val "'" && endswith raw_val "'" then
    Ok (VStr (slice_1_m1 raw_val), "str")
  else
    match (if contains "." raw_val
           then option_map VFloat (float_of_str raw_val)
           else option_map VInt (int_of_str raw_val)) with
    | Some v => Ok (v, "num")
    | None =>
        if is_bare_word raw_val then Ok (VStr raw_val, "str")
        else Raise (SQLParseError "WHERE value must be number or string")
    end.

(** [parse], lines 87-126: the predicate. *)
Definition parse_where (where_body : option string)
  : result (option where_t) :=
  match where_body with
  | None => Ok None
  | Some EmptyString => Ok None
  | Some wb =>
      match find (fun candidate => contains candidate wb) COMPARISON_OPS with
      | None =>
          Raise (SQLParseError "WHERE must contain a comparison operator")
      | Some op =>
          lr <- unpack2 (split1 op wb) ;;
          let '(left_, right_) := lr in
          let col := lower (strip left_) in
          let raw_val := strip right_ in
          if negb (is_identifier col) then
            Raise (SQLParseError ("Invalid column in WHERE: " ++ col))
          else
            vt <- parse_value raw_val ;;
            let '(val, val_type) := vt in
            Ok (Some {| w_col := col; w_op := op; w_val := val;
                        w_val_type := val_type |})
      end
  end.

Definition parse (sql : string) : result parsed_t :=
  cl <- split_clauses sql ;;
  let '(select_body, from_part, where_body) := cl in
  let table_name := lower from_part in
  select <- parse_select select_body ;;
  where_ <- parse_where where_body ;;
  Ok {| q_select := select; q_from := table_name; q_where := where_ |}.

(** ** engine.py *)

(** A row is a [dict] from column name to value, in insertion order.  A
    [dict] holds a key once: lists with a key twice are no rows of the
    program, and [dict_get] reads the first. *)
Definition row : Type := list (string * pyval).

Definition keys (r : row) : list string := map fst r.

(** [r.get(k)]. *)
Fixpoint dict_get (r : row) (k : string) : pyval :=
  match r with
  | [] => VNone
  | (k', v) :: r' => if String.eqb k' k then v else dict_get r' k
  end.

(** The object [Engine]: its attribute [tables]. *)
Record Engine : Type := { tables : gmap string (list row) }.

(** A method of [Engine]: it reads and may update [self], and returns or
    raises. *)
Definition M (A : Type) : Type := Engine -> result A * Engine.

Definition ret {A} (a : A) : M A := fun self => (Ok a, self).
Definition raise {A} (e : exn) : M A := fun self => (Raise e, self).
Definition lift {A} (r : result A) : M A := fun self => (r, self).
Definition get_tables : M (gmap string (list row)) :=
  fun self => (Ok (tables self), self).
Definition set_table (k : string) (rows : list row) : M unit :=
  fun self => (Ok tt, {| tables := <[k := rows]> (tables self) |}).
Definition mbind {A B} (m : M A) (k : A -> M B) : M B :=
  fun self =>
    match m self with
    | (Ok a, self') => k a self'
    | (Raise e, self') => (Raise e, self')
    end.

Notation "x <~ m ;; k" := (mbind m (fun x => k))
  (at level 100, m at next level, right associativity).

(** [_convert_row_types], lines 39-58, the body of the loop for a value
    that is a text or [None]: a cell read from the file is [None] when it
    is missing or blank, else an [int], else a [float], else the trimmed
    text. *)
Definition convert_cell (v : option string) : pyval :=
  match v with
  | None => VNone
  | Some v =>
      let val := strip v in
      if String.eqb val "" then VNone
      else match int_of_str val with
           | Some n => VInt n
           | None =>
               match float_of_str val with
               | Some x => VFloat x
               | None => VStr val
               end
           end
  end.

(** [_convert_row_types] over the entries under the names of the header,
    whose values are texts or [None]: no step of the loop fails. *)
Definition _convert_row_types (r : list (string * option string)) : row :=
  map (fun kv => (fst kv, convert_cell (snd kv))) r.

(** A row as [csv.DictReader] yields it: one entry for each name of the
    header, in the order of the header, with the field of the line, or
    [None] where the line is shorter than the header; and, when the line
    is longer than the header, a last entry under the key [None] whose
    value is the list of the surplus fields. *)
Record read_row : Type := {
  named : list (string * option string);
  surplus : option (list string)
}.

(** [_convert_row_types] on a row as read, lines 35-59: the loop visits
    the entries under the names of the header and then, where there is
    one, the surplus entry, whose value is a list: it is not [None], and
    [v.strip()] at line 42 raises [AttributeError]. *)
Definition convert_read_row (r : read_row) : result row :=
  let out := _convert_row_types (named r) in
  match surplus r with
  | None => Ok out
  | Some _ =>
      Raise (AttributeError "'list' object has no attribute 'strip'")
  end.

(** [[self._convert_row_types(r) for r in rows]], line 30. *)
Fixpoint convert_rows (read : list read_row) : result (list row) :=
  match read with
  | [] => Ok []
  | r :: rest =>
      out <- convert_read_row r ;;
      outs <- convert_rows rest ;;
      Ok (out :: outs)
  end.

(** [load_csv], from line 23 on.  Reading the file is outside the model:
    [name] is the base name of the file without its extension and [read]
    the rows as [csv.DictReader] yields them.  The table is stored once
    every row is converted. *)
Definition load_csv (name : string) (read : list read_row) : M string :=
  let table_key := lower name in
  rows <~ lift (convert_rows read) ;;
  _ <~ set_table table_key rows ;;
  ret table_key.

Definition _resolve_table (table_name : string) : M string :=
  let key := lower table_name in
  tbls <~ get_tables ;;
  match tbls !! key with
  | None =>
      raise (TableNotFoundError
        ("Table '" ++ table_name ++
         "' not loaded. Use .load <path> to load CSV (table name: " ++
         table_name ++ ")"))
  | Some _ => ret key
  end.

(** [x in l] and [l.index(x)] on lists of strings. *)
Definition str_in (x : string) (l : list string) : bool :=
  existsb (String.eqb x) l.

Fixpoint index_of (x : string) (l : list string) : result nat :=
  match l with
  | [] => Raise (ValueError "x is not in list")
  | y :: l' =>
      if String.eqb y x then Ok O
      else i <- index_of x l' ;; Ok (S i)
  end.

(** The loop of [_resolve_columns_case_insensitive]; [resolved] is the
    list built so far. *)
Fixpoint resolve_loop (actual_cols lower_actual : list string)
    (requested_cols : list string) (resolved : list string)
  : result (list string) :=
  match requested_cols with
  | [] => Ok resolved
  | rc :: rest =>
      if String.eqb rc "*" then Ok actual_cols
      else if negb (str_in (lower rc) lower_actual) then
        Raise (ColumnError ("Column '" ++ rc ++ "' not found in table"))
      else
        i <- index_of (lower rc) lower_actual ;;
        c <- item actual_cols i ;;
        resolve_loop actual_cols lower_actual rest (resolved ++ [c])
  end.

Definition _resolve_columns_case_insensitive (rows : list row)
    (requested_cols : list string) : result (list string) :=
  match rows with
  | [] => Ok requested_cols
  | r0 :: _ =>
      let actual_cols := keys r0 in
      let lower_actual := map lower actual_cols in
      resolve_loop actual_cols lower_actual requested_cols []
  end.

(** [str(v)]. *)
Definition py_str (v : pyval) : string :=
  match v with
  | VNone => "None"
  | VInt n => str_of_int n
  | VFloat x => str_of_float x
  | VStr s => s
  end.

(** [float(v)]. *)
Definition py_float (v : pyval) : result float :=
  match v with
  | VNone =>
      Raise (TypeError "float() argument must be a string or a real number")
  | VInt n =>
      match float_of_int n with
      | Some x => Ok x
      | None => Raise (OverflowError "int too large to convert to float")
      end
  | VFloat x => Ok x
  | VStr s =>
      match float_of_str s with
      | Some x => Ok x
      | None => Raise (ValueError "could not convert string to float")
      end
  end.

(** [int(v)] for a text or an [int]. *)
Definition py_int (v : pyval) : result Z :=
  match v with
  | VInt n => Ok n
  | VStr s =>
      match int_of_str s with
      | Some n => Ok n
      | None => Raise (ValueError "invalid literal for int() with base 10")
      end
  | _ => Raise (TypeError "int() argument must be a string or a number")
  end.

(** [l == r]. *)
Definition py_eq (l r : pyval) : bool :=
  match l, r with
  | VNone, VNone => true
  | VInt a, VInt b => Z.eqb a b
  | VInt a, VFloat y =>
      match int_float_compare a y with Some Eq => true | _ => false end
  | VFloat x, VInt b =>
      match int_float_compare b x with Some Eq => true | _ => false end
  | VFloat x, VFloat y =>
      match float_compare x y with Some Eq => true | _ => false end
  | VStr a, VStr b => String.eqb a b
  | _, _ => false
  end.

(** The order behind [<], [>], [<=] and [>=]: [Ok None] when a NaN makes
    the operands unordered, [TypeError] when their types do not compare. *)
Definition py_order (l r : pyval) : result (option comparison) :=
  match l, r with
  | VInt a, VInt b => Ok (Some (Z.compare a b))
  | VInt a, VFloat y => Ok (int_float_compare a y)
  | VFloat x, VInt b => Ok (option_map CompOpp (int_float_compare b x))
  | VFloat x, VFloat y => Ok (float_compare x y)
  | VStr a, VStr b => Ok (Some (String.compare a b))
  | _, _ => Raise (TypeError "comparison not supported between these types")
  end.

(** The local function [compare] of [_apply_where]; a raised exception
    makes it return [False]. *)
Definition compare (left_ : pyval) (op : string) (right_ : pyval) : bool :=
  match left_ with
  | VNone => false
  | _ =>
      let ordered (ok : comparison -> bool) : bool :=
        match py_order left_ right_ with
        | Ok (Some c) => ok c
        | Ok None => false
        | Raise _ => false
        end in
      if String.eqb op "=" then py_eq left_ right_
      else if String.eqb op "!=" then negb (py_eq left_ right_)
      else if String.eqb op ">" then
        ordered (fun c => match c with Gt => true | _ => false end)
      else if String.eqb op "<" then
        ordered (fun c => match c with Lt => true | _ => false end)
      else if String.eqb op ">=" then
        ordered (fun c => match c with Lt => false | _ => true end)
      else if String.eqb op "<=" then
        ordered (fun c => match c with Gt => false | _ => true end)
      else false
  end.

(** The conditional expression of line 175, which turns a cell into a
    number. *)
Definition coerce_cell (cell : pyval) : result pyval :=
  match cell with
  | VStr s =>
      if contains "." s then x <- py_float cell ;; Ok (VFloat x)
      else if isdigit s then n <- py_int cell ;; Ok (VInt n)
      else x <- py_float cell ;; Ok (VFloat x)
  | VInt n => n' <- py_int cell ;; Ok (VInt n')
  | _ => x <- py_float cell ;; Ok (VFloat x)
  end.

(** The body of the loop of [_apply_where], lines 167-185: whether the
    row [r] is appended to [filtered].  [float(val)] is evaluated outside
    the [try] and its exception leaves the function. *)
Definition where_row (real_col op : string) (val : pyval) (val_type : string)
    (r : row) : result bool :=
  let cell := dict_get r real_col in
  match cell with
  | VNone => Ok false
  | _ =>
      if String.eqb val_type "num" then
        match coerce_cell cell with
        | Raise _ => Ok false
        | Ok left_val =>
            right_val <- py_float val ;;
            Ok (compare left_val op (VFloat right_val))
        end
      else
        let left_val := VStr (py_str cell) in
        let right_val := VStr (py_str val) in
        Ok (compare left_val op right_val)
  end.

(** The loop of [_apply_where] over the rows; [filtered] is the list built
    so far. *)
Fixpoint where_loop (real_col op : string) (val : pyval) (val_type : string)
    (rows : list row) (filtered : list row) : result (list row) :=
  match rows with
  | [] => Ok filtered
  | r :: rest =>
      keep <- where_row real_col op val val_type r ;;
      where_loop real_col op val val_type rest
        (if keep : bool then filtered ++ [r] else filtered)
  end.

(** The column of the first row that [_apply_where] compares: the first
    key equal to the requested name up to letter case. *)
Definition where_column (r0 : row) (requested_col : string) : result string :=
  let actual_cols := keys r0 in
  let lower_actual := map lower actual_cols in
  if negb (str_in (lower requested_col) lower_actual) then
    Raise (ColumnError ("Column '" ++ requested_col ++ "' not found in table"))
  else
    i <- index_of (lower requested_col) lower_actual ;;
    item actual_cols i.

Definition _apply_where (rows : list row) (where_ : where_t)
  : result (list row) :=
  match rows with
  | [] => Ok []
  | r0 :: _ =>
      let requested_col := w_col where_ in
      let op := w_op where_ in
      let val := w_val where_ in
      let val_type := w_val_type where_ in
      real_col <- where_column r0 requested_col ;;
      where_loop real_col op val val_type rows []
  end.

(** [execute], lines 96-97: the rows that remain once the predicate, if
    there is one, has been applied. *)
Definition rows_after_where (where_ : option where_t) (rows : list row)
  : result (list row) :=
  match where_ with
  | Some w => _apply_where rows w
  | None => Ok rows
  end.

(** The dictionary [execute] returns, with its keys [cols] and [rows]. *)
Record result_t : Type := {
  r_cols : list string;
  r_rows : list (list pyval)
}.

Definition is_not_none (v : pyval) : bool :=
  match v with VNone => false | _ => true end.

(** [[[r.get(c) for c in cols] for r in rows]]. *)
Definition project (cols : list string) (rows : list row) : list (list pyval) :=
  map (fun r => map (fun c => dict_get r c) cols) rows.

(** [execute], lines 99-123: the aggregate, or the projection, over the
    rows that remain. *)
Definition select_rows (select : select_t) (rows : list row)
  : result result_t :=
  match select with
  | Count count_col =>
      if String.eqb count_col "*" then
        Ok {| r_cols := ["COUNT(*)"];
              r_rows := [[VInt (Z.of_nat (length rows))]] |}
      else if Nat.eqb (length rows) 0 then
        Ok {| r_cols := ["COUNT(" ++ count_col ++ ")"];
              r_rows := [[VInt 0]] |}
      else
        rl <- _resolve_columns_case_insensitive rows [count_col] ;;
        resolved <- item rl 0 ;;
        let cnt :=
          length (List.filter (fun r => is_not_none (dict_get r resolved)) rows) in
        Ok {| r_cols := ["COUNT(" ++ count_col ++ ")"];
              r_rows := [[VInt (Z.of_nat cnt)]] |}
  | Cols req_cols =>
      if decide (req_cols = ["*"]) then
        let cols := match rows with r0 :: _ => keys r0 | [] => [] end in
        Ok {| r_cols := cols; r_rows := project cols rows |}
      else
        resolved_cols <- match rows with
                         | _ :: _ =>
                             _resolve_columns_case_insensitive rows req_cols
                         | [] => Ok req_cols
                         end ;;
        Ok {| r_cols := resolved_cols; r_rows := project resolved_cols rows |}
  end.

(** [execute], from line 92 on: the query [parse] returned, run against
    the registry. *)
Definition run_parsed (parsed : parsed_t) : M result_t :=
  table_key <~ _resolve_table (q_from parsed) ;;
  tbls <~ get_tables ;;
  rows <~ match tbls !! table_key with
          | Some rows => ret rows
          | None => raise (KeyError table_key)
          end ;;
  rows <~ lift (rows_after_where (q_where parsed) rows) ;;
  lift (select_rows (q_select parsed) rows).

Definition execute (sql : string) : M result_t :=
  parsed <~ lift (parse sql) ;;
  run_parsed parsed.

(** ** Notions of the specification *)

(** The stored column a requested name stands for: the first key of the
    row equal to it up to letter case. *)
Definition first_ci (ks : list string) (rc : string) : option string :=
  find (fun k => String.eqb (lower k) (lower rc)) ks.

(** Whether the predicate keeps a row. *)
Definition row_kept (real_col : string) (w : where_t) (r : row) : bool :=
  match where_row real_col (w_op w) (w_val w) (w_val_type w) r with
  | Ok true => true
  | _ => false
  end.

End Engine.

(** ** cli.py *)

(** [c * n] for a character. *)
Fixpoint repeat_char (c : ascii) (n : nat) : string :=
  match n with
  | O => EmptyString
  | S n' => String c (repeat_char c n')
  end.

(** [s.ljust(w)]. *)
Definition ljust (s : string) (w : nat) : string :=
  s ++ repeat_char " " (w - String.length s).

Section Cli.

Context {float : Type} {F : PyFloat float}.

(** The width and the text of a cell in [print_result]: [None] is shown
    as [NULL]. *)
Definition cell_width (cell : pyval) : nat :=
  match cell with
  | VNone => 4%nat
  | _ => String.length (py_str cell)
  end.

Definition cell_text (cell : pyval) : string :=
  match cell with
  | VNone => "NULL"
  | _ => py_str cell
  end.

(** [print_result], lines 18-19: the inner loop over the cells of one
    row, from index [i] on; the subscript raises [IndexError] past the end
    of [col_widths]. *)
Fixpoint widen_row (i : nat) (r : list pyval) (col_widths : list nat)
  : result (list nat) :=
  match r with
  | [] => Ok col_widths
  | cell :: r' =>
      w <- item col_widths i ;;
      widen_row (S i) r' (<[i := Nat.max w (cell_width cell)]> col_widths)
  end.

(** [print_result], lines 17-19: the loop over the rows. *)
Fixpoint widen_rows (rows : list (list pyval)) (col_widths : list nat)
  : result (list nat) :=
  match rows with
  | [] => Ok col_widths
  | r :: rows' =>
      col_widths' <- widen_row 0 r col_widths ;;
      widen_rows rows' col_widths'
  end.

(** The generator of lines 22 and 26: [text(x).ljust(col_widths[i])] for
    the elements [x] of a list, numbered from [i]. *)
Fixpoint padded {A} (text : A -> string) (col_widths : list nat) (i : nat)
    (l : list A) : result (list string) :=
  match l with
  | [] => Ok []
  | x :: l' =>
      w <- item col_widths i ;;
      rest <- padded text col_widths (S i) l' ;;
      Ok (ljust (text x) w :: rest)
  end.

(** [print_result], lines 25-27: the loop that prints the rows;
    [printed] holds the lines printed so far, the first one first. *)
Fixpoint print_rows (col_widths : list nat) (rows : list (list pyval))
    (printed : list string) : list string * result unit :=
  match rows with
  | [] => (printed, Ok tt)
  | r :: rows' =>
      match padded cell_text col_widths 0 r with
      | Raise e => (printed, Raise e)
      | Ok cells =>
          let line := String.concat " | " cells in
          print_rows col_widths rows' (printed ++ [line])
      end
  end.

(** [print_result]: the lines it prints, in order, and how it ends. *)
Definition print_result (res : result_t) : list string * result unit :=
  let cols := r_cols res in
  let rows := r_rows res in
  match cols with
  | [] => (["(no rows / no columns)"], Ok tt)
  | _ =>
      let col_widths := map String.length cols in
      match widen_rows rows col_widths with
      | Raise e => ([], Raise e)
      | Ok col_widths =>
          let sep :=
            String.concat "+"
              (map (fun w => repeat_char "-" (w + 2)) col_widths) in
          match padded (fun c : string => c) col_widths 0 cols with
          | Raise e => ([], Raise e)
          | Ok cells =>
              let header := String.concat " | " cells in
              print_rows col_widths rows
                [header; repeat_char "-" (String.length header)]
          end
      end
  end.

End Cli.

(** ** Further notions of the specification *)

(** A text in which every white-space character is a single space that
    follows no other white space; [after_ws] tells that a white-space
    character comes just before the text. *)
Fixpoint single_spaced (after_ws : bool) (s : string) : bool :=
  match s with
  | EmptyString => true
  | String c s' =>
      if isspace c then
        negb after_ws && Ascii.eqb c " " && single_spaced true s'
      else single_spaced false s'
  end.

(** Whether a text starts, or ends, with a white-space character. *)
Definition starts_with_space (s : string) : bool :=
  match s with
  | EmptyString => false
  | String c _ => isspace c
  end.

Fixpoint ends_with_space (s : string) : bool :=
  match s with
  | EmptyString => false
  | String c EmptyString => isspace c
  | String _ s' => ends_with_space s'
  end.

(** A text without white space. *)
Definition no_space (s : string) : bool :=
  all_chars (fun c => negb (isspace c)) s.

(** An identifier as a query writes it: a letter or an underscore, then
    letters, digits and underscores up to the end of the text. *)
Definition ident_text (s : string) : bool :=
  match s with
  | EmptyString => false
  | String c s' => is_ident_start c && all_chars is_ident_char s'
  end.



(** *** The predicate as the specification words it

    Section 4.2, step 2, written after the specification and not after
    [_apply_where]: a row is dropped when its cell is Null, when the
    operand is a number and the cell cannot be coerced to a number, and
    when the comparison does not hold.  The column is the one resolved in
    the first row, which the invariant of a table makes the column of
    every row. *)
Section SpecPredicate.

Context {float : Type} {F : PyFloat float}.

(** The operand of a predicate: a number, held as a float, or a text. *)
Inductive operand : Type :=
| Number (x : float)
| Text (s : string).

(** What a cell is coerced to for a numeric operand. *)
Inductive number : Type :=
| NInt (n : Z)
| NFloat (x : float).

(** The coercion rule: integer parse when the cell is an integer or an
    all-digit string, else float parse. *)
Definition spec_coerce (cell : pyval) : option number :=
  match cell with
  | VNone => None
  | VInt n => Some (NInt n)
  | VFloat x => Some (NFloat x)
  | VStr s =>
      if isdigit s then option_map NInt (int_of_str s)
      else option_map NFloat (float_of_str s)
  end.

(** How a coerced cell stands to the operand; [None] when a NaN leaves
    the two unordered. *)
Definition number_compare (n : number) (x : float) : option comparison :=
  match n with
  | NInt a => int_float_compare a x
  | NFloat y => float_compare y x
  end.

(** The natural meaning of the six operators, read off the outcome of
    the comparison: unordered operands differ and nothing more. *)
Definition op_holds (op : string) (c : option comparison) : bool :=
  match c with
  | Some Eq => str_in op ["="; ">="; "<="]
  | Some Lt => str_in op ["!="; "<"; "<="]
  | Some Gt => str_in op ["!="; ">"; ">="]
  | None => str_in op ["!="]
  end.

(** Whether the predicate matches the row. *)
Definition spec_matches (real_col op : string) (o : operand) (r : row)
  : bool :=
  match dict_get r real_col with
  | VNone => false
  | cell =>
      match o with
      | Number x =>
          match spec_coerce cell with
          | Some n => op_holds op (number_compare n x)
          | None => false
          end
      | Text s => op_holds op (Some (String.compare (py_str cell) s))
      end
  end.

(** The operand of a parsed predicate.  The specification holds a number
    as a float; an integer literal beyond the range of a float has no
    operand. *)
Definition spec_operand (w : where_t) : option operand :=
  if String.eqb (w_val_type w) "num" then
    match py_float (w_val w) with
    | Ok x => Some (Number x)
    | Raise _ => None
    end
  else Some (Text (py_str (w_val w))).

(** A row whose cell is not Null and is coerced to a number: the rows at
    which a numeric predicate needs its operand. *)
Definition needs_operand (real_col : string) (r : row) : bool :=
  match spec_coerce (dict_get r real_col) with
  | Some _ => true
  | None => false
  end.

End SpecPredicate.

(** ** Sample registries, on the binary64 instance

    Each is the registry after one call of [load_csv] on an empty
    [Engine]. *)
Definition empty_engine : Engine (float := spec_float) := {| tables := ∅ |}.

(** The table [sample_1] of the specification: two rows, the columns
    [id] and [age]. *)
Definition sample_engine : Engine :=
  snd (load_csv (F := Binary64_float) "sample_1"
         [ {| named := [("id", Some "1"); ("age", Some "25")];
              surplus := None |};
           {| named := [("id", Some "2"); ("age", Some "40")];
              surplus := None |} ] empty_engine).

(** A table with a column written [Name] and a blank cell. *)
Definition people_engine : Engine :=
  snd (load_csv (F := Binary64_float) "people"
         [ {| named := [("Name", Some "ann"); ("age", Some "")];
              surplus := None |};
           {| named := [("Name", Some "bob"); ("age", Some "40")];
              surplus := None |} ] empty_engine).

(** A table whose two column names differ by letter case only. *)
Definition case_engine : Engine :=
  snd (load_csv (F := Binary64_float) "t"
         [ {| named := [("A", Some "1"); ("a", Some "2")];
              surplus := None |} ] empty_engine).

(** * Properties *)

(** ** Text *)

Lemma char_lower_idem c : char_lower (char_lower c) = char_lower c.
Proof. destruct c as [[] [] [] [] [] [] [] []]; reflexivity. Qed.

Lemma lower_idem s : lower (lower s) = lower s.
Proof.
  unfold lower. induction s as [|c s IH]; simpl; [reflexivity|].
  now rewrite char_lower_idem, IH.
Qed.

Lemma append_nil s : EmptyString ++ s = s.
Proof. reflexivity. Qed.

Lemma append_cons c s t : String c s ++ t = String c (s ++ t).
Proof. reflexivity. Qed.

Lemma prefix_app p s : String.prefix p s = true <-> exists r, s = p ++ r.
Proof.
  revert s. induction p as [|c p IH]; intros s.
  - destruct s; simpl; split; eauto.
  - destruct s as [|d s]; simpl.
    + split; [discriminate | intros [r Hr]; discriminate].
    + destruct (ascii_dec c d) as [->|Hne].
      * rewrite IH. split; intros [r Hr]; exists r;
          rewrite append_cons in *; congruence.
      * split; [discriminate | intros [r Hr]; rewrite append_cons in Hr; congruence].
Qed.

Lemma drop_chars_app p r : drop_chars (String.length p) (p ++ r) = r.
Proof. induction p; simpl; auto. Qed.

Lemma contains_cons sub c s :
  contains sub (String c s) = String.prefix sub (String c s) || contains sub s.
Proof. reflexivity. Qed.

(** Where the separator does not occur, nothing is found. *)
Lemma find_at_none sep n s :
  contains sep s = false -> find_at (String.prefix sep) n s = None.
Proof.
  induction s as [|c s IH].
  - cbn [contains find_at]. rewrite orb_false_r. intros ->. reflexivity.
  - rewrite contains_cons. intros [Hp Hc]%orb_false_elim.
    cbn [find_at]. rewrite Hp, (IH Hc). reflexivity.
Qed.

Lemma prefix_drop sep s :
  String.prefix sep s = true -> s = sep ++ drop_chars (String.length sep) s.
Proof. intros [r ->]%prefix_app. now rewrite drop_chars_app. Qed.

(** Where it occurs, [find_at] cuts the text at its first occurrence. *)
Lemma find_at_some sep s :
  contains sep s = true ->
  exists l r,
    find_at (String.prefix sep) (String.length sep) s = Some (l, r) /\
    s = l ++ sep ++ r /\
    forall l' r', s = l' ++ sep ++ r' ->
                  (String.length l <= String.length l')%nat.
Proof.
  induction s as [|c s IH].
  - cbn [contains find_at]. rewrite orb_false_r. intros Hp. rewrite Hp.
    exists EmptyString, (drop_chars (String.length sep) EmptyString).
    split; [reflexivity|]. split.
    + rewrite append_nil. now apply prefix_drop.
    + intros; simpl; lia.
  - rewrite contains_cons. cbn [find_at].
    destruct (String.prefix sep (String c s)) eqn:Hp.
    + intros _.
      exists EmptyString, (drop_chars (String.length sep) (String c s)).
      split; [reflexivity|]. split.
      * rewrite append_nil. now apply prefix_drop.
      * intros; simpl; lia.
    + rewrite orb_false_l. intros Hc. destruct (IH Hc) as (l & r & Hf & Hs & Hmin).
      exists (String c l), r. rewrite Hf. split; [reflexivity|]. split.
      * rewrite append_cons. now rewrite <- Hs.
      * intros l' r' Hl'. destruct l' as [|d l'].
        -- exfalso. rewrite append_nil in Hl'.
           assert (String.prefix sep (String c s) = true) as Habs
             by (apply prefix_app; eauto).
           congruence.
        -- rewrite append_cons in Hl'. injection Hl' as _ Hl'.
           specialize (Hmin _ _ Hl'). simpl. lia.
Qed.

Lemma split1_absent sep s : contains sep s = false -> split1 sep s = [s].
Proof. intros H. unfold split1. now rewrite find_at_none. Qed.

Lemma strip_nonempty sql : strip sql <> EmptyString -> sql <> EmptyString.
Proof. intros H ->. now apply H. Qed.

Section ParserProperties.

Context {float : Type} {F : PyFloat float}.

(** C1.  The check for the FROM keyword is made on the upper-cased text,
    but the text is cut at the all-lower-case or at the all-upper-case
    keyword only: a query whose FROM keyword is written in mixed case
    passes the check and then fails to unpack the single piece that
    [split] returns, with a [ValueError] that is none of the parser's own
    errors. *)
Theorem parse_mixed_case_from_raises_ValueError (sql : string) :
  let s := normalize_whitespace (rstrip_semicolon (strip sql)) in
  strip sql <> EmptyString ->
  startswith (upper s) "SELECT " = true ->
  contains " FROM " (upper s) = true ->
  contains " from " s = false ->
  contains " FROM " s = false ->
  parse sql = Raise (ValueError "not enough values to unpack (expected 2, got 1)").
Proof.
  intros s Hne Hsel Hfrom Hlo Hup.
  unfold parse, split_clauses. fold s.
  apply strip_nonempty in Hne as Hne'.
  apply String.eqb_neq in Hne, Hne'. rewrite Hne, Hne'. simpl orb. cbv iota.
  rewrite Hsel, Hfrom, Hlo. simpl negb. cbv iota.
  rewrite (split1_absent _ _ Hup). reflexivity.
Qed.

(** C2.  The remainder after FROM is cut at every occurrence of the WHERE
    keyword and only the first two pieces are used: on this query the text
    after the first WHERE is [a = 1 WHERE b = 2], the predicate segment the
    parser keeps is [a = 1], and the query is accepted with the predicate
    [a = 1]. *)
Theorem parse_discards_text_after_second_where :
  let sql := "SELECT * FROM t WHERE a = 1 WHERE b = 2" in
  find_at where_kw_at 7 "t WHERE a = 1 WHERE b = 2"
    = Some ("t", "a = 1 WHERE b = 2") /\
  split_clauses sql = Ok ("*", "t", Some "a = 1") /\
  parse sql
    = Ok {| q_select := Cols ["*"]; q_from := "t";
            q_where := Some {| w_col := "a"; w_op := "="; w_val := VInt 1;
                               w_val_type := "num" |} |}.
Proof. repeat split; reflexivity. Qed.

(** The errors the predicate can be rejected with. *)
Lemma parse_where_raise wb e :
  parse_where wb = Raise e ->
  (exists m, e = ValueError m) \/
  e = SQLParseError "WHERE must contain a comparison operator" \/
  (exists col, e = SQLParseError ("Invalid column in WHERE: " ++ col)) \/
  e = SQLParseError "WHERE value must be number or string".
Proof.
  unfold parse_where. destruct wb as [[|c wb]|]; try discriminate.
  destruct (find _ _) as [op|]; [|intros [= <-]; auto].
  destruct (unpack2 (split1 op (String c wb))) as [[l r]|e'] eqn:Hu; cbn [rbind].
  - destruct (is_identifier (lower (strip l))); cbn [negb].
    + unfold parse_value.
      destruct (_ && _); cbn [rbind]; [discriminate|].
      destruct (if contains "." (strip r) then _ else _); cbn [rbind];
        [discriminate|].
      destruct (is_bare_word (strip r)); cbn [rbind]; [discriminate|].
      intros [= <-]; auto.
    + intros [= <-]. right; right; left. eauto.
  - intros [= <-]. left. unfold unpack2 in Hu.
    destruct (split1 _ _) as [|? [|? [|? ?]]]; inversion Hu; eauto.
Qed.

Ltac str_cbv H := cbv beta iota delta [String.append] in H.

Lemma parse_of_clauses sql sb fp wb :
  split_clauses sql = Ok (sb, fp, wb) ->
  parse sql =
    (select <- parse_select sb ;;
     where_ <- parse_where wb ;;
     Ok {| q_select := select; q_from := lower fp; q_where := where_ |}).
Proof. intros H. unfold parse. rewrite H. reflexivity. Qed.

Lemma parse_select_columns sb :
  startswith (upper sb) "COUNT(" = false ->
  sb <> "*" ->
  parse_select sb =
    let cols := selection_pieces sb in
    match cols with
    | [] => Raise (SQLParseError "No columns specified in SELECT")
    | _ =>
        match find (fun c => negb (is_identifier c)) cols with
        | Some c => Raise (SQLParseError ("Invalid column name: " ++ c))
        | None => Ok (Cols cols)
        end
    end.
Proof.
  intros Hc Hs. unfold parse_select. rewrite Hc.
  apply String.eqb_neq in Hs. rewrite Hs. reflexivity.
Qed.

Lemma selection_pieces_In sb c :
  In c (selection_pieces sb) <->
  exists p, In p (split "," sb) /\ strip p <> "" /\ c = lower (strip p).
Proof.
  unfold selection_pieces. rewrite in_map_iff. split.
  - intros (p & <- & Hp). apply filter_In in Hp as [Hin Hne].
    exists p. repeat split; auto.
    apply negb_true_iff, String.eqb_neq in Hne. exact Hne.
  - intros (p & Hin & Hne & ->). exists p. split; [reflexivity|].
    apply filter_In. split; [exact Hin|].
    now apply negb_true_iff, String.eqb_neq.
Qed.

(** C3, as the code has it.  For a selection that is neither the star nor
    a COUNT form, the pieces of the comma split that are empty once trimmed
    are skipped.  The query is rejected for an invalid column name exactly
    when a piece that is not empty once trimmed fails the identifier
    pattern (trimmed and lower-cased), and for an empty selection exactly
    when every piece is empty once trimmed. *)
Theorem parse_skips_empty_selection_pieces (sql sb fp : string)
    (wb : option string) :
  split_clauses sql = Ok (sb, fp, wb) ->
  startswith (upper sb) "COUNT(" = false ->
  sb <> "*" ->
  ((exists c, parse sql = Raise (SQLParseError ("Invalid column name: " ++ c)))
   <-> exists p, In p (split "," sb) /\ strip p <> "" /\
                 is_identifier (lower (strip p)) = false) /\
  (parse sql = Raise (SQLParseError "No columns specified in SELECT")
   <-> forall p, In p (split "," sb) -> strip p = "").
Proof.
  intros Hcl Hc Hs. rewrite (parse_of_clauses _ _ _ _ Hcl).
  rewrite (parse_select_columns _ Hc Hs). cbv zeta.
  assert (Hwhere : forall sel e,
    (where_ <- parse_where wb ;;
     Ok {| q_select := sel; q_from := lower fp; q_where := where_ |}) = Raise e ->
    (forall c, e <> SQLParseError ("Invalid column name: " ++ c)) /\
    e <> SQLParseError "No columns specified in SELECT").
  { intros sel e. destruct (parse_where wb) as [w|e'] eqn:Hw; cbn [rbind];
      [discriminate|].
    intros [= <-]. apply parse_where_raise in Hw.
    destruct Hw as [[m ->]|[->|[[col ->]| ->]]];
      (split; [intros c H | intros H]; str_cbv H; discriminate H). }
  destruct (selection_pieces sb) as [|c0 cols] eqn:Hp.
  - cbn [rbind]. split.
    + split.
      * intros [c H]. str_cbv H. discriminate H.
      * intros (p & Hin & Hne & _). exfalso.
        assert (In (lower (strip p)) (selection_pieces sb)) as Habs
          by (apply selection_pieces_In; eauto).
        rewrite Hp in Habs. exact Habs.
    + split; [intros _|reflexivity]. intros p Hin.
      destruct (string_dec (strip p) "") as [|Hne]; [assumption|exfalso].
      assert (In (lower (strip p)) (selection_pieces sb)) as Habs
        by (apply selection_pieces_In; eauto).
      rewrite Hp in Habs. exact Habs.
  - assert (Hnonempty : exists p, In p (split "," sb) /\ strip p <> "").
    { assert (In c0 (selection_pieces sb)) as Hin by (rewrite Hp; now left).
      apply selection_pieces_In in Hin as (p & ? & ? & _). eauto. }
    destruct (find _ (c0 :: cols)) as [c|] eqn:Hf; cbn [rbind].
    + apply find_some in Hf as [Hin Hbad]. apply negb_true_iff in Hbad.
      rewrite <- Hp in Hin. apply selection_pieces_In in Hin as (p & Hin & Hne & ->).
      split.
      * split; [intros _; eauto | intros _; eauto].
      * split.
        -- intros H. str_cbv H. discriminate H.
        -- intros Hall. destruct Hnonempty as (p' & Hin' & Hne').
           now apply Hall in Hin'.
    + split.
      * split.
        -- intros [c H]. apply Hwhere in H as [H _]. now specialize (H c).
        -- intros (p & Hin & Hne & Hbad). exfalso.
           assert (In (lower (strip p)) (c0 :: cols)) as Hin'
             by (rewrite <- Hp; apply selection_pieces_In; eauto).
           apply (find_none _ _ Hf) in Hin'. rewrite Hbad in Hin'. discriminate.
      * split.
        -- intros H. now apply Hwhere in H as [_ H].
        -- intros Hall. destruct Hnonempty as (p' & Hin' & Hne').
           now apply Hall in Hin'.
Qed.

Lemma find_first {A} (f : A -> bool) (pre post : list A) (x : A) :
  Forall (fun c => f c = false) pre -> f x = true ->
  find f (pre ++ x :: post) = Some x.
Proof.
  induction 1 as [|c pre Hc _ IH]; intros Hx; simpl.
  - now rewrite Hx.
  - rewrite Hc. now apply IH.
Qed.

Lemma find_absent {A} (f : A -> bool) (l : list A) :
  Forall (fun c => f c = false) l -> find f l = None.
Proof. induction 1 as [|c l Hc _ IH]; simpl; [reflexivity|now rewrite Hc]. Qed.

(** The predicate, once its operator [op] and the two sides [l] and [r] of
    the cut are known. *)
Lemma parse_where_cut wb op l r :
  wb <> "" ->
  find (fun candidate => contains candidate wb) COMPARISON_OPS = Some op ->
  split1 op wb = [l; r] ->
  parse_where (Some wb) =
    if is_identifier (lower (strip l)) then
      vt <- parse_value (strip r) ;;
      Ok (Some {| w_col := lower (strip l); w_op := op;
                  w_val := fst vt; w_val_type := snd vt |})
    else
      Raise (SQLParseError ("Invalid column in WHERE: " ++ lower (strip l))).
Proof.
  intros Hne Hf Hs. unfold parse_where.
  destruct wb as [|c wb]; [congruence|]. rewrite Hf, Hs. cbn [unpack2 rbind].
  destruct (is_identifier (lower (strip l))); cbn [negb]; [|reflexivity].
  destruct (parse_value (strip r)) as [[v t]|e]; reflexivity.
Qed.

(** C6.  The operator of a predicate is the first entry of the list
    [>=, <=, !=, =, >, <] that occurs in the predicate segment, and the
    segment is cut at the first occurrence of that operator: the text
    before it, trimmed and lower-cased, is the column, and the text after
    it, trimmed, is read as the literal.  With no entry of the list in the
    segment the query is rejected.  In particular a query whose predicate
    segment is [age >= 30] is parsed with the operator [>=], the column
    [age] and the number 30. *)
Theorem parse_where_operator_priority :
  (forall (wb op : string) (pre post : list string),
     wb <> "" ->
     COMPARISON_OPS = (pre ++ op :: post)%list ->
     Forall (fun c => contains c wb = false) pre ->
     contains op wb = true ->
     exists l r,
       wb = l ++ op ++ r /\
       (forall l' r', wb = l' ++ op ++ r' ->
                      (String.length l <= String.length l')%nat) /\
       parse_where (Some wb) =
         if is_identifier (lower (strip l)) then
           vt <- parse_value (strip r) ;;
           Ok (Some {| w_col := lower (strip l); w_op := op;
                       w_val := fst vt; w_val_type := snd vt |})
         else
           Raise (SQLParseError
                    ("Invalid column in WHERE: " ++ lower (strip l)))) /\
  (forall wb : string,
     wb <> "" ->
     Forall (fun c => contains c wb = false) COMPARISON_OPS ->
     parse_where (Some wb) =
       Raise (SQLParseError "WHERE must contain a comparison operator")) /\
  (forall (sql sb fp : string) (sel : select_t),
     split_clauses sql = Ok (sb, fp, Some "age >= 30") ->
     parse_select sb = Ok sel ->
     parse sql =
       Ok {| q_select := sel; q_from := lower fp;
             q_where := Some {| w_col := "age"; w_op := ">=";
                                w_val := VInt 30; w_val_type := "num" |} |}).
Proof.
  split; [|split].
  - intros wb op pre post Hne Hops Hpre Hop.
    destruct (find_at_some op wb Hop) as (l & r & Hf & Hs & Hmin).
    exists l, r. split; [exact Hs|]. split; [exact Hmin|].
    apply parse_where_cut; [exact Hne| |].
    + rewrite Hops. now apply (find_first (fun c => contains c wb)).
    + unfold split1. now rewrite Hf.
  - intros wb Hne Hall. unfold parse_where.
    destruct wb as [|c wb]; [congruence|].
    now rewrite (find_absent (fun c0 => contains c0 (String c wb))).
  - intros sql sb fp sel Hcl Hsel.
    rewrite (parse_of_clauses _ _ _ _ Hcl), Hsel. reflexivity.
Qed.

(** C10.  When the text after the operator, once trimmed, is a single
    quote character, that character is both the opening and the closing
    quote, the text between them is empty, and the query is accepted with
    the empty text as its literal. *)
Theorem parse_lone_quote_operand (sql sb fp wb op l r : string)
    (sel : select_t) :
  split_clauses sql = Ok (sb, fp, Some wb) ->
  parse_select sb = Ok sel ->
  wb <> "" ->
  find (fun candidate => contains candidate wb) COMPARISON_OPS = Some op ->
  split1 op wb = [l; r] ->
  is_identifier (lower (strip l)) = true ->
  strip r = "'" ->
  startswith (strip r) "'" = true /\
  endswith (strip r) "'" = true /\
  slice_1_m1 (strip r) = "" /\
  parse sql =
    Ok {| q_select := sel; q_from := lower fp;
          q_where := Some {| w_col := lower (strip l); w_op := op;
                             w_val := VStr ""; w_val_type := "str" |} |}.
Proof.
  intros Hcl Hsel Hne Hf Hs Hid Hq. rewrite Hq.
  repeat split; try reflexivity.
  rewrite (parse_of_clauses _ _ _ _ Hcl), Hsel. cbn [rbind].
  rewrite (parse_where_cut _ _ _ _ Hne Hf Hs), Hid, Hq. reflexivity.
Qed.

End ParserProperties.

(** With both spellings present the text is cut at the lower-case
    keyword even when the upper-case one comes first. *)
Example parse_prefers_lower_case_from :
  parse (F := Binary64_float) "SELECT a FROM b from c"
  = Raise (SQLParseError "Invalid column name: a from b").
Proof. vm_compute. reflexivity. Qed.

Lemma parse_mixed_case_from_witness :
  parse (F := Binary64_float) "SELECT a From t"
  = Raise (ValueError "not enough values to unpack (expected 2, got 1)").
Proof.
  apply (parse_mixed_case_from_raises_ValueError (F := Binary64_float) "SELECT a From t");
    [discriminate | reflexivity ..].
Defined.

(** ** The executor *)

Section EngineProperties.

Context {float : Type} {F : PyFloat float}.

(** The table name [parse] returns is in lower case. *)
Lemma parse_from_lower sql q : parse sql = Ok q -> lower (q_from q) = q_from q.
Proof.
  unfold parse. destruct (split_clauses sql) as [[[sb fp] wb]|]; cbn [rbind];
    [|discriminate].
  destruct (parse_select sb); cbn [rbind]; [|discriminate].
  destruct (parse_where wb); cbn [rbind]; [|discriminate].
  intros [= <-]. apply lower_idem.
Qed.

(** [execute] on a query that parses and names a registered table. *)
Lemma execute_eq sql q self rows :
  parse sql = Ok q ->
  tables self !! q_from q = Some rows ->
  execute sql self =
    (rows' <- rows_after_where (q_where q) rows ;;
     select_rows (q_select q) rows', self).
Proof.
  intros Hp Ht. unfold execute, mbind, lift. rewrite Hp.
  unfold run_parsed, _resolve_table, mbind, get_tables, lift, ret.
  rewrite (parse_from_lower _ _ Hp), Ht. cbn. rewrite Ht.
  destruct (rows_after_where (q_where q) rows); reflexivity.
Qed.

(** No path through [execute] writes to the registry. *)
Lemma execute_state sql self : snd (execute sql self) = self.
Proof.
  unfold execute, mbind, lift. destruct (parse sql) as [q|e]; [|reflexivity].
  unfold run_parsed, _resolve_table, mbind, get_tables, lift, ret, raise.
  destruct (tables self !! lower (q_from q)) as [rows|] eqn:Ht; [|reflexivity].
  cbn. rewrite Ht.
  destruct (rows_after_where (q_where q) rows); reflexivity.
Qed.

(** The rows [where_loop] appends are the rows the predicate keeps, in
    the order of the table. *)
Lemma where_loop_filter real_col w rows acc res :
  where_loop real_col (w_op w) (w_val w) (w_val_type w) rows acc = Ok res ->
  res = (acc ++ List.filter (row_kept real_col w) rows)%list.
Proof.
  revert acc. induction rows as [|r rows IH]; intros acc; cbn [where_loop].
  - intros [= <-]. cbn. now rewrite app_nil_r.
  - cbn [List.filter].
    assert (Hk : row_kept real_col w r =
                 match where_row real_col (w_op w) (w_val w) (w_val_type w) r
                 with Ok true => true | _ => false end) by reflexivity.
    rewrite Hk.
    destruct (where_row _ _ _ _ r) as [[|]|e]; cbn [rbind]; try discriminate.
    + intros ->%IH. now rewrite <- app_assoc.
    + apply IH.
Qed.

Lemma apply_where_filter r0 rest w real_col matched :
  where_column r0 (w_col w) = Ok real_col ->
  _apply_where (r0 :: rest) w = Ok matched ->
  matched = List.filter (row_kept real_col w) (r0 :: rest).
Proof.
  intros Hc. unfold _apply_where. rewrite Hc. cbn [rbind].
  intros H%where_loop_filter. exact H.
Qed.

Lemma apply_where_column r0 rest w matched :
  _apply_where (r0 :: rest) w = Ok matched ->
  exists real_col, where_column r0 (w_col w) = Ok real_col.
Proof.
  unfold _apply_where. destruct (where_column r0 (w_col w)); [eauto|discriminate].
Qed.

Lemma apply_where_length rows w matched :
  _apply_where rows w = Ok matched -> (length matched <= length rows)%nat.
Proof.
  destruct rows as [|r0 rest].
  - intros [= <-]. reflexivity.
  - intros H. destruct (apply_where_column _ _ _ _ H) as [rc Hrc].
    rewrite (apply_where_filter _ _ _ _ _ Hrc H). apply filter_length_le.
Qed.

(** A row the predicate keeps has a cell in the predicate column. *)
Lemma row_kept_not_none real_col w r :
  row_kept real_col w r = true -> dict_get r real_col <> VNone.
Proof.
  unfold row_kept, where_row. intros H Hn. rewrite Hn in H. discriminate.
Qed.

(** C5.  Whatever the operator, a row whose cell in the predicate column
    is [None] is not among the rows the predicate keeps, and the rows of a
    projection are built from the kept rows only. *)
Theorem null_predicate_cell_is_dropped (self : Engine) (sql : string)
    (q : parsed_t) (w : where_t) (r0 : row) (rest : list row)
    (real_col : string) (matched : list row) :
  parse sql = Ok q ->
  q_where q = Some w ->
  tables self !! q_from q = Some (r0 :: rest) ->
  where_column r0 (w_col w) = Ok real_col ->
  _apply_where (r0 :: rest) w = Ok matched ->
  (forall r, dict_get r real_col = VNone -> ~ In r matched) /\
  (forall r, In r matched ->
             In r (r0 :: rest) /\ dict_get r real_col <> VNone) /\
  (forall cs res,
     q_select q = Cols cs ->
     fst (execute sql self) = Ok res ->
     r_rows res = project (r_cols res) matched).
Proof.
  intros Hp Hw Ht Hc Hm.
  pose proof (apply_where_filter _ _ _ _ _ Hc Hm) as Hf.
  assert (Hkept : forall r, In r matched ->
            In r (r0 :: rest) /\ dict_get r real_col <> VNone).
  { intros r Hin. rewrite Hf in Hin. apply filter_In in Hin as [Hin Hk].
    split; [exact Hin|]. now apply row_kept_not_none in Hk. }
  split; [|split].
  - intros r Hn Hin. now apply Hkept in Hin as [_ Hin].
  - exact Hkept.
  - intros cs res Hs. rewrite (execute_eq _ _ _ _ Hp Ht), Hw, Hs.
    cbn [rows_after_where fst]. rewrite Hm. cbn [rbind select_rows].
    destruct (decide (cs = ["*"])).
    + intros [= <-]. reflexivity.
    + destruct (match matched with [] => _ | _ :: _ => _ end); cbn [rbind];
        [|discriminate].
      intros [= <-]. reflexivity.
Qed.

(** C8.  [execute] leaves the registry as it found it, table by table,
    and run again on the same text it returns, or raises, the same. *)
Theorem execute_reads_only (sql : string) (self : Engine) :
  snd (execute sql self) = self /\
  (forall k, tables (snd (execute sql self)) !! k = tables self !! k) /\
  fst (execute sql (snd (execute sql self))) = fst (execute sql self).
Proof.
  rewrite execute_state. repeat split.
Qed.

(** Looking a lower-cased name up among the keys: the membership test,
    [index] and the subscript of the source together find the first key
    equal to the name up to letter case. *)
Lemma lookup_ci (ks : list string) (x : string) :
  match find (fun k => String.eqb (lower k) x) ks with
  | Some c =>
      str_in x (map lower ks) = true /\
      (i <- index_of x (map lower ks) ;; item ks i) = Ok c
  | None => str_in x (map lower ks) = false
  end.
Proof.
  induction ks as [|k ks IH]; [reflexivity|].
  cbn [find map str_in existsb index_of].
  rewrite (String.eqb_sym x (lower k)).
  destruct (String.eqb (lower k) x) eqn:Hk.
  - split; reflexivity.
  - rewrite orb_false_l. fold (str_in x (map lower ks)).
    destruct (find _ ks) as [c|]; [|exact IH].
    destruct IH as [Hin Hidx]. split; [exact Hin|].
    destruct (index_of x (map lower ks)) as [i|e]; [|discriminate].
    exact Hidx.
Qed.

Lemma first_ci_lookup (ks : list string) (rc : string) :
  match first_ci ks rc with
  | Some c =>
      str_in (lower rc) (map lower ks) = true /\
      (i <- index_of (lower rc) (map lower ks) ;; item ks i) = Ok c
  | None => str_in (lower rc) (map lower ks) = false
  end.
Proof. apply lookup_ci. Qed.

(** What [first_ci] finds is a key, equal to the name up to letter case,
    and the first such key. *)
Lemma first_ci_spec (ks : list string) (rc c : string) :
  first_ci ks rc = Some c ->
  exists pre post,
    ks = (pre ++ c :: post)%list /\ lower c = lower rc /\
    Forall (fun k => lower k <> lower rc) pre.
Proof.
  unfold first_ci. induction ks as [|k ks IH]; [discriminate|].
  cbn [find]. destruct (String.eqb (lower k) (lower rc)) eqn:Hk.
  - intros [= <-]. exists [], ks. apply String.eqb_eq in Hk. auto.
  - intros (pre & post & -> & Hc & Hpre)%IH.
    exists (k :: pre), post. apply String.eqb_neq in Hk. auto.
Qed.

Lemma resolve_loop_found (ks cs acc : list string) :
  Forall (fun rc => rc <> "*") cs ->
  Forall (fun rc => first_ci ks rc <> None) cs ->
  exists out,
    resolve_loop ks (map lower ks) cs acc = Ok (acc ++ out)%list /\
    Forall2 (fun rc o => first_ci ks rc = Some o) cs out.
Proof.
  intros Hstar. revert acc.
  induction Hstar as [|rc cs Hrc _ IH]; intros acc Hfound.
  - exists []. cbn. rewrite app_nil_r. auto.
  - inversion Hfound as [|? ? Hf Hfound']; subst.
    cbn [resolve_loop]. apply String.eqb_neq in Hrc. rewrite Hrc.
    pose proof (first_ci_lookup ks rc) as Hl.
    destruct (first_ci ks rc) as [c|] eqn:Hc; [|congruence].
    destruct Hl as [Hin Hidx]. rewrite Hin. cbn [negb].
    destruct (index_of (lower rc) (map lower ks)) as [i|e]; [|discriminate].
    cbn [rbind] in Hidx |- *. rewrite Hidx. cbn [rbind].
    destruct (IH (acc ++ [c])%list Hfound') as (out & Hout & Hall).
    exists (c :: out). rewrite Hout, <- app_assoc. auto.
Qed.

Lemma resolve_loop_missing (ks cs acc : list string) :
  Forall (fun rc => rc <> "*") cs ->
  Exists (fun rc => first_ci ks rc = None) cs ->
  exists rc,
    In rc cs /\ first_ci ks rc = None /\
    resolve_loop ks (map lower ks) cs acc =
      Raise (ColumnError ("Column '" ++ rc ++ "' not found in table")).
Proof.
  intros Hstar. revert acc.
  induction Hstar as [|rc cs Hrc _ IH]; intros acc Hmiss.
  - inversion Hmiss.
  - cbn [resolve_loop]. apply String.eqb_neq in Hrc. rewrite Hrc.
    pose proof (first_ci_lookup ks rc) as Hl.
    destruct (first_ci ks rc) as [c|] eqn:Hc.
    + destruct Hl as [Hin Hidx]. rewrite Hin. cbn [negb].
      destruct (index_of (lower rc) (map lower ks)) as [i|e]; [|discriminate].
      cbn [rbind] in Hidx |- *. rewrite Hidx. cbn [rbind].
      inversion Hmiss as [? ? Hn|? ? Hm]; subst; [congruence|].
      destruct (IH (acc ++ [c])%list Hm) as (rc' & Hin' & Hn' & Hr').
      exists rc'. split; [now right|]. auto.
    + rewrite Hl. cbn [negb]. exists rc. split; [now left|]. auto.
Qed.

Lemma identifier_not_star c : is_identifier c = true -> c <> "*".
Proof. intros H ->. discriminate H. Qed.

(** The column list [parse] returns is the star alone, or a list of
    identifiers. *)
Lemma parse_cols_identifiers sql q cs :
  parse sql = Ok q -> q_select q = Cols cs ->
  cs = ["*"] \/ Forall (fun c => is_identifier c = true) cs.
Proof.
  unfold parse. destruct (split_clauses sql) as [[[sb fp] wb]|]; cbn [rbind];
    [|discriminate].
  destruct (parse_select sb) as [sel|] eqn:Hsel; cbn [rbind]; [|discriminate].
  destruct (parse_where wb); cbn [rbind]; [|discriminate].
  intros [= <-]. cbn [q_select]. intros ->.
  unfold parse_select in Hsel.
  destruct (startswith (upper sb) "COUNT(").
  { destruct (match_count sb); discriminate. }
  destruct (String.eqb sb "*").
  { injection Hsel as <-. now left. }
  cbv zeta in Hsel. destruct (selection_pieces sb) as [|c0 cols]; [discriminate|].
  destruct (find _ (c0 :: cols)) eqn:Hf; [discriminate|].
  injection Hsel as <-. right. apply List.Forall_forall. intros c Hin.
  apply (find_none _ _ Hf) in Hin. now apply negb_false_iff in Hin.
Qed.

(** C9.  For a column list, when at least one row remains, each output
    column is the key of the first remaining row that the requested name
    stands for up to letter case, written as it is stored; a requested
    name that no key matches makes the query fail with [ColumnError]. *)
Theorem column_list_outputs_stored_names (self : Engine) (sql : string)
    (q : parsed_t) (cs : list string) (rows : list row) (r0 : row)
    (rest : list row) :
  parse sql = Ok q ->
  q_select q = Cols cs ->
  cs <> ["*"] ->
  tables self !! q_from q = Some rows ->
  rows_after_where (q_where q) rows = Ok (r0 :: rest) ->
  (Forall (fun rc => first_ci (keys r0) rc <> None) cs ->
   exists out,
     execute sql self =
       (Ok {| r_cols := out; r_rows := project out (r0 :: rest) |}, self) /\
     Forall2 (fun rc o =>
                first_ci (keys r0) rc = Some o /\
                In o (keys r0) /\ lower o = lower rc) cs out) /\
  (Exists (fun rc => first_ci (keys r0) rc = None) cs ->
   exists rc,
     In rc cs /\
     execute sql self =
       (Raise (ColumnError ("Column '" ++ rc ++ "' not found in table")),
        self)).
Proof.
  intros Hp Hs Hne Ht Hrows.
  rewrite (execute_eq _ _ _ _ Hp Ht), Hrows, Hs. cbn [rbind select_rows].
  destruct (decide (cs = ["*"])) as [|_]; [contradiction|].
  destruct (parse_cols_identifiers _ _ _ Hp Hs) as [|Hid]; [contradiction|].
  assert (Hstar : Forall (fun rc => rc <> "*") cs).
  { eapply List.Forall_impl; [|exact Hid]. apply identifier_not_star. }
  unfold _resolve_columns_case_insensitive. split.
  - intros Hfound.
    destruct (resolve_loop_found (keys r0) cs [] Hstar Hfound)
      as (out & Hout & Hall).
    exists out. rewrite Hout. cbn [rbind app]. split; [reflexivity|].
    eapply List.Forall2_impl; [|exact Hall]. cbn beta. intros rc o Ho.
    destruct (first_ci_spec _ _ _ Ho) as (pre & post & Hk & Hl & _).
    repeat split; auto. rewrite Hk. apply in_elt.
  - intros Hmiss.
    destruct (resolve_loop_missing (keys r0) cs [] Hstar Hmiss)
      as (rc & Hin & _ & Hr).
    exists rc. rewrite Hr. auto.
Qed.

(** Under keys that differ even without letter case, every key stands
    for itself. *)
Lemma resolve_loop_keys (ks pre suf : list string) :
  ks = (pre ++ suf)%list ->
  List.NoDup (map lower ks) ->
  resolve_loop ks (map lower ks) (map lower suf) pre = Ok ks.
Proof.
  revert pre. induction suf as [|c suf IH]; intros pre Hks Hnd.
  - cbn. now rewrite Hks, app_nil_r.
  - cbn [map resolve_loop].
    destruct (String.eqb (lower c) "*"); [reflexivity|].
    assert (Hfind : find (fun k => String.eqb (lower k) (lower (lower c))) ks
                    = Some c).
    { rewrite lower_idem, Hks. apply find_first.
      - rewrite Hks, map_app in Hnd. cbn [map] in Hnd.
        apply NoDup_remove_2 in Hnd.
        apply List.Forall_forall. intros k Hk. apply String.eqb_neq. intros Heq.
        apply Hnd, in_or_app. left. rewrite <- Heq. now apply in_map.
      - apply String.eqb_refl. }
    pose proof (lookup_ci ks (lower (lower c))) as Hl. rewrite Hfind in Hl.
    destruct Hl as [Hin Hidx]. rewrite Hin. cbn [negb].
    destruct (index_of (lower (lower c)) (map lower ks)) as [i|e];
      [|discriminate].
    cbn [rbind] in Hidx |- *. rewrite Hidx. cbn [rbind].
    apply IH; [|exact Hnd]. now rewrite <- app_assoc.
Qed.

(** C7, as the code has it.  Over a registered table with at least one
    row whose column names still differ when letter case is ignored, the
    query that selects the star and the query that selects the column list
    the first one outputs return the same columns and the same rows, in
    the same order. *)
Theorem star_then_its_columns_same_rows (self : Engine) (sql1 sql2 t : string)
    (r0 : row) (rest : list row) :
  tables self !! t = Some (r0 :: rest) ->
  List.NoDup (map lower (keys r0)) ->
  parse sql1 = Ok {| q_select := Cols ["*"]; q_from := t; q_where := None |} ->
  parse sql2 = Ok {| q_select := Cols (map lower (keys r0)); q_from := t;
                     q_where := None |} ->
  execute sql1 self =
    (Ok {| r_cols := keys r0; r_rows := project (keys r0) (r0 :: rest) |},
     self) /\
  execute sql2 self = execute sql1 self.
Proof.
  intros Ht Hnd Hp1 Hp2.
  rewrite (execute_eq _ _ _ _ Hp1 Ht), (execute_eq _ _ _ _ Hp2 Ht).
  cbn [q_where q_select rows_after_where rbind select_rows].
  destruct (decide (["*"] = ["*"])) as [_|]; [|contradiction].
  split; [reflexivity|].
  destruct (decide (map lower (keys r0) = ["*"])) as [Hstar|_].
  - reflexivity.
  - unfold _resolve_columns_case_insensitive.
    rewrite (resolve_loop_keys (keys r0) [] (keys r0) eq_refl Hnd).
    reflexivity.
Qed.

End EngineProperties.

(** C3 as the specification states it fails on a doubled comma: the
    selection of this query is neither the star nor a COUNT form, the comma
    split has a piece that is empty, and the query is accepted with the two
    columns that remain. *)
Lemma parse_accepts_empty_selection_piece :
  let sql := "SELECT a,,b FROM t" in
  split_clauses sql = Ok ("a,,b", "t", None) /\
  startswith (upper "a,,b") "COUNT(" = false /\
  "a,,b" <> "*" /\
  In "" (split "," "a,,b") /\ strip "" = "" /\
  parse (F := Binary64_float) sql
    = Ok {| q_select := Cols ["a"; "b"]; q_from := "t"; q_where := None |} /\
  ~ (exists c, parse (F := Binary64_float) sql
               = Raise (SQLParseError ("Invalid column name: " ++ c))).
Proof.
  cbv zeta. repeat split; try reflexivity.
  - discriminate.
  - right; left; reflexivity.
  - intros [c H]. vm_compute in H. discriminate H.
Qed.

Lemma parse_skips_empty_selection_pieces_witness :
  ((exists c, parse (F := Binary64_float) "SELECT a,,b FROM t"
              = Raise (SQLParseError ("Invalid column name: " ++ c)))
   <-> exists p, In p (split "," "a,,b") /\ strip p <> "" /\
                 is_identifier (lower (strip p)) = false) /\
  (parse (F := Binary64_float) "SELECT a,,b FROM t"
     = Raise (SQLParseError "No columns specified in SELECT")
   <-> forall p, In p (split "," "a,,b") -> strip p = "").
Proof.
  apply (parse_skips_empty_selection_pieces (F := Binary64_float)
           "SELECT a,,b FROM t" "a,,b" "t" None);
    [reflexivity | reflexivity | discriminate].
Defined.

Lemma parse_where_operator_priority_witness :
  parse (F := Binary64_float) "SELECT name FROM people WHERE age >= 30"
  = Ok {| q_select := Cols ["name"]; q_from := "people";
          q_where := Some {| w_col := "age"; w_op := ">=";
                             w_val := VInt 30; w_val_type := "num" |} |}.
Proof.
  apply (proj2 (proj2 (parse_where_operator_priority (F := Binary64_float)))
           "SELECT name FROM people WHERE age >= 30" "name" "people"
           (Cols ["name"])); reflexivity.
Defined.

Lemma parse_lone_quote_operand_witness :
  parse (F := Binary64_float) "SELECT * FROM t WHERE a = '"
  = Ok {| q_select := Cols ["*"]; q_from := "t";
          q_where := Some {| w_col := "a"; w_op := "=";
                             w_val := VStr ""; w_val_type := "str" |} |}.
Proof.
  apply (parse_lone_quote_operand (F := Binary64_float)
           "SELECT * FROM t WHERE a = '" "*" "t" "a = '" "=" "a " " '"
           (Cols ["*"]));
    [reflexivity | reflexivity | discriminate | reflexivity | reflexivity
    | reflexivity | reflexivity].
Defined.

Lemma null_predicate_cell_is_dropped_witness :
  ~ In [("Name", VStr "ann"); ("age", VNone (float := spec_float))]
       [ [("Name", VStr "bob"); ("age", VInt 40)] ] /\
  fst (execute (F := Binary64_float)
         "SELECT name FROM people WHERE age != 30" people_engine)
  = Ok {| r_cols := ["Name"]; r_rows := [[VStr "bob"]] |}.
Proof.
  pose proof (null_predicate_cell_is_dropped (F := Binary64_float)
    people_engine "SELECT name FROM people WHERE age != 30"
    {| q_select := Cols ["name"]; q_from := "people";
       q_where := Some {| w_col := "age"; w_op := "!="; w_val := VInt 30;
                          w_val_type := "num" |} |}
    {| w_col := "age"; w_op := "!="; w_val := VInt 30; w_val_type := "num" |}
    [("Name", VStr "ann"); ("age", VNone)]
    [ [("Name", VStr "bob"); ("age", VInt 40)] ]
    "age"
    [ [("Name", VStr "bob"); ("age", VInt 40)] ]
    ltac:(vm_compute; reflexivity) eq_refl ltac:(vm_compute; reflexivity)
    ltac:(vm_compute; reflexivity) ltac:(vm_compute; reflexivity))
    as (Hdrop & _ & Hrows).
  split.
  - apply Hdrop. reflexivity.
  - vm_compute. reflexivity.
Defined.

Lemma column_list_outputs_stored_names_witness :
  exists out,
    execute (F := Binary64_float) "SELECT name FROM people" people_engine
    = (Ok {| r_cols := out;
             r_rows := project out
                         [ [("Name", VStr "ann"); ("age", VNone)];
                           [("Name", VStr "bob"); ("age", VInt 40)] ] |},
       people_engine) /\
    Forall2 (fun rc o =>
               first_ci ["Name"; "age"] rc = Some o /\
               In o ["Name"; "age"] /\ lower o = lower rc) ["name"] out.
Proof.
  apply (proj1 (column_list_outputs_stored_names (F := Binary64_float)
    people_engine "SELECT name FROM people"
    {| q_select := Cols ["name"]; q_from := "people"; q_where := None |}
    ["name"]
    [ [("Name", VStr "ann"); ("age", VNone)];
      [("Name", VStr "bob"); ("age", VInt 40)] ]
    [("Name", VStr "ann"); ("age", VNone)]
    [ [("Name", VStr "bob"); ("age", VInt 40)] ]
    ltac:(vm_compute; reflexivity) eq_refl ltac:(discriminate)
    ltac:(vm_compute; reflexivity) eq_refl)).
  repeat constructor. discriminate.
Defined.

(** The requested name [name] comes out as the stored name [Name]. *)
Example select_name_outputs_Name :
  fst (execute (F := Binary64_float) "SELECT name FROM people" people_engine)
  = Ok {| r_cols := ["Name"]; r_rows := [[VStr "ann"]; [VStr "bob"]] |}.
Proof. vm_compute. reflexivity. Qed.

(** C7 as the specification states it fails on column names that differ
    by letter case only: both names of this table match the identifier
    pattern, the star query outputs the columns [A] and [a], and the query
    that selects [A, a] resolves both names to the first column and
    returns other rows. *)
Lemma star_then_its_columns_differ :
  tables case_engine !! "t" = Some [ [("A", VInt 1); ("a", VInt 2)] ] /\
  is_identifier "A" = true /\ is_identifier "a" = true /\
  execute (F := Binary64_float) "SELECT * FROM t" case_engine
  = (Ok {| r_cols := ["A"; "a"]; r_rows := [[VInt 1; VInt 2]] |},
     case_engine) /\
  parse (F := Binary64_float) "SELECT A, a FROM t"
  = Ok {| q_select := Cols (map lower ["A"; "a"]); q_from := "t";
          q_where := None |} /\
  execute (F := Binary64_float) "SELECT A, a FROM t" case_engine
  = (Ok {| r_cols := ["A"; "A"]; r_rows := [[VInt 1; VInt 1]] |},
     case_engine) /\
  [[VInt 1; VInt 1]] <> [[VInt 1; VInt (float := spec_float) 2]].
Proof.
  repeat split; try (vm_compute; reflexivity). discriminate.
Qed.

Lemma star_then_its_columns_same_rows_witness :
  execute (F := Binary64_float) "SELECT * FROM sample_1" sample_engine
  = (Ok {| r_cols := ["id"; "age"];
           r_rows := [[VInt 1; VInt 25]; [VInt 2; VInt 40]] |},
     sample_engine) /\
  execute (F := Binary64_float) "SELECT id, age FROM sample_1" sample_engine
  = execute (F := Binary64_float) "SELECT * FROM sample_1" sample_engine.
Proof.
  apply (star_then_its_columns_same_rows (F := Binary64_float) sample_engine
    "SELECT * FROM sample_1" "SELECT id, age FROM sample_1" "sample_1"
    [("id", VInt 1); ("age", VInt 25)] [ [("id", VInt 2); ("age", VInt 40)] ]);
    [ vm_compute; reflexivity
    | repeat constructor; cbn; intuition discriminate
    | vm_compute; reflexivity
    | vm_compute; reflexivity ].
Defined.

(** ** Scenarios of the specification *)

Example scenario_sample_1 :
  fst (execute (F := Binary64_float)
         "SELECT id FROM sample_1 WHERE age > 30" sample_engine)
  = Ok {| r_cols := ["id"]; r_rows := [[VInt 2]] |}.
Proof. vm_compute. reflexivity. Qed.

Example scenario_empty_table :
  let self := snd (load_csv (F := Binary64_float) "empty_t" [] empty_engine) in
  fst (execute (F := Binary64_float) "SELECT * FROM empty_t" self)
  = Ok {| r_cols := []; r_rows := [] |}.
Proof. vm_compute. reflexivity. Qed.

Example scenario_text_comparison_is_case_sensitive :
  let self :=
    snd (load_csv (F := Binary64_float) "t"
           [ {| named := [("name", Some "ann"); ("status", Some "ACTIVE")];
                surplus := None |} ] empty_engine) in
  fst (execute (F := Binary64_float)
         "SELECT name FROM t WHERE status = 'active'" self)
  = Ok {| r_cols := ["name"]; r_rows := [] |}.
Proof. vm_compute. reflexivity. Qed.

Example scenario_unknown_table :
  fst (execute (F := Binary64_float) "SELECT * FROM ghost" sample_engine)
  = Raise (TableNotFoundError
      "Table 'ghost' not loaded. Use .load <path> to load CSV (table name: ghost)").
Proof. vm_compute. reflexivity. Qed.

Example scenario_case_insensitive_names :
  fst (execute (F := Binary64_float) "SELECT Name FROM PEOPLE" people_engine)
  = fst (execute (F := Binary64_float) "select name from people" people_engine).
Proof. vm_compute. reflexivity. Qed.

(** * Further properties *)

(** ** White space *)

Lemma single_spaced_collapse b s : single_spaced b (collapse_ws b s) = true.
Proof.
  revert b. induction s as [|c s IH]; intros b; [reflexivity|].
  cbn [collapse_ws]. destruct (isspace c) eqn:Hc.
  - destruct b; [apply IH|]. cbn [single_spaced]. rewrite IH. reflexivity.
  - cbn [single_spaced]. rewrite Hc. apply IH.
Qed.

Lemma collapse_single_spaced b s :
  single_spaced b s = true -> collapse_ws b s = s.
Proof.
  revert b. induction s as [|c s IH]; intros b; [reflexivity|].
  cbn [single_spaced collapse_ws]. destruct (isspace c) eqn:Hc.
  - intros [[Hb Heq]%andb_prop Hs]%andb_prop.
    apply negb_true_iff in Hb. subst b.
    apply Ascii.eqb_eq in Heq. subst c. now rewrite (IH _ Hs).
  - intros Hs. now rewrite (IH _ Hs).
Qed.

Lemma single_spaced_lstrip b b' s :
  single_spaced b s = true ->
  single_spaced b' (lstrip_with isspace s) = true.
Proof.
  revert b. induction s as [|c s IH]; intros b; [reflexivity|].
  cbn [single_spaced lstrip_with]. destruct (isspace c) eqn:Hc.
  - intros [_ Hs]%andb_prop. now apply (IH true).
  - intros Hs. cbn [single_spaced]. now rewrite Hc.
Qed.

Lemma single_spaced_rstrip b s :
  single_spaced b s = true ->
  single_spaced b (rstrip_with isspace s) = true.
Proof.
  revert b. induction s as [|c s IH]; intros b; [reflexivity|].
  cbn [single_spaced rstrip_with]. destruct (isspace c) eqn:Hc.
  - intros [Hhd Hs]%andb_prop. specialize (IH _ Hs).
    destruct (rstrip_with isspace s) as [|d r]; [reflexivity|].
    cbn [single_spaced]. fold single_spaced. rewrite Hc, Hhd. exact IH.
  - intros Hs. specialize (IH _ Hs).
    destruct (rstrip_with isspace s) as [|d r].
    + cbn [single_spaced]. now rewrite Hc.
    + cbn [single_spaced]. fold single_spaced. rewrite Hc. exact IH.
Qed.

Lemma lstrip_no_leading_space s :
  starts_with_space (lstrip_with isspace s) = false.
Proof.
  induction s as [|c s IH]; [reflexivity|].
  cbn [lstrip_with]. destruct (isspace c) eqn:Hc; [exact IH|exact Hc].
Qed.

Lemma lstrip_id s :
  starts_with_space s = false -> lstrip_with isspace s = s.
Proof. destruct s as [|c s]; [reflexivity|]. cbn. now intros ->. Qed.

Lemma rstrip_keeps_head s :
  starts_with_space s = false ->
  starts_with_space (rstrip_with isspace s) = false.
Proof.
  destruct s as [|c s]; [reflexivity|]. cbn [starts_with_space rstrip_with].
  intros Hc. destruct (rstrip_with isspace s); [now rewrite Hc|exact Hc].
Qed.

Lemma rstrip_cons p c s :
  rstrip_with p (String c s) =
  match rstrip_with p s with
  | EmptyString => if p c then EmptyString else String c EmptyString
  | r => String c r
  end.
Proof. reflexivity. Qed.

Lemma rstrip_idem p s : rstrip_with p (rstrip_with p s) = rstrip_with p s.
Proof.
  induction s as [|c s IH]; [reflexivity|].
  rewrite rstrip_cons. destruct (rstrip_with p s) as [|d r] eqn:Hr.
  - destruct (p c) eqn:Hc; [reflexivity|]. cbn. now rewrite Hc.
  - rewrite rstrip_cons, IH. reflexivity.
Qed.

Lemma rstrip_no_trailing_space s :
  ends_with_space (rstrip_with isspace s) = false.
Proof.
  induction s as [|c s IH]; [reflexivity|].
  cbn [rstrip_with]. destruct (rstrip_with isspace s) as [|d r].
  - destruct (isspace c) eqn:Hc; [reflexivity|exact Hc].
  - exact IH.
Qed.

Lemma strip_idem s : strip (strip s) = strip s.
Proof.
  unfold strip.
  rewrite (lstrip_id (rstrip_with isspace (lstrip_with isspace s))).
  - apply rstrip_idem.
  - apply rstrip_keeps_head, lstrip_no_leading_space.
Qed.

(** X1.  The text [normalize_whitespace] returns holds no white space
    but single spaces between other characters, none at its start and none
    at its end, and normalizing it again changes nothing. *)
Theorem normalize_whitespace_normal_form (s : string) :
  let n := normalize_whitespace s in
  single_spaced false n = true /\
  starts_with_space n = false /\
  ends_with_space n = false /\
  normalize_whitespace n = n.
Proof.
  cbv zeta. unfold normalize_whitespace.
  assert (Hss : single_spaced false (strip (collapse_ws false s)) = true).
  { unfold strip. apply single_spaced_rstrip.
    apply (single_spaced_lstrip false), single_spaced_collapse. }
  repeat split.
  - exact Hss.
  - unfold strip. apply rstrip_keeps_head, lstrip_no_leading_space.
  - unfold strip. apply rstrip_no_trailing_space.
  - rewrite (collapse_single_spaced _ _ Hss). apply strip_idem.
Qed.

(** ** What [parse] raises and what it returns *)

Lemma char_upper_space c : char_upper c = " "%char -> c = " "%char.
Proof.
  destruct c as [[] [] [] [] [] [] [] []]; vm_compute; intros H;
    first [reflexivity | discriminate H].
Qed.

(** Where the upper-cased text starts with the keyword between spaces,
    the pattern of [re.split] matches. *)
Lemma prefix_where_kw s :
  String.prefix " WHERE " (upper s) = true -> where_kw_at s = true.
Proof.
  destruct s as [|c0 [|c1 [|c2 [|c3 [|c4 [|c5 [|c6 s]]]]]]];
    try (intros H; apply prefix_app in H as [r Hr]; discriminate Hr).
  intros [r Hr]%prefix_app. unfold upper in Hr. cbn [smap] in Hr.
  cbv beta iota delta [String.append] in Hr.
  injection Hr as H0 H1 H2 H3 H4 H5 H6 _.
  apply char_upper_space in H0, H6. subst c0 c6.
  unfold where_kw_at, upper. cbn [smap]. rewrite H1, H2, H3, H4, H5.
  reflexivity.
Qed.

Lemma split_go_nonempty m n k cur s :
  exists p rest, split_go m n k cur s = p :: rest.
Proof.
  revert k cur. induction s as [|c s IH]; intros k cur; cbn [split_go].
  - eauto.
  - destruct k; [destruct (m (String c s))|]; eauto.
Qed.

Lemma split_go_where_two cur s :
  contains " WHERE " (upper s) = true ->
  exists p0 p1 rest, split_go where_kw_at 6 0 cur s = p0 :: p1 :: rest.
Proof.
  revert cur. induction s as [|c s IH]; intros cur.
  - intros H. discriminate H.
  - unfold upper. cbn [smap]. rewrite contains_cons. fold (upper s).
    change (String (char_upper c) (upper s)) with (upper (String c s)).
    cbn [split_go]. destruct (where_kw_at (String c s)) eqn:Hk.
    + intros _. destruct (split_go_nonempty where_kw_at 6 6 EmptyString s)
        as (p & rest & ->). eauto.
    + intros [Hp|Hc]%orb_prop.
      * apply prefix_where_kw in Hp. congruence.
      * apply IH, Hc.
Qed.

(** [re.split] returns at least two pieces when the keyword occurs. *)
Lemma re_split_where_two s :
  contains " WHERE " (upper s) = true ->
  exists p0 p1 rest, re_split_where s = p0 :: p1 :: rest.
Proof. apply split_go_where_two. Qed.

Lemma split1_present sep s :
  contains sep s = true -> exists l r, split1 sep s = [l; r].
Proof.
  intros H. destruct (find_at_some sep s H) as (l & r & Hf & _).
  exists l, r. unfold split1. now rewrite Hf.
Qed.

Lemma unpack2_split1 sep s e :
  unpack2 (split1 sep s) = Raise e ->
  e = ValueError "not enough values to unpack (expected 2, got 1)".
Proof.
  unfold split1.
  destruct (find_at _ _ s) as [[l r]|]; cbn; [discriminate|congruence].
Qed.

Lemma split_clauses_raise sql e :
  split_clauses sql = Raise e ->
  e = SQLParseError "Empty SQL" \/
  e = SQLParseError "Query must start with SELECT" \/
  e = SQLParseError "Missing FROM clause" \/
  e = ValueError "not enough values to unpack (expected 2, got 1)".
Proof.
  unfold split_clauses.
  destruct (_ || _); [intros [= <-]; auto|].
  destruct (negb (startswith _ _)); [intros [= <-]; auto|].
  destruct (negb (contains " FROM " _)); [intros [= <-]; auto|].
  destruct (unpack2 _) as [[sp rr]|e'] eqn:Hu; cbn [rbind].
  - destruct (contains " WHERE " (upper rr)) eqn:Hw; [|discriminate].
    destruct (re_split_where_two _ Hw) as (p0 & p1 & rest & ->).
    discriminate.
  - intros [= <-]. right; right; right.
    destruct (contains " from " _); now apply unpack2_split1 in Hu.
Qed.

Lemma parse_select_raise sb e :
  parse_select sb = Raise e ->
  e = SQLParseError "Invalid COUNT() syntax" \/
  e = SQLParseError "No columns specified in SELECT" \/
  exists c, e = SQLParseError ("Invalid column name: " ++ c).
Proof.
  unfold parse_select.
  destruct (startswith _ _).
  { destruct (match_count sb); [discriminate|intros [= <-]; auto]. }
  destruct (String.eqb sb "*"); [discriminate|]. cbv zeta.
  destruct (selection_pieces sb) as [|c0 cols]; [intros [= <-]; auto|].
  destruct (find _ _) as [c|]; [intros [= <-]; eauto|discriminate].
Qed.

(** The operator found in the predicate segment occurs in it, so the
    cut at the operator always gives two sides. *)
Lemma parse_where_sides wb :
  wb <> "" ->
  match find (fun candidate => contains candidate wb) COMPARISON_OPS with
  | Some op => exists l r, split1 op wb = [l; r]
  | None => True
  end.
Proof.
  intros _. destruct (find _ _) as [op|] eqn:Hf; [|exact I].
  apply find_some in Hf as [_ Hc]. now apply split1_present.
Qed.

Lemma is_ident_start_lower c : is_ident_start (char_lower c) = is_ident_start c.
Proof. destruct c as [[] [] [] [] [] [] [] []]; reflexivity. Qed.

Lemma is_ident_char_lower c : is_ident_char (char_lower c) = is_ident_char c.
Proof. destruct c as [[] [] [] [] [] [] [] []]; reflexivity. Qed.

Lemma newline_lower c :
  Ascii.eqb (char_lower c) "010" = Ascii.eqb c "010".
Proof. destruct c as [[] [] [] [] [] [] [] []]; reflexivity. Qed.

Lemma at_dollar_lower s : at_dollar (lower s) = at_dollar s.
Proof.
  destruct s as [|c [|d s]]; [reflexivity| |].
  - unfold at_dollar, lower. cbn [smap String.eqb orb].
    now rewrite newline_lower.
  - unfold at_dollar, lower. cbn [smap String.eqb orb].
    now rewrite newline_lower.
Qed.

Lemma span_lower s :
  span is_ident_char (lower s) =
  (lower (fst (span is_ident_char s)), lower (snd (span is_ident_char s))).
Proof.
  unfold lower. induction s as [|c s IH]; [reflexivity|].
  cbn [smap span]. rewrite is_ident_char_lower, IH.
  destruct (is_ident_char c); [|reflexivity].
  destruct (span is_ident_char s). reflexivity.
Qed.

Lemma is_identifier_lower s : is_identifier (lower s) = is_identifier s.
Proof.
  destruct s as [|c s]; [reflexivity|].
  unfold is_identifier. change (lower (String c s)) with
    (String (char_lower c) (lower s)). cbv beta iota.
  rewrite is_ident_start_lower, span_lower. cbn [snd].
  now rewrite at_dollar_lower.
Qed.

(** The longest prefix in a class is made of characters of the class
    only. *)
Lemma span_fst_rest p s : snd (span p (fst (span p s))) = EmptyString.
Proof.
  induction s as [|c s IH]; [reflexivity|]. cbn [span].
  destruct (p c) eqn:Hc; [|reflexivity].
  destruct (span p s) as [a b]. cbn [fst span]. rewrite Hc.
  cbn [fst] in IH. destruct (span p a). cbn [snd] in *. exact IH.
Qed.

(** Group 1 of the COUNT pattern is empty, the star, or an identifier. *)
Lemma count_group body :
  let gr :=
    match body with
    | String "*" rest => ("*", rest)
    | String c _ =>
        if is_ident_start c then span is_ident_char body
        else (EmptyString, body)
    | EmptyString => (EmptyString, body)
    end in
  fst gr = "" \/ fst gr = "*" \/ is_identifier (fst gr) = true.
Proof.
  destruct body as [|c rest]; [now left|].
  assert (Hid : is_ident_start c = true ->
                is_identifier (fst (span is_ident_char (String c rest))) = true).
  { intros Hc. cbn [span]. unfold is_ident_char at 1. rewrite Hc. cbn [orb].
    pose proof (span_fst_rest is_ident_char rest) as Hr.
    destruct (span is_ident_char rest) as [a b]. cbn [fst] in *.
    unfold is_identifier. now rewrite Hc, Hr. }
  destruct c as [[] [] [] [] [] [] [] []];
    first [ now (right; left)
          | now left
          | right; right; apply Hid; reflexivity ].
Qed.

Lemma match_count_group s g :
  match_count s = Some g -> g = "*" \/ is_identifier g = true.
Proof.
  unfold match_count. destruct (String.prefix _ _); [|discriminate].
  pose proof (count_group (lstrip_with isspace (drop_chars 6 s))) as Hg.
  cbv zeta in Hg.
  destruct (match lstrip_with isspace (drop_chars 6 s) with
            | EmptyString => _ | String _ _ => _ end) as [grp rest].
  cbn [fst] in Hg. destruct grp as [|c grp]; [discriminate|].
  destruct (lstrip_with isspace rest) as [|d tl]; [discriminate|].
  destruct (ascii_dec d ")") as [->|Hd].
  - destruct (at_dollar tl); [|discriminate]. intros [= <-].
    destruct Hg as [Hg|Hg]; [discriminate|exact Hg].
  - destruct d as [[] [] [] [] [] [] [] []]; try discriminate.
    now contradiction Hd.
Qed.

Lemma str_length_app a b :
  String.length (a ++ b) = (String.length a + String.length b)%nat.
Proof. induction a as [|c a IH]; [reflexivity|]. rewrite append_cons. cbn. now rewrite IH. Qed.



Section MoreParserProperties.

Context {float : Type} {F : PyFloat float}.

Lemma parse_where_raise_parse_error wb e :
  parse_where wb = Raise e ->
  e = SQLParseError "WHERE must contain a comparison operator" \/
  (exists col, e = SQLParseError ("Invalid column in WHERE: " ++ col)) \/
  e = SQLParseError "WHERE value must be number or string".
Proof.
  intros H. destruct (parse_where_raise _ _ H) as [[m ->]|Hother];
    [exfalso|exact Hother].
  unfold parse_where in H. destruct wb as [[|c wb]|]; try discriminate.
  pose proof (parse_where_sides (String c wb)) as Hs.
  destruct (find _ _) as [op|]; [|discriminate].
  destruct Hs as (l & r & Hs); [discriminate|]. rewrite Hs in H.
  cbn [unpack2 rbind] in H.
  destruct (negb _); [discriminate|].
  destruct (parse_value (strip r)) as [[v t]|e'] eqn:Hv; cbn [rbind] in H;
    [discriminate|].
  injection H as ->. unfold parse_value in Hv.
  destruct (_ && _); [discriminate|].
  destruct (if contains "." (strip r) then _ else _); [discriminate|].
  destruct (is_bare_word _); discriminate.
Qed.

(** X2.  Whatever the text, [parse] fails in one of ten ways only: with
    one of the nine messages of [SQLParseError], or with the [ValueError]
    of the unpacking at line 32.  The subscripts [parts[0]] and [parts[1]]
    and the unpacking of the two sides of the operator never fail. *)
Theorem parse_raises_only (sql : string) (e : exn) :
  parse sql = Raise e ->
  e = SQLParseError "Empty SQL" \/
  e = SQLParseError "Query must start with SELECT" \/
  e = SQLParseError "Missing FROM clause" \/
  e = ValueError "not enough values to unpack (expected 2, got 1)" \/
  e = SQLParseError "Invalid COUNT() syntax" \/
  e = SQLParseError "No columns specified in SELECT" \/
  (exists c, e = SQLParseError ("Invalid column name: " ++ c)) \/
  e = SQLParseError "WHERE must contain a comparison operator" \/
  (exists col, e = SQLParseError ("Invalid column in WHERE: " ++ col)) \/
  e = SQLParseError "WHERE value must be number or string".
Proof.
  unfold parse.
  destruct (split_clauses sql) as [[[sb fp] wb]|e0] eqn:Hc; cbn [rbind].
  - destruct (parse_select sb) as [sel|e1] eqn:Hs; cbn [rbind].
    + destruct (parse_where wb) as [w|e2] eqn:Hw; cbn [rbind];
        [discriminate|].
      intros [= <-]. apply parse_where_raise_parse_error in Hw. tauto.
    + intros [= <-]. apply parse_select_raise in Hs. tauto.
  - intros [= <-]. apply split_clauses_raise in Hc. tauto.
Qed.

(** What a predicate that parses holds. *)
Lemma parse_value_kind raw v t :
  parse_value raw = Ok (v, t) ->
  (t = "num" /\ ((exists n, v = VInt n) \/ exists x, v = VFloat x)) \/
  (t = "str" /\ exists s, v = VStr s).
Proof.
  unfold parse_value. destruct (_ && _); [intros [= <- <-]; eauto|].
  destruct (contains "." raw).
  - destruct (float_of_str raw); cbn [option_map].
    + intros [= <- <-]. eauto.
    + destruct (is_bare_word raw); [intros [= <- <-]; eauto|discriminate].
  - destruct (int_of_str raw); cbn [option_map].
    + intros [= <- <-]. eauto.
    + destruct (is_bare_word raw); [intros [= <- <-]; eauto|discriminate].
Qed.

Lemma parse_where_ok wb w :
  parse_where wb = Ok (Some w) ->
  In (w_op w) COMPARISON_OPS /\
  is_identifier (w_col w) = true /\
  lower (w_col w) = w_col w /\
  ((w_val_type w = "num" /\
    ((exists n, w_val w = VInt n) \/ exists x, w_val w = VFloat x)) \/
   (w_val_type w = "str" /\ exists s, w_val w = VStr s)).
Proof.
  unfold parse_where. destruct wb as [[|c wb]|]; try discriminate.
  destruct (find _ _) as [op|] eqn:Hf; [|discriminate].
  apply find_some in Hf as [Hin _].
  destruct (unpack2 _) as [[l r]|]; cbn [rbind]; [|discriminate].
  destruct (is_identifier (lower (strip l))) eqn:Hid; cbn [negb];
    [|discriminate].
  destruct (parse_value (strip r)) as [[v t]|] eqn:Hv; cbn [rbind];
    [|discriminate].
  intros [= <-]. cbn. repeat split; auto using lower_idem.
  now apply parse_value_kind in Hv.
Qed.

Lemma parse_ok_parts sql q :
  parse sql = Ok q ->
  exists sb fp wb,
    parse_select sb = Ok (q_select q) /\ q_from q = lower fp /\
    parse_where wb = Ok (q_where q).
Proof.
  unfold parse. destruct (split_clauses sql) as [[[sb fp] wb]|]; cbn [rbind];
    [|discriminate].
  destruct (parse_select sb) eqn:Hs; cbn [rbind]; [|discriminate].
  destruct (parse_where wb) eqn:Hw; cbn [rbind]; [|discriminate].
  intros [= <-]. exists sb, fp, wb. auto.
Qed.

(** X3.  In a query [parse] returns, the table name is in lower case;
    a COUNT selection names the star or a lower-case identifier; a column
    selection is the star alone, or a non-empty list of lower-case
    identifiers. *)
Theorem parse_ok_selection (sql : string) (q : parsed_t) :
  parse sql = Ok q ->
  lower (q_from q) = q_from q /\
  match q_select q with
  | Count c => c = "*" \/ (is_identifier c = true /\ lower c = c)
  | Cols cs =>
      cs = ["*"] \/
      (cs <> [] /\
       Forall (fun c => is_identifier c = true /\ lower c = c) cs)
  end.
Proof.
  intros (sb & fp & wb & Hs & Hf & _)%parse_ok_parts. split.
  { rewrite Hf. apply lower_idem. }
  unfold parse_select in Hs. destruct (startswith _ _).
  { destruct (match_count sb) as [g|] eqn:Hg; [|discriminate].
    injection Hs as <-. apply match_count_group in Hg as [->|Hg].
    - now left.
    - right. now rewrite is_identifier_lower, lower_idem. }
  destruct (String.eqb sb "*"); [injection Hs as <-; now left|].
  cbv zeta in Hs. destruct (selection_pieces sb) as [|c0 cols] eqn:Hp;
    [discriminate|].
  destruct (find _ _) eqn:Hfind; [discriminate|]. injection Hs as <-.
  right. split; [discriminate|]. apply List.Forall_forall. intros c Hin.
  split.
  - apply (find_none _ _ Hfind) in Hin. now apply negb_false_iff in Hin.
  - rewrite <- Hp in Hin. apply selection_pieces_In in Hin as (p & _ & _ & ->).
    apply lower_idem.
Qed.

(** X4.  In a query [parse] returns, the operator of the predicate is
    one of the six of [COMPARISON_OPS], its column is a lower-case
    identifier, and its literal is an [int] or a [float] marked [num], or
    a text marked [str]. *)
Theorem parse_ok_predicate (sql : string) (q : parsed_t) (w : where_t) :
  parse sql = Ok q ->
  q_where q = Some w ->
  In (w_op w) COMPARISON_OPS /\
  is_identifier (w_col w) = true /\
  lower (w_col w) = w_col w /\
  ((w_val_type w = "num" /\
    ((exists n, w_val w = VInt n) \/ exists x, w_val w = VFloat x)) \/
   (w_val_type w = "str" /\ exists s, w_val w = VStr s)).
Proof.
  intros (sb & fp & wb & _ & _ & Hw)%parse_ok_parts Hq.
  rewrite Hq in Hw. now apply parse_where_ok in Hw.
Qed.


(** X19.  White space before and after the text of a query does not
    change what [parse] returns or raises. *)
Theorem parse_ignores_outer_space (sql : string) :
  parse (strip sql) = parse sql.
Proof.
  unfold parse, split_clauses. rewrite strip_idem.
  destruct (String.eqb (strip sql) "") eqn:Hs.
  - now rewrite !orb_true_r.
  - rewrite !orb_false_r.
    destruct (String.eqb sql "") eqn:Hq; [|reflexivity].
    apply String.eqb_eq in Hq. subst sql. discriminate Hs.
Qed.

End MoreParserProperties.

Lemma parse_raises_only_witness :
  SQLParseError "Missing FROM clause" = SQLParseError "Empty SQL" \/
  SQLParseError "Missing FROM clause"
    = SQLParseError "Query must start with SELECT" \/
  SQLParseError "Missing FROM clause" = SQLParseError "Missing FROM clause" \/
  SQLParseError "Missing FROM clause"
    = ValueError "not enough values to unpack (expected 2, got 1)" \/
  SQLParseError "Missing FROM clause"
    = SQLParseError "Invalid COUNT() syntax" \/
  SQLParseError "Missing FROM clause"
    = SQLParseError "No columns specified in SELECT" \/
  (exists c, SQLParseError "Missing FROM clause"
             = SQLParseError ("Invalid column name: " ++ c)) \/
  SQLParseError "Missing FROM clause"
    = SQLParseError "WHERE must contain a comparison operator" \/
  (exists col, SQLParseError "Missing FROM clause"
               = SQLParseError ("Invalid column in WHERE: " ++ col)) \/
  SQLParseError "Missing FROM clause"
    = SQLParseError "WHERE value must be number or string".
Proof.
  apply (parse_raises_only (F := Binary64_float) "SELECT a, b").
  vm_compute. reflexivity.
Defined.

Lemma parse_ok_selection_witness :
  lower "people" = "people" /\
  (["name"; "age"] = ["*"] \/
   (["name"; "age"] <> [] /\
    Forall (fun c => is_identifier c = true /\ lower c = c) ["name"; "age"])).
Proof.
  exact (parse_ok_selection (F := Binary64_float)
           "select  Name, AGE from People;"
           {| q_select := Cols ["name"; "age"]; q_from := "people";
              q_where := None |}
           ltac:(vm_compute; reflexivity)).
Defined.

Lemma parse_ok_predicate_witness :
  In ">=" COMPARISON_OPS /\
  is_identifier "age" = true /\
  lower "age" = "age" /\
  (("num" = "num" /\
    ((exists n, VInt (float := spec_float) 30 = VInt n) \/
     exists x, VInt (float := spec_float) 30 = VFloat x)) \/
   ("num" = "str" /\ exists s, VInt (float := spec_float) 30 = VStr s)).
Proof.
  exact (parse_ok_predicate (F := Binary64_float)
           "SELECT name FROM people WHERE Age >= 30"
           {| q_select := Cols ["name"]; q_from := "people";
              q_where := Some {| w_col := "age"; w_op := ">=";
                                 w_val := VInt 30; w_val_type := "num" |} |}
           {| w_col := "age"; w_op := ">="; w_val := VInt 30;
              w_val_type := "num" |}
           ltac:(vm_compute; reflexivity) eq_refl).
Defined.

(** ** The count of the star against the predicate of the specification *)

Lemma isdigit_no_dot s : isdigit s = true -> contains "." s = false.
Proof.
  unfold isdigit. intros [_ H]%andb_prop.
  induction s as [|c s IH]; [reflexivity|].
  cbn [all_chars] in H. apply andb_prop in H as [Hc Hs].
  rewrite contains_cons, (IH Hs), orb_false_r.
  cbn [String.prefix].
  destruct (ascii_dec "." c) as [<-|Hn]; [discriminate Hc|reflexivity].
Qed.

Lemma str_compare_refl (a : string) : String.compare a a = Eq.
Proof.
  induction a as [|c a IH]; [reflexivity|]. cbn [String.compare].
  unfold Ascii.compare. now rewrite N.compare_refl.
Qed.

Lemma eqb_compare (a b : string) :
  String.eqb a b = match String.compare a b with Eq => true | _ => false end.
Proof.
  destruct (String.eqb a b) eqn:E.
  - apply String.eqb_eq in E. subst b. now rewrite str_compare_refl.
  - destruct (String.compare a b) eqn:C; try reflexivity.
    apply String.compare_eq_iff in C. apply String.eqb_neq in E. contradiction.
Qed.

Section CountStar.

Context {float : Type} {F : PyFloat float}.

Ltac op_case E c :=
  apply String.eqb_eq in E; subst; destruct c as [[]|]; reflexivity.

(** [compare] read off the outcome [c] of comparing its operands. *)
Lemma compare_by_outcome (l r : pyval) (op : string) (c : option comparison) :
  l <> VNone ->
  py_eq l r = match c with Some Eq => true | _ => false end ->
  py_order l r = Ok c ->
  compare l op r = op_holds op c.
Proof.
  intros Hl He Ho. unfold compare, op_holds, str_in. rewrite He, Ho.
  destruct l; [contradiction| | |];
    (destruct (String.eqb op "=") eqn:E1; [op_case E1 c|];
     destruct (String.eqb op "!=") eqn:E2; [op_case E2 c|];
     destruct (String.eqb op ">") eqn:E3; [op_case E3 c|];
     destruct (String.eqb op "<") eqn:E4; [op_case E4 c|];
     destruct (String.eqb op ">=") eqn:E5; [op_case E5 c|];
     destruct (String.eqb op "<=") eqn:E6; [op_case E6 c|];
     destruct c as [[]|]; cbn [existsb];
     rewrite ?E1, ?E2, ?E3, ?E4, ?E5, ?E6; reflexivity).
Qed.

(** The conditional expression of line 175 against the coercion rule. *)
Lemma coerce_cell_spec (cell : pyval) :
  match spec_coerce cell with
  | Some (NInt a) => coerce_cell cell = Ok (VInt a)
  | Some (NFloat y) => coerce_cell cell = Ok (VFloat y)
  | None => cell = VNone \/ exists e, coerce_cell cell = Raise e
  end.
Proof.
  destruct cell as [| n | x | s];
    cbn [spec_coerce coerce_cell py_int py_float rbind].
  - now left.
  - reflexivity.
  - reflexivity.
  - destruct (isdigit s) eqn:Hd.
    + rewrite (isdigit_no_dot s Hd).
      destruct (int_of_str s); cbn [option_map rbind]; [reflexivity|eauto].
    + destruct (contains "." s);
        destruct (float_of_str s); cbn [option_map rbind];
        try reflexivity; eauto.
Qed.

(** With an operand, the body of the loop decides as the specification
    does. *)
Lemma where_row_spec (real_col : string) (w : where_t) (o : operand)
    (r : row) :
  spec_operand w = Some o ->
  where_row real_col (w_op w) (w_val w) (w_val_type w) r
  = Ok (spec_matches real_col (w_op w) o r).
Proof.
  unfold spec_operand, where_row, spec_matches. intros Ho.
  destruct (dict_get r real_col) as [| n | x | s] eqn:Hc; [reflexivity| | |];
    (destruct (String.eqb (w_val_type w) "num");
     [ destruct (py_float (w_val w)) as [fx|] eqn:Hf; [|discriminate];
       injection Ho as <-;
       match goal with |- context [coerce_cell ?c] =>
         pose proof (coerce_cell_spec c) as Hs;
         destruct (spec_coerce c) as [[a|y]|];
         [ rewrite Hs; cbn [rbind]; f_equal;
           apply compare_by_outcome; [discriminate|reflexivity|reflexivity]
         | rewrite Hs; cbn [rbind]; f_equal;
           apply compare_by_outcome; [discriminate|reflexivity|reflexivity]
         | destruct Hs as [Hs|[e Hs]]; [discriminate|now rewrite Hs] ]
       end
     | injection Ho as <-; f_equal;
       apply compare_by_outcome;
       [discriminate|cbn [py_eq]; apply eqb_compare|reflexivity] ]).
Qed.

Lemma where_loop_spec (real_col : string) (w : where_t) (o : operand)
    (rows acc : list row) :
  spec_operand w = Some o ->
  where_loop real_col (w_op w) (w_val w) (w_val_type w) rows acc
  = Ok (acc ++ List.filter (spec_matches real_col (w_op w) o) rows)%list.
Proof.
  intros Ho. revert acc. induction rows as [|r rows IH]; intros acc.
  - cbn. now rewrite app_nil_r.
  - cbn [where_loop List.filter]. rewrite (where_row_spec _ _ _ _ Ho).
    cbn [rbind]. rewrite IH.
    destruct (spec_matches _ _ _ r); [now rewrite <- app_assoc|reflexivity].
Qed.

(** Without one, [float(val)] raises at the first row that needs it. *)
Lemma where_row_no_operand (real_col : string) (w : where_t) (r : row) e :
  w_val_type w = "num" ->
  py_float (w_val w) = Raise e ->
  where_row real_col (w_op w) (w_val w) (w_val_type w) r
  = if needs_operand real_col r then Raise e else Ok false.
Proof.
  intros Hn Hf. unfold where_row, needs_operand. rewrite Hn, Hf.
  cbn [String.eqb Ascii.eqb Bool.eqb].
  pose proof (coerce_cell_spec (dict_get r real_col)) as Hs.
  destruct (dict_get r real_col) as [| n | x | s] eqn:Hc; [reflexivity| | |];
    (destruct (spec_coerce _) as [[a|y]|];
     [ now rewrite Hs | now rewrite Hs
     | destruct Hs as [Hs|[e' Hs]]; [discriminate|now rewrite Hs] ]).
Qed.

Lemma where_loop_no_operand (real_col : string) (w : where_t)
    (rows acc : list row) e :
  w_val_type w = "num" ->
  py_float (w_val w) = Raise e ->
  where_loop real_col (w_op w) (w_val w) (w_val_type w) rows acc
  = if existsb (needs_operand real_col) rows then Raise e else Ok acc.
Proof.
  intros Hn Hf. revert acc. induction rows as [|r rows IH]; intros acc;
    [reflexivity|].
  cbn [where_loop existsb]. rewrite (where_row_no_operand _ _ _ _ Hn Hf).
  destruct (needs_operand real_col r); [reflexivity|].
  cbn [rbind orb]. apply IH.
Qed.

(** The column [_apply_where] compares is the first key equal to the
    requested name up to letter case. *)
Lemma where_column_first_ci (r0 : row (float := float)) (col : string) :
  where_column r0 col
  = match first_ci (keys r0) col with
    | Some c => Ok c
    | None => Raise (ColumnError ("Column '" ++ col ++ "' not found in table"))
    end.
Proof.
  unfold where_column. pose proof (first_ci_lookup (keys r0) col) as H.
  destruct (first_ci (keys r0) col) as [c|].
  - destruct H as [-> ->]. reflexivity.
  - now rewrite H.
Qed.

(** A numeric literal that has no float is an integer too large for
    one. *)
Lemma parsed_operand_overflows (sql : string) (q : parsed_t) (w : where_t) :
  parse sql = Ok q ->
  q_where q = Some w ->
  spec_operand w = None ->
  w_val_type w = "num" /\
  py_float (w_val w)
  = Raise (OverflowError "int too large to convert to float").
Proof.
  intros Hp Hw Ho.
  destruct (parse_ok_parts _ _ Hp) as (sb & fp & wb & _ & _ & Hpw).
  rewrite Hw in Hpw. apply parse_where_ok in Hpw as (_ & _ & _ & Hv).
  unfold spec_operand in Ho.
  destruct Hv as [[Hn Hv]|[Hn _]]; [|now rewrite Hn in Ho].
  split; [exact Hn|]. rewrite Hn in Ho. cbn in Ho.
  destruct Hv as [[n Hv]|[x Hv]]; rewrite Hv in Ho |- *; cbn in Ho |- *.
  - destruct (float_of_int n); [discriminate|reflexivity].
  - discriminate.
Qed.

(** C4.  A query that selects [COUNT( * )] from a registered table of N
    rows.  Without a predicate [execute] returns the column [COUNT( * )]
    and one row holding N; over a table without rows it returns 0.  With
    a predicate whose column is found in the first row and whose operand
    is a text or a number that a float holds, it returns the number M of
    rows that the predicate of the specification matches, and M is at
    most N.  With an integer literal too large for a float no count is
    returned as soon as one row has a cell that is coerced to a number:
    [float(val)], evaluated outside the [try], raises [OverflowError];
    when no row has such a cell the count is 0.  A predicate whose column
    no key of the first row matches raises [ColumnError]. *)
Theorem count_star_counts_matches_or_overflows (self : Engine)
    (sql : string) (q : parsed_t) (rows : list row) :
  parse sql = Ok q ->
  q_select q = Count "*" ->
  tables self !! q_from q = Some rows ->
  let count (n : nat) :=
    (Ok {| r_cols := ["COUNT(*)"]; r_rows := [[VInt (Z.of_nat n)]] |},
     self) in
  (q_where q = None -> execute sql self = count (length rows)) /\
  (forall w,
     q_where q = Some w -> rows = [] -> execute sql self = count O) /\
  (forall w r0 rest real_col o,
     q_where q = Some w ->
     rows = r0 :: rest ->
     first_ci (keys r0) (w_col w) = Some real_col ->
     spec_operand w = Some o ->
     let matched := List.filter (spec_matches real_col (w_op w) o) rows in
     (length matched <= length rows)%nat /\
     execute sql self = count (length matched)) /\
  (forall w r0 rest real_col,
     q_where q = Some w ->
     rows = r0 :: rest ->
     first_ci (keys r0) (w_col w) = Some real_col ->
     spec_operand w = None ->
     if existsb (needs_operand real_col) rows then
       execute sql self =
         (Raise (OverflowError "int too large to convert to float"), self)
     else execute sql self = count O) /\
  (forall w r0 rest,
     q_where q = Some w ->
     rows = r0 :: rest ->
     first_ci (keys r0) (w_col w) = None ->
     execute sql self =
       (Raise (ColumnError ("Column '" ++ w_col w ++ "' not found in table")),
        self)).
Proof.
  intros Hp Hs Ht count. rewrite (execute_eq _ _ _ _ Hp Ht), Hs.
  split; [|split; [|split; [|split]]].
  - intros ->. reflexivity.
  - intros w -> ->. reflexivity.
  - intros w r0 rest rc o Hw -> Hc Ho matched. split.
    + apply filter_length_le.
    + rewrite Hw. cbn [rows_after_where _apply_where].
      rewrite where_column_first_ci, Hc. cbn [rbind].
      rewrite (where_loop_spec _ _ _ _ _ Ho). reflexivity.
  - intros w r0 rest rc Hw -> Hc Ho.
    destruct (parsed_operand_overflows _ _ _ Hp Hw Ho) as [Hn Hf].
    rewrite Hw. cbn [rows_after_where _apply_where].
    rewrite where_column_first_ci, Hc. cbn [rbind].
    rewrite (where_loop_no_operand _ _ _ _ _ Hn Hf).
    destruct (existsb _ _); reflexivity.
  - intros w r0 rest Hw -> Hc. rewrite Hw.
    cbn [rows_after_where _apply_where].
    rewrite where_column_first_ci, Hc. reflexivity.
Qed.

End CountStar.

(** The query of the failing input: the literal is 1 followed by 309
    zeros, and both rows of [sample_1] hold a number in [age]. *)
Lemma count_star_overflow_witness :
  execute (F := Binary64_float)
    ("SELECT COUNT(*) FROM sample_1 WHERE age > 1" ++ repeat_char "0" 309)
    sample_engine
  = (Raise (OverflowError "int too large to convert to float"),
     sample_engine).
Proof.
  exact (proj1 (proj2 (proj2 (proj2
    (count_star_counts_matches_or_overflows (F := Binary64_float)
       sample_engine
       ("SELECT COUNT(*) FROM sample_1 WHERE age > 1" ++ repeat_char "0" 309)
       {| q_select := Count "*"; q_from := "sample_1";
          q_where := Some {| w_col := "age"; w_op := ">";
                             w_val := VInt (10 ^ 309);
                             w_val_type := "num" |} |}
       [ [("id", VInt 1); ("age", VInt 25)];
         [("id", VInt 2); ("age", VInt 40)] ]
       ltac:(vm_compute; reflexivity) eq_refl
       ltac:(vm_compute; reflexivity)))))
    {| w_col := "age"; w_op := ">"; w_val := VInt (10 ^ 309);
       w_val_type := "num" |}
    [("id", VInt 1); ("age", VInt 25)] [ [("id", VInt 2); ("age", VInt 40)] ]
    "age" eq_refl eq_refl ltac:(vm_compute; reflexivity)
    ltac:(vm_compute; reflexivity)).
Defined.

(** The same table and column with a literal a float holds: one row
    matches. *)
Example count_star_sample_1 :
  execute (F := Binary64_float)
    "SELECT COUNT(*) FROM sample_1 WHERE age > 30" sample_engine
  = (Ok {| r_cols := ["COUNT(*)"]; r_rows := [[VInt 1]] |}, sample_engine).
Proof. vm_compute. reflexivity. Qed.

(** The same literal on a column of texts: no row needs the operand and
    the count is 0. *)
Example count_star_operand_not_needed :
  execute (F := Binary64_float)
    ("SELECT COUNT(*) FROM people WHERE name > 1" ++ repeat_char "0" 309)
    people_engine
  = (Ok {| r_cols := ["COUNT(*)"]; r_rows := [[VInt 0]] |}, people_engine).
Proof. vm_compute. reflexivity. Qed.

(** ** What [execute] raises and what it returns *)

Section MoreEngineProperties.

Context {float : Type} {F : PyFloat float}.

Lemma execute_parse_raise sql e self :
  parse sql = Raise e -> execute sql self = (Raise e, self).
Proof. intros H. unfold execute, mbind, lift. now rewrite H. Qed.

Lemma execute_no_table sql q self :
  parse sql = Ok q ->
  tables self !! q_from q = None ->
  execute sql self =
    (Raise (TableNotFoundError
       ("Table '" ++ q_from q ++
        "' not loaded. Use .load <path> to load CSV (table name: " ++
        q_from q ++ ")")), self).
Proof.
  intros Hp Ht. unfold execute, mbind, lift. rewrite Hp.
  unfold run_parsed, _resolve_table, mbind, get_tables, raise.
  now rewrite (parse_from_lower _ _ Hp), Ht.
Qed.

(** The three ways through [execute]. *)
Lemma execute_cases sql self :
  (exists e, parse sql = Raise e /\ execute sql self = (Raise e, self)) \/
  (exists q, parse sql = Ok q /\ tables self !! q_from q = None /\
             exists m, execute sql self = (Raise (TableNotFoundError m), self)) \/
  (exists q rows,
     parse sql = Ok q /\ tables self !! q_from q = Some rows /\
     execute sql self =
       (rows' <- rows_after_where (q_where q) rows ;;
        select_rows (q_select q) rows', self)).
Proof.
  destruct (parse sql) as [q|e] eqn:Hp.
  - destruct (tables self !! q_from q) as [rows|] eqn:Ht.
    + right; right. exists q, rows. auto using execute_eq.
    + right; left. exists q. rewrite (execute_no_table _ _ _ Hp Ht). eauto.
  - left. exists e. auto using execute_parse_raise.
Qed.

Lemma where_column_raise (r0 : row (float := float)) col e :
  where_column r0 col = Raise e -> exists m, e = ColumnError m.
Proof.
  unfold where_column. pose proof (first_ci_lookup (keys r0) col) as Hl.
  destruct (first_ci (keys r0) col) as [c|].
  - destruct Hl as [Hin Hidx]. rewrite Hin. cbn [negb]. rewrite Hidx.
    discriminate.
  - rewrite Hl. cbn [negb]. intros [= <-]. eauto.
Qed.

Lemma resolve_loop_raise ks cs acc e :
  resolve_loop ks (map lower ks) cs acc = Raise e -> exists m, e = ColumnError m.
Proof.
  revert acc. induction cs as [|rc cs IH]; intros acc; cbn [resolve_loop].
  - discriminate.
  - destruct (String.eqb rc "*"); [discriminate|].
    pose proof (first_ci_lookup ks rc) as Hl.
    destruct (first_ci ks rc) as [c|].
    + destruct Hl as [Hin Hidx]. rewrite Hin. cbn [negb].
      destruct (index_of (lower rc) (map lower ks)) as [i|]; [|discriminate].
      cbn [rbind] in Hidx |- *. rewrite Hidx. cbn [rbind]. apply IH.
    + rewrite Hl. cbn [negb]. intros [= <-]. eauto.
Qed.

Lemma where_loop_raise rc op (val : pyval) vt (rows : list row) acc e :
  where_loop rc op val vt rows acc = Raise e ->
  vt = "num" /\ py_float val = Raise e.
Proof.
  revert acc. induction rows as [|r rows IH]; intros acc; cbn [where_loop].
  - discriminate.
  - destruct (where_row rc op val vt r) as [b|e'] eqn:Hr; cbn [rbind].
    + apply IH.
    + intros [= <-]. unfold where_row in Hr.
      destruct (dict_get r rc); try discriminate;
        (destruct (String.eqb vt "num") eqn:Hvt; [|discriminate];
         apply String.eqb_eq in Hvt;
         destruct (coerce_cell _); [|discriminate];
         destruct (py_float val); [discriminate|];
         cbn [rbind] in Hr; injection Hr as ->; auto).
Qed.

Lemma rows_after_where_raise wb w rows e :
  parse_where wb = Ok w ->
  rows_after_where w rows = Raise e ->
  (exists m, e = ColumnError m) \/
  e = OverflowError "int too large to convert to float".
Proof.
  intros Hw. destruct w as [w|]; [|discriminate]. cbn [rows_after_where].
  unfold _apply_where. destruct rows as [|r0 rest]; [discriminate|].
  destruct (where_column r0 (w_col w)) as [rc|e'] eqn:Hc; cbn [rbind].
  - intros [Hnum Hf]%where_loop_raise. right.
    apply parse_where_ok in Hw as (_ & _ & _ & [[_ Hv]|[Hs _]]);
      [|congruence].
    unfold py_float in Hf. destruct Hv as [[n Hn]|[x Hx]].
    + rewrite Hn in Hf. destruct (float_of_int n); congruence.
    + rewrite Hx in Hf. discriminate.
  - intros [= <-]. left. now apply where_column_raise in Hc.
Qed.

Lemma select_rows_raise sel (rows : list (row (float := float))) e :
  select_rows sel rows = Raise e -> exists m, e = ColumnError m.
Proof.
  unfold select_rows. destruct sel as [c|cs].
  - destruct (String.eqb c "*") eqn:Hc; [discriminate|].
    destruct rows as [|r0 rest]; [discriminate|]. cbn [length Nat.eqb].
    unfold _resolve_columns_case_insensitive. cbn [resolve_loop]. rewrite Hc.
    pose proof (first_ci_lookup (keys r0) c) as Hl.
    destruct (first_ci (keys r0) c) as [k|].
    + destruct Hl as [Hin Hidx]. rewrite Hin. cbn [negb].
      destruct (index_of _ _) as [i|]; [|discriminate].
      cbn [rbind] in Hidx |- *. rewrite Hidx. discriminate.
    + rewrite Hl. cbn [negb rbind]. intros [= <-]. eauto.
  - destruct (decide (cs = ["*"])); [discriminate|].
    destruct rows as [|r0 rest]; [discriminate|].
    unfold _resolve_columns_case_insensitive.
    destruct (resolve_loop _ _ cs []) eqn:Hr; cbn [rbind]; [discriminate|].
    intros [= <-]. now apply resolve_loop_raise in Hr.
Qed.

(** X6.  Whatever the text and the registry, [execute] fails with the
    error of [parse], with [TableNotFoundError], with [ColumnError], or
    with the [OverflowError] of [float(val)] on an integer literal too
    large for a [float]; no subscript or lookup of [engine.py] fails. *)
Theorem execute_raises_only (sql : string) (self : Engine) (e : exn) :
  fst (execute sql self) = Raise e ->
  parse sql = Raise e \/
  (exists m, e = TableNotFoundError m) \/
  (exists m, e = ColumnError m) \/
  e = OverflowError "int too large to convert to float".
Proof.
  destruct (execute_cases sql self)
    as [(e' & Hp & ->)|[(q & _ & _ & m & ->)|(q & rows & Hp & _ & ->)]];
    cbn [fst].
  - intros [= <-]. now left.
  - intros [= <-]. eauto.
  - destruct (parse_ok_parts _ _ Hp) as (_ & _ & wb & _ & _ & Hw).
    destruct (rows_after_where _ rows) as [rows'|e'] eqn:Hr; cbn [rbind].
    + intros H%select_rows_raise. auto.
    + intros [= <-]. apply (rows_after_where_raise _ _ _ _ Hw) in Hr. tauto.
Qed.

Lemma project_width cols (rows : list (row (float := float))) :
  Forall (fun out => length out = length cols) (project cols rows).
Proof.
  apply List.Forall_forall. intros out (r & <- & _)%in_map_iff.
  apply length_map.
Qed.

Lemma select_rows_width sel (rows : list (row (float := float))) res :
  select_rows sel rows = Ok res ->
  Forall (fun out => length out = length (r_cols res)) (r_rows res).
Proof.
  unfold select_rows. destruct sel as [c|cs].
  - destruct (String.eqb c "*"); [intros [= <-]; repeat constructor|].
    destruct (Nat.eqb _ _); [intros [= <-]; repeat constructor|].
    destruct (_resolve_columns_case_insensitive _ _); cbn [rbind];
      [|discriminate].
    destruct (item _ _); cbn [rbind]; [|discriminate].
    intros [= <-]. repeat constructor.
  - destruct (decide _).
    + intros [= <-]. apply project_width.
    + destruct (match rows with [] => _ | _ :: _ => _ end); cbn [rbind];
        [|discriminate].
      intros [= <-]. apply project_width.
Qed.

Lemma execute_ok_inv sql self res :
  fst (execute sql self) = Ok res ->
  exists q rows rows',
    parse sql = Ok q /\ tables self !! q_from q = Some rows /\
    rows_after_where (q_where q) rows = Ok rows' /\
    select_rows (q_select q) rows' = Ok res.
Proof.
  destruct (execute_cases sql self)
    as [(e' & Hp & ->)|[(q & _ & _ & m & ->)|(q & rows & Hp & Ht & ->)]];
    cbn [fst]; try discriminate.
  destruct (rows_after_where _ rows) as [rows'|] eqn:Hr; cbn [rbind];
    [|discriminate].
  intros Hs. exists q, rows, rows'. auto.
Qed.

(** X7.  In every result [execute] returns, each row holds as many
    values as there are output columns. *)
Theorem execute_rows_match_columns (sql : string) (self : Engine)
    (res : result_t) :
  fst (execute sql self) = Ok res ->
  Forall (fun out => length out = length (r_cols res)) (r_rows res).
Proof.
  intros (q & rows & rows' & _ & _ & _ & Hs)%execute_ok_inv.
  now apply select_rows_width in Hs.
Qed.

Lemma rows_after_where_length w rows rows' :
  rows_after_where w rows = Ok rows' -> (length rows' <= length rows)%nat.
Proof.
  destruct w as [w|]; cbn [rows_after_where].
  - apply apply_where_length.
  - intros [= <-]. reflexivity.
Qed.

(** X8.  A COUNT query returns exactly one column and one row.  A
    projection returns one output row for each row that remains after the
    predicate: at most as many as the table has rows, and exactly as many
    when the query has no predicate. *)
Theorem execute_row_count (sql : string) (self : Engine) (q : parsed_t)
    (rows : list row) (res : result_t) :
  parse sql = Ok q ->
  tables self !! q_from q = Some rows ->
  fst (execute sql self) = Ok res ->
  match q_select q with
  | Count _ => length (r_cols res) = 1%nat /\ length (r_rows res) = 1%nat
  | Cols _ =>
      (length (r_rows res) <= length rows)%nat /\
      (q_where q = None -> length (r_rows res) = length rows)
  end.
Proof.
  intros Hp Ht. rewrite (execute_eq _ _ _ _ Hp Ht). cbn [fst].
  destruct (rows_after_where _ rows) as [rows'|] eqn:Hr; cbn [rbind];
    [|discriminate].
  unfold select_rows. destruct (q_select q) as [c|cs].
  - destruct (String.eqb c "*"); [intros [= <-]; auto|].
    destruct (Nat.eqb _ _); [intros [= <-]; auto|].
    destruct (_resolve_columns_case_insensitive _ _); cbn [rbind];
      [|discriminate].
    destruct (item _ _); cbn [rbind]; [|discriminate].
    intros [= <-]. auto.
  - assert (Hlen : forall cols,
              (length (project cols rows') <= length rows)%nat /\
              (q_where q = None -> length (project cols rows') = length rows)).
    { intros cols. unfold project. rewrite length_map. split.
      - now apply rows_after_where_length in Hr.
      - intros Hn. rewrite Hn in Hr. now injection Hr as <-. }
    destruct (decide _).
    + intros [= <-]. apply Hlen.
    + destruct (match rows' with [] => _ | _ :: _ => _ end); cbn [rbind];
        [|discriminate].
      intros [= <-]. apply Hlen.
Qed.

(** In a row without a repeated key, reading every key in turn gives
    the values of the row in order. *)
Lemma dict_get_keys (r : row (float := float)) :
  List.NoDup (keys r) -> map (dict_get r) (keys r) = map snd r.
Proof.
  induction r as [|[k v] r IH]; [reflexivity|].
  cbn [keys map fst snd dict_get]. intros Hnd.
  apply NoDup_cons_iff in Hnd as [Hk Hnd].
  rewrite String.eqb_refl. f_equal.
  rewrite <- (IH Hnd). apply map_ext_in. intros k' Hin.
  destruct (String.eqb k k') eqn:Heq; [|reflexivity].
  apply String.eqb_eq in Heq. subst k'. contradiction.
Qed.

(** X9.  Over a table whose rows all have the keys of the first row, in
    the same order and without repetition, a query that selects the star
    without predicate returns the keys as columns and every row of the
    table, value for value. *)
Theorem select_star_returns_table (self : Engine) (sql t : string)
    (r0 : row) (rest : list row) :
  parse sql = Ok {| q_select := Cols ["*"]; q_from := t; q_where := None |} ->
  tables self !! t = Some (r0 :: rest) ->
  List.NoDup (keys r0) ->
  Forall (fun r => keys r = keys r0) rest ->
  execute sql self =
    (Ok {| r_cols := keys r0; r_rows := map (map snd) (r0 :: rest) |}, self).
Proof.
  intros Hp Ht Hnd Hkeys. rewrite (execute_eq _ _ _ _ Hp Ht).
  cbn [q_where q_select rows_after_where rbind select_rows].
  destruct (decide (["*"] = ["*"])) as [_|]; [|contradiction].
  do 3 f_equal. unfold project. apply map_ext_in. intros r Hin.
  assert (Hk : keys r = keys r0).
  { destruct Hin as [<-|Hin]; [reflexivity|].
    now apply (proj1 (List.Forall_forall _ _) Hkeys). }
  rewrite <- Hk. apply dict_get_keys. now rewrite Hk.
Qed.

(** X10.  A query that counts a column other than the star returns 0
    when no row remains, whether or not the column exists; otherwise it
    looks the column up in the first remaining row up to letter case and
    returns the number of remaining rows whose value in it is not [None],
    or fails with [ColumnError] when no key matches. *)
Theorem count_column_counts_values (self : Engine) (sql c : string)
    (q : parsed_t) (rows rows' : list row) :
  parse sql = Ok q ->
  q_select q = Count c ->
  c <> "*" ->
  tables self !! q_from q = Some rows ->
  rows_after_where (q_where q) rows = Ok rows' ->
  match rows' with
  | [] =>
      execute sql self =
        (Ok {| r_cols := ["COUNT(" ++ c ++ ")"]; r_rows := [[VInt 0]] |}, self)
  | r0 :: _ =>
      match first_ci (keys r0) c with
      | Some k =>
          let n := length (List.filter
                             (fun r => is_not_none (dict_get r k)) rows') in
          (n <= length rows')%nat /\
          execute sql self =
            (Ok {| r_cols := ["COUNT(" ++ c ++ ")"];
                   r_rows := [[VInt (Z.of_nat n)]] |}, self)
      | None =>
          execute sql self =
            (Raise (ColumnError ("Column '" ++ c ++ "' not found in table")),
             self)
      end
  end.
Proof.
  intros Hp Hs Hc Ht Hr. rewrite (execute_eq _ _ _ _ Hp Ht), Hr, Hs.
  cbn [rbind select_rows]. apply String.eqb_neq in Hc. rewrite Hc.
  destruct rows' as [|r0 rest]; [reflexivity|]. cbn [length Nat.eqb].
  unfold _resolve_columns_case_insensitive. cbn [resolve_loop]. rewrite Hc.
  pose proof (first_ci_lookup (keys r0) c) as Hl.
  destruct (first_ci (keys r0) c) as [k|].
  - destruct Hl as [Hin Hidx]. rewrite Hin. cbn [negb].
    destruct (index_of _ _) as [i|]; [|discriminate].
    cbn [rbind] in Hidx |- *. rewrite Hidx.
    cbn [rbind resolve_loop app item nth_error].
    split; [apply filter_length_le|reflexivity].
  - rewrite Hl. reflexivity.
Qed.

(** X11.  When the table has no row, or the predicate keeps none, every
    query that parses succeeds, whatever columns it names: a COUNT
    returns 0, the star returns no column and no row, and a column list
    returns the requested names and no row. *)
Theorem no_remaining_row_never_fails (self : Engine) (sql : string)
    (q : parsed_t) (rows : list row) :
  parse sql = Ok q ->
  tables self !! q_from q = Some rows ->
  rows = [] \/ rows_after_where (q_where q) rows = Ok [] ->
  execute sql self =
    (Ok match q_select q with
        | Count c =>
            {| r_cols := ["COUNT(" ++ c ++ ")"]; r_rows := [[VInt 0]] |}
        | Cols cs =>
            if decide (cs = ["*"]) then {| r_cols := []; r_rows := [] |}
            else {| r_cols := cs; r_rows := [] |}
        end, self).
Proof.
  intros Hp Ht Hrows. rewrite (execute_eq _ _ _ _ Hp Ht).
  assert (Hr : rows_after_where (q_where q) rows = Ok []).
  { destruct Hrows as [->|Hr]; [|exact Hr]. now destruct (q_where q). }
  rewrite Hr. cbn [rbind]. unfold select_rows.
  destruct (q_select q) as [c|cs].
  - destruct (String.eqb c "*") eqn:Hc; [|reflexivity].
    apply String.eqb_eq in Hc. subst c. reflexivity.
  - destruct (decide _); reflexivity.
Qed.




Lemma dict_get_convert raw k :
  dict_get (_convert_row_types raw) k = VNone \/
  exists v, dict_get (_convert_row_types raw) k = convert_cell v.
Proof.
  induction raw as [|[k' v] raw IH]; [now left|].
  cbn [_convert_row_types map fst snd dict_get].
  destruct (String.eqb k' k); [right; eauto|exact IH].
Qed.

Lemma convert_cell_text v s :
  convert_cell v = VStr s -> int_of_str s = None /\ float_of_str s = None.
Proof.
  unfold convert_cell. destruct v as [v|]; [|discriminate].
  destruct (String.eqb (strip v) ""); [discriminate|].
  destruct (int_of_str (strip v)) eqn:Hi; [discriminate|].
  destruct (float_of_str (strip v)) eqn:Hf; [discriminate|].
  intros [= <-]. auto.
Qed.

(** X13.  In a row as [load_csv] stores it, a cell that holds text is
    one that neither [int] nor [float] could read, so a numeric predicate
    never keeps the row on that cell, whatever its operator and number. *)
Theorem loaded_text_cell_fails_numeric_predicate
    (raw : list (string * option string)) (k s op : string) (val : pyval) :
  dict_get (_convert_row_types raw) k = VStr s ->
  int_of_str s = None /\ float_of_str s = None /\
  where_row k op val "num" (_convert_row_types raw) = Ok false.
Proof.
  intros Hc.
  assert (Hs : int_of_str s = None /\ float_of_str s = None).
  { destruct (dict_get_convert raw k) as [Hn|[v Hv]]; [congruence|].
    rewrite Hv in Hc. now apply convert_cell_text in Hc. }
  destruct Hs as [Hi Hf]. repeat split; auto.
  unfold where_row. rewrite Hc. cbn [String.eqb Ascii.eqb].
  unfold coerce_cell, py_float, py_int. rewrite Hi, Hf.
  destruct (contains "." s); [reflexivity|].
  destruct (isdigit s); reflexivity.
Qed.

Lemma coerce_cell_number cell l :
  coerce_cell cell = Ok l -> l <> VNone.
Proof.
  unfold coerce_cell. destruct cell as [| n | x | s]; cbn.
  - discriminate.
  - intros [= <-]. discriminate.
  - intros [= <-]. discriminate.
  - destruct (contains "." s); [|destruct (isdigit s)];
      [destruct (float_of_str s)|destruct (int_of_str s)
      |destruct (float_of_str s)]; cbn; intros [= <-]; discriminate.
Qed.

Lemma compare_eq_ne (l r : pyval) :
  l <> VNone -> compare l "!=" r = negb (compare l "=" r).
Proof. destruct l; [contradiction| | |]; reflexivity. Qed.

(** X14.  With the same column, literal and kind, no row is kept both by
    [=] and by [!=], and a row kept by neither has [None] in the column
    or, under a numeric predicate, a cell that does not convert to a
    number or a literal that does not convert to a [float]. *)
Theorem equal_and_not_equal_split_rows (rc col vt : string) (val : pyval)
    (r : row) :
  let w_eq := {| w_col := col; w_op := "="; w_val := val;
                 w_val_type := vt |} in
  let w_ne := {| w_col := col; w_op := "!="; w_val := val;
                 w_val_type := vt |} in
  (row_kept rc w_ne r = true -> row_kept rc w_eq r = false) /\
  (row_kept rc w_eq r = false -> row_kept rc w_ne r = false ->
   dict_get r rc = VNone \/
   (vt = "num" /\
    ((exists e, coerce_cell (dict_get r rc) = Raise e) \/
     exists e, py_float val = Raise e))).
Proof.
  cbv zeta. unfold row_kept, where_row. cbn [w_op w_val w_val_type].
  destruct (dict_get r rc) as [| n | x | s] eqn:Hc; [split; auto; discriminate| | |];
    (destruct (String.eqb vt "num") eqn:Hvt;
     [ apply String.eqb_eq in Hvt;
       match goal with |- context [coerce_cell ?c] =>
         destruct (coerce_cell c) as [l|e] eqn:Hco end;
       [ destruct (py_float val) as [y|e] eqn:Hf; cbn [rbind];
         [ rewrite (compare_eq_ne l _ (coerce_cell_number _ _ Hco));
           destruct (compare l "=" (VFloat y)); split; cbn; try discriminate; auto
         | split; [discriminate|]; intros _ _; right; eauto ]
       | split; [discriminate|]; intros _ _; right; eauto ]
     | rewrite compare_eq_ne by discriminate;
       match goal with |- context [compare ?a "=" ?b] =>
         destruct (compare a "=" b) end;
       split; cbn; try discriminate; auto ]).
Qed.

(** X20.  A text predicate compares the text form of the cell with the
    literal: under [=] a row is kept exactly when its cell is not [None]
    and its text form is the literal, letter for letter; under [<] exactly
    when the text form comes before the literal in the order of texts. *)
Theorem text_predicate_compares_text_forms (rc col vt s : string) (r : row) :
  vt <> "num" ->
  (row_kept rc {| w_col := col; w_op := "="; w_val := VStr s;
                  w_val_type := vt |} r = true
   <-> dict_get r rc <> VNone /\ py_str (dict_get r rc) = s) /\
  (row_kept rc {| w_col := col; w_op := "<"; w_val := VStr s;
                  w_val_type := vt |} r = true
   <-> dict_get r rc <> VNone /\
       String.compare (py_str (dict_get r rc)) s = Lt).
Proof.
  intros Hvt. apply String.eqb_neq in Hvt.
  unfold row_kept, where_row. cbn [w_op w_val w_val_type]. rewrite Hvt.
  assert (Heq : forall a, compare (VStr a) "=" (VStr s) = String.eqb a s)
    by reflexivity.
  assert (Hlt : forall a, compare (VStr a) "<" (VStr s)
                          = match String.compare a s with
                            | Lt => true | _ => false end)
    by reflexivity.
  destruct (dict_get r rc) as [| n | x | t] eqn:Hc.
  - split; (split; [discriminate|intros [H _]; contradiction]).
  - rewrite Heq, Hlt. split; split.
    + destruct (String.eqb _ s) eqn:E; [|discriminate].
      apply String.eqb_eq in E. intros _. split; [discriminate|exact E].
    + intros [_ ->]. now rewrite String.eqb_refl.
    + destruct (String.compare _ s); try discriminate.
      intros _. split; [discriminate|reflexivity].
    + intros [_ ->]. reflexivity.
  - rewrite Heq, Hlt. split; split.
    + destruct (String.eqb _ s) eqn:E; [|discriminate].
      apply String.eqb_eq in E. intros _. split; [discriminate|exact E].
    + intros [_ ->]. now rewrite String.eqb_refl.
    + destruct (String.compare _ s); try discriminate.
      intros _. split; [discriminate|reflexivity].
    + intros [_ ->]. reflexivity.
  - rewrite Heq, Hlt. split; split.
    + destruct (String.eqb _ s) eqn:E; [|discriminate].
      apply String.eqb_eq in E. intros _. split; [discriminate|exact E].
    + intros [_ ->]. now rewrite String.eqb_refl.
    + destruct (String.compare _ s); try discriminate.
      intros _. split; [discriminate|reflexivity].
    + intros [_ ->]. reflexivity.
Qed.

End MoreEngineProperties.

(** ** What [print_result] prints *)

Lemma nth_error_lookup {A} (l : list A) (i : nat) : nth_error l i = l !! i.
Proof.
  revert i. induction l as [|x l IH]; intros [|i]; try reflexivity. apply IH.
Qed.

Lemma item_ok {A} (l : list A) (i : nat) (x : A) :
  l !! i = Some x -> item l i = Ok x.
Proof. intros H. unfold item. now rewrite nth_error_lookup, H. Qed.


Lemma repeat_char_length c n : String.length (repeat_char c n) = n.
Proof. induction n as [|n IH]; [reflexivity|]. cbn. now rewrite IH. Qed.

Lemma ljust_length s w :
  (String.length s <= w)%nat -> String.length (ljust s w) = w.
Proof.
  intros H. unfold ljust. rewrite str_length_app, repeat_char_length. lia.
Qed.

(** The length of a joined line depends on the lengths of its fields
    only. *)
Lemma concat_length sep (l1 l2 : list string) :
  map String.length l1 = map String.length l2 ->
  String.length (String.concat sep l1) = String.length (String.concat sep l2).
Proof.
  revert l2. induction l1 as [|x l1 IH]; intros [|y l2]; try discriminate;
    [reflexivity|].
  cbn [map]. intros [= Hxy Hl]. specialize (IH _ Hl).
  destruct l1 as [|x' l1], l2 as [|y' l2]; try discriminate.
  - exact Hxy.
  - change (String.length (x ++ sep ++ String.concat sep (x' :: l1)) =
            String.length (y ++ sep ++ String.concat sep (y' :: l2))).
    rewrite !str_length_app. now rewrite Hxy, IH.
Qed.

Section CliProperties.

Context {float : Type} {F : PyFloat float}.

Lemma cell_text_width (cell : pyval) :
  String.length (cell_text cell) = cell_width cell.
Proof. destruct cell; reflexivity. Qed.

(** One row widens the columns it reaches and shortens none. *)
Lemma widen_row_ok (r : list pyval) (i : nat) (w : list nat) :
  (i + length r <= length w)%nat ->
  exists w',
    widen_row i r w = Ok w' /\ length w' = length w /\
    (forall j x, w !! j = Some x -> exists y, w' !! j = Some y /\ (x <= y)%nat) /\
    (forall k cell, r !! k = Some cell ->
       exists y, w' !! (i + k)%nat = Some y /\ (cell_width cell <= y)%nat).
Proof.
  revert i w. induction r as [|cell r IH]; intros i w Hlen.
  - exists w. repeat split; eauto. intros k c Hk. discriminate Hk.
  - cbn [length] in Hlen. cbn [widen_row].
    destruct (lookup_lt_is_Some_2 w i ltac:(lia)) as [wi Hwi].
    rewrite (item_ok _ _ _ Hwi). cbn [rbind].
    set (w1 := <[i := Nat.max wi (cell_width cell)]> w).
    assert (Hl1 : length w1 = length w) by apply length_insert.
    destruct (IH (S i) w1 ltac:(lia)) as (w' & Hw' & Hl' & Hmono & Hcover).
    assert (Hmono1 : forall j x, w !! j = Some x ->
              exists y, w1 !! j = Some y /\ (x <= y)%nat).
    { intros j x Hj. destruct (decide (i = j)) as [<-|Hne].
      - exists (Nat.max wi (cell_width cell)). split.
        + apply list_lookup_insert_eq. lia.
        + rewrite Hwi in Hj. injection Hj as <-. lia.
      - exists x. split; [|lia]. subst w1.
        now rewrite list_lookup_insert_ne. }
    exists w'. split; [exact Hw'|]. split; [lia|]. split.
    + intros j x Hj. destruct (Hmono1 _ _ Hj) as (y & Hy & Hxy).
      destruct (Hmono _ _ Hy) as (z & Hz & Hyz). exists z. split; [exact Hz|lia].
    + intros [|k] c Hk.
      * cbn in Hk. injection Hk as <-. rewrite Nat.add_0_r.
        assert (H1 : w1 !! i = Some (Nat.max wi (cell_width cell)))
          by (apply list_lookup_insert_eq; lia).
        destruct (Hmono _ _ H1) as (z & Hz & Hle). exists z. split; [exact Hz|lia].
      * cbn in Hk. destruct (Hcover _ _ Hk) as (y & Hy & Hle).
        exists y. replace (i + S k)%nat with (S i + k)%nat by lia. auto.
Qed.


Lemma widen_rows_ok (rows : list (list pyval)) (w : list nat) :
  Forall (fun r => (length r <= length w)%nat) rows ->
  exists w',
    widen_rows rows w = Ok w' /\ length w' = length w /\
    (forall j x, w !! j = Some x -> exists y, w' !! j = Some y /\ (x <= y)%nat) /\
    (forall r k cell, In r rows -> r !! k = Some cell ->
       exists y, w' !! k = Some y /\ (cell_width cell <= y)%nat).
Proof.
  revert w. induction rows as [|r rows IH]; intros w Hall.
  - exists w. repeat split; eauto. intros r k c [].
  - apply Forall_cons in Hall as [Hr Hall]. cbn [widen_rows].
    destruct (widen_row_ok r 0 w ltac:(lia)) as (w1 & Hw1 & Hl1 & Hm1 & Hc1).
    rewrite Hw1. cbn [rbind].
    destruct (IH w1) as (w' & Hw' & Hl' & Hm' & Hc').
    { rewrite Hl1. exact Hall. }
    exists w'. split; [exact Hw'|]. split; [lia|]. split.
    + intros j x Hj. destruct (Hm1 _ _ Hj) as (y & Hy & Hxy).
      destruct (Hm' _ _ Hy) as (z & Hz & Hyz). exists z. split; [exact Hz|lia].
    + intros r' k c [<-|Hin] Hk.
      * destruct (Hc1 _ _ Hk) as (y & Hy & Hle). cbn in Hy.
        destruct (Hm' _ _ Hy) as (z & Hz & Hyz). exists z. split; [exact Hz|lia].
      * eauto.
Qed.


(** The padded fields of a list no longer than the widths. *)
Lemma padded_ok {A} (text : A -> string) (w : list nat) (l : list A) (i : nat) :
  (i + length l <= length w)%nat ->
  exists cells,
    padded text w i l = Ok cells /\ length cells = length l /\
    ((forall k x y, l !! k = Some x -> w !! (i + k)%nat = Some y ->
                    (String.length (text x) <= y)%nat) ->
     map String.length cells = take (length l) (drop i w)).
Proof.
  revert i. induction l as [|x l IH]; intros i Hlen.
  - exists []. repeat split; reflexivity.
  - cbn [length] in Hlen. cbn [padded].
    destruct (lookup_lt_is_Some_2 w i ltac:(lia)) as [wi Hwi].
    rewrite (item_ok _ _ _ Hwi). cbn [rbind].
    destruct (IH (S i) ltac:(lia)) as (cells & Hp & Hl & Hlens).
    rewrite Hp. cbn [rbind]. exists (ljust (text x) wi :: cells).
    split; [reflexivity|]. split; [cbn; now rewrite Hl|].
    intros Hfit. cbn [map length].
    rewrite (drop_S w wi i Hwi). cbn [take]. f_equal.
    + apply ljust_length. apply (Hfit 0%nat x wi); [reflexivity|].
      now rewrite Nat.add_0_r.
    + apply Hlens. intros k x' y Hk Hy. apply (Hfit (S k) x' y); [exact Hk|].
      now replace (i + S k)%nat with (S i + k)%nat by lia.
Qed.

Lemma print_rows_ok (w : list nat) (rows : list (list pyval))
    (printed : list string) :
  Forall (fun r => (length r <= length w)%nat) rows ->
  exists lines,
    print_rows w rows printed = ((printed ++ lines)%list, Ok tt) /\
    length lines = length rows /\
    (forall n,
       Forall (fun r => length r = length w) rows ->
       (forall r k cell y, In r rows -> r !! k = Some cell -> w !! k = Some y ->
                           (cell_width cell <= y)%nat) ->
       (forall cells, map String.length cells = w ->
                      String.length (String.concat " | " cells) = n) ->
       Forall (fun line => String.length line = n) lines).
Proof.
  revert printed. induction rows as [|r rows IH]; intros printed Hall.
  - exists []. rewrite app_nil_r. repeat split; auto.
  - apply Forall_cons in Hall as [Hr Hall]. cbn [print_rows].
    destruct (padded_ok cell_text w r 0 ltac:(lia)) as (cells & Hp & Hl & Hlens).
    rewrite Hp.
    destruct (IH (printed ++ [String.concat " | " cells])%list Hall)
      as (lines & Hpr & Hll & Haligned).
    exists (String.concat " | " cells :: lines).
    rewrite Hpr, <- app_assoc. split; [reflexivity|].
    split; [cbn; now rewrite Hll|].
    intros n Heq Hfit Hn. apply Forall_cons in Heq as [Hreq Heq].
    constructor.
    + apply Hn. rewrite Hlens.
      * rewrite Hreq. cbn [drop]. apply firstn_all.
      * intros k x y Hk Hy. rewrite cell_text_width.
        apply (Hfit r k x y); auto. now left.
    + apply Haligned; auto. intros r' k c y Hin. apply Hfit. now right.
Qed.

(** The lines of a result that has a column and whose rows are no
    longer than its columns. *)
Lemma print_result_lines (res : result_t) :
  r_cols res <> [] ->
  Forall (fun out => (length out <= length (r_cols res))%nat) (r_rows res) ->
  exists header lines,
    print_result res =
      (header :: repeat_char "-" (String.length header) :: lines, Ok tt) /\
    length lines = length (r_rows res) /\
    (Forall (fun out => length out = length (r_cols res)) (r_rows res) ->
     Forall (fun line => String.length line = String.length header) lines).
Proof.
  intros Hcols Hall. unfold print_result.
  destruct (r_cols res) as [|c0 cols] eqn:Hc; [contradiction|].
  rewrite <- Hc in *. clear Hcols.
  set (w0 := map String.length (r_cols res)).
  assert (Hl0 : length w0 = length (r_cols res)) by apply length_map.
  destruct (widen_rows_ok (r_rows res) w0) as (w & Hw & Hl & Hmono & Hcover).
  { now rewrite Hl0. }
  rewrite Hw.
  destruct (padded_ok (fun c : string => c) w (r_cols res) 0 ltac:(lia))
    as (cells & Hp & Hlc & Hlens).
  rewrite Hp.
  destruct (print_rows_ok w (r_rows res)
              [String.concat " | " cells;
               repeat_char "-" (String.length (String.concat " | " cells))])
    as (lines & Hpr & Hll & Haligned).
  { now rewrite Hl, Hl0. }
  exists (String.concat " | " cells), lines. rewrite Hpr.
  split; [reflexivity|]. split; [exact Hll|].
  intros Heq. apply Haligned.
  - now rewrite Hl, Hl0.
  - intros r k cell y Hin Hk Hy.
    destruct (Hcover r k cell Hin Hk) as (y' & Hy' & Hle). congruence.
  - intros cells' Hc'. apply concat_length. rewrite Hc', Hlens.
    + cbn [drop]. rewrite <- Hl0, <- Hl. symmetry. apply firstn_all.
    + intros k x y Hk Hy. cbn [Nat.add] in Hy.
      assert (Hw0 : w0 !! k = Some (String.length x)).
      { subst w0. now rewrite list_lookup_fmap, Hk. }
      destruct (Hmono _ _ Hw0) as (y' & Hy' & Hle). congruence.
Qed.

(** X15.  For a result with at least one column whose rows are no
    longer than its columns, [print_result] ends without exception after
    printing a header, a line of dashes as long as the header, and one
    line for each row, in order. *)
Theorem print_result_prints_every_row (res : result_t) :
  r_cols res <> [] ->
  Forall (fun out => (length out <= length (r_cols res))%nat) (r_rows res) ->
  exists header lines,
    print_result res =
      (header :: repeat_char "-" (String.length header) :: lines, Ok tt) /\
    length lines = length (r_rows res).
Proof.
  intros Hc Hall.
  destruct (print_result_lines res Hc Hall) as (h & ls & Hp & Hl & _). eauto.
Qed.

(** X16.  When every row holds exactly one value for each column, all
    the lines [print_result] prints have the same length: the header, the
    dashes and the rows form a rectangle. *)
Theorem print_result_aligned (res : result_t) :
  r_cols res <> [] ->
  Forall (fun out => length out = length (r_cols res)) (r_rows res) ->
  exists n,
    Forall (fun line => String.length line = n) (fst (print_result res)) /\
    length (fst (print_result res)) = (2 + length (r_rows res))%nat.
Proof.
  intros Hc Heq.
  destruct (print_result_lines res Hc) as (h & ls & Hp & Hl & Hal).
  { eapply List.Forall_impl; [|exact Heq]. cbn beta. intros out ->. lia. }
  exists (String.length h). rewrite Hp. cbn [fst length]. split; [|lia].
  constructor; [reflexivity|].
  constructor; [apply repeat_char_length|]. now apply Hal.
Qed.


(** X18.  Every result [execute] returns can be printed: [print_result]
    ends without exception; it prints the single line that stands for an
    empty result when the result has no column, and otherwise a rectangle
    of lines, two more than the result has rows. *)
Theorem execute_result_prints (sql : string) (self : Engine) (res : result_t) :
  fst (execute sql self) = Ok res ->
  snd (print_result res) = Ok tt /\
  (r_cols res = [] -> fst (print_result res) = ["(no rows / no columns)"]) /\
  (r_cols res <> [] ->
   exists n,
     Forall (fun line => String.length line = n) (fst (print_result res)) /\
     length (fst (print_result res)) = (2 + length (r_rows res))%nat).
Proof.
  intros (q & rows & rows' & _ & _ & _ & Hs)%execute_ok_inv.
  apply select_rows_width in Hs.
  assert (Hle : Forall (fun out => (length out <= length (r_cols res))%nat)
                       (r_rows res)).
  { eapply List.Forall_impl; [|exact Hs]. cbn beta. intros out ->. lia. }
  split; [|split].
  - destruct (r_cols res) as [|c0 cols] eqn:Hc.
    + unfold print_result. now rewrite Hc.
    + rewrite <- Hc in Hle.
      destruct (print_result_lines res) as (h & ls & Hp & _);
        [congruence|exact Hle|]. now rewrite Hp.
  - intros Hc. unfold print_result. now rewrite Hc.
  - intros Hc.
    destruct (print_result_lines res Hc Hle) as (h & ls & Hp & Hl & Hal).
    exists (String.length h). rewrite Hp. cbn [fst length]. split; [|lia].
    constructor; [reflexivity|].
    constructor; [apply repeat_char_length|]. now apply Hal.
Qed.

End CliProperties.

(** ** The further properties on the sample registries *)

Lemma execute_raises_only_witness :
  parse (F := Binary64_float) "SELECT x FROM sample_1"
    = Raise (ColumnError "Column 'x' not found in table") \/
  (exists m, ColumnError "Column 'x' not found in table"
             = TableNotFoundError m) \/
  (exists m, ColumnError "Column 'x' not found in table" = ColumnError m) \/
  ColumnError "Column 'x' not found in table"
    = OverflowError "int too large to convert to float".
Proof.
  apply (execute_raises_only (F := Binary64_float)
           "SELECT x FROM sample_1" sample_engine).
  vm_compute. reflexivity.
Defined.

(** The [OverflowError] is reached by a literal of 310 digits. *)
Example execute_overflow_reached :
  fst (execute (F := Binary64_float)
         ("SELECT id FROM sample_1 WHERE age > 1" ++ repeat_char "0" 309)
         sample_engine)
  = Raise (OverflowError "int too large to convert to float").
Proof. vm_compute. reflexivity. Qed.

Lemma execute_rows_match_columns_witness :
  Forall (fun out : list (pyval (float := spec_float)) =>
            length out = length ["id"; "age"])
         [[VInt 1; VInt 25]; [VInt 2; VInt 40]].
Proof.
  exact (execute_rows_match_columns (F := Binary64_float)
           "SELECT * FROM sample_1" sample_engine
           {| r_cols := ["id"; "age"];
              r_rows := [[VInt 1; VInt 25]; [VInt 2; VInt 40]] |}
           ltac:(vm_compute; reflexivity)).
Defined.

Lemma execute_row_count_witness :
  (length [[VInt (float := spec_float) 2]] <= 2)%nat /\
  (Some {| w_col := "age"; w_op := ">"; w_val := VInt (float := spec_float) 30;
           w_val_type := "num" |} = None ->
   length [[VInt (float := spec_float) 2]] = 2%nat).
Proof.
  exact (execute_row_count (F := Binary64_float)
           "SELECT id FROM sample_1 WHERE age > 30" sample_engine
           {| q_select := Cols ["id"]; q_from := "sample_1";
              q_where := Some {| w_col := "age"; w_op := ">";
                                 w_val := VInt 30; w_val_type := "num" |} |}
           [ [("id", VInt 1); ("age", VInt 25)];
             [("id", VInt 2); ("age", VInt 40)] ]
           {| r_cols := ["id"]; r_rows := [[VInt 2]] |}
           ltac:(vm_compute; reflexivity) ltac:(vm_compute; reflexivity)
           ltac:(vm_compute; reflexivity)).
Defined.

Lemma select_star_returns_table_witness :
  execute (F := Binary64_float) "SELECT * FROM sample_1" sample_engine
  = (Ok {| r_cols := ["id"; "age"];
           r_rows := [[VInt 1; VInt 25]; [VInt 2; VInt 40]] |},
     sample_engine).
Proof.
  apply (select_star_returns_table (F := Binary64_float) sample_engine
           "SELECT * FROM sample_1" "sample_1"
           [("id", VInt 1); ("age", VInt 25)]
           [ [("id", VInt 2); ("age", VInt 40)] ]);
    [ vm_compute; reflexivity
    | vm_compute; reflexivity
    | repeat constructor; cbn; intuition discriminate
    | repeat constructor ].
Defined.

Lemma count_column_counts_values_witness :
  (1 <= 2)%nat /\
  execute (F := Binary64_float) "SELECT COUNT(Age) FROM people" people_engine
  = (Ok {| r_cols := ["COUNT(age)"]; r_rows := [[VInt 1]] |}, people_engine).
Proof.
  exact (count_column_counts_values (F := Binary64_float) people_engine
           "SELECT COUNT(Age) FROM people" "age"
           {| q_select := Count "age"; q_from := "people"; q_where := None |}
           [ [("Name", VStr "ann"); ("age", VNone)];
             [("Name", VStr "bob"); ("age", VInt 40)] ]
           [ [("Name", VStr "ann"); ("age", VNone)];
             [("Name", VStr "bob"); ("age", VInt 40)] ]
           ltac:(vm_compute; reflexivity) eq_refl ltac:(discriminate)
           ltac:(vm_compute; reflexivity) eq_refl).
Defined.

Lemma no_remaining_row_never_fails_witness :
  execute (F := Binary64_float)
    "SELECT nosuch FROM sample_1 WHERE age > 1000" sample_engine
  = (Ok {| r_cols := ["nosuch"]; r_rows := [] |}, sample_engine).
Proof.
  exact (no_remaining_row_never_fails (F := Binary64_float) sample_engine
           "SELECT nosuch FROM sample_1 WHERE age > 1000"
           {| q_select := Cols ["nosuch"]; q_from := "sample_1";
              q_where := Some {| w_col := "age"; w_op := ">";
                                 w_val := VInt 1000; w_val_type := "num" |} |}
           [ [("id", VInt 1); ("age", VInt 25)];
             [("id", VInt 2); ("age", VInt 40)] ]
           ltac:(vm_compute; reflexivity) ltac:(vm_compute; reflexivity)
           ltac:(right; vm_compute; reflexivity)).
Defined.


(** A line with a field more than the header has: nothing is stored. *)
Example load_csv_long_line :
  load_csv (F := Binary64_float) "sample_1"
    [ {| named := [("id", Some "1"); ("age", Some "25")]; surplus := None |};
      {| named := [("id", Some "2"); ("age", Some "40")];
         surplus := Some ["x"] |} ] empty_engine
  = (Raise (AttributeError "'list' object has no attribute 'strip'"),
     empty_engine).
Proof. vm_compute. reflexivity. Qed.

Lemma loaded_text_cell_fails_numeric_predicate_witness :
  int_of_str "bob" = None /\
  float_of_str (PyFloat := Binary64_float) "bob" = None /\
  where_row (F := Binary64_float) "name" ">" (VInt 1) "num"
    (_convert_row_types [("name", Some "bob"); ("age", Some "25")])
  = Ok false.
Proof.
  apply (loaded_text_cell_fails_numeric_predicate (F := Binary64_float)
           [("name", Some "bob"); ("age", Some "25")] "name" "bob").
  vm_compute. reflexivity.
Defined.

Lemma text_predicate_compares_text_forms_witness :
  row_kept (F := Binary64_float) "age"
    {| w_col := "age"; w_op := "="; w_val := VStr "40"; w_val_type := "str" |}
    [("Name", VStr "bob"); ("age", VInt 40)] = true.
Proof.
  apply (proj1 (text_predicate_compares_text_forms (F := Binary64_float)
                  "age" "age" "str" "40"
                  [("Name", VStr "bob"); ("age", VInt 40)]
                  ltac:(discriminate))).
  split; [discriminate|reflexivity].
Defined.

Lemma print_result_prints_every_row_witness :
  exists header lines,
    print_result (F := Binary64_float)
      {| r_cols := ["a"; "bbbbbb"];
         r_rows := [[VInt 1]; [VInt 22; VNone]] |}
    = (header :: repeat_char "-" (String.length header) :: lines, Ok tt) /\
    length lines = 2%nat.
Proof.
  apply (print_result_prints_every_row (F := Binary64_float)
           {| r_cols := ["a"; "bbbbbb"];
              r_rows := [[VInt 1]; [VInt 22; VNone]] |}).
  - discriminate.
  - repeat constructor.
Defined.

Lemma print_result_aligned_witness :
  exists n,
    Forall (fun line => String.length line = n)
      (fst (print_result (F := Binary64_float)
              {| r_cols := ["Name"; "age"];
                 r_rows := [[VStr "ann"; VNone]; [VStr "bob"; VInt 40]] |})) /\
    length (fst (print_result (F := Binary64_float)
              {| r_cols := ["Name"; "age"];
                 r_rows := [[VStr "ann"; VNone]; [VStr "bob"; VInt 40]] |}))
    = 4%nat.
Proof.
  apply (print_result_aligned (F := Binary64_float)
           {| r_cols := ["Name"; "age"];
              r_rows := [[VStr "ann"; VNone]; [VStr "bob"; VInt 40]] |}).
  - discriminate.
  - repeat constructor.
Defined.

(** What is printed for the table [people]. *)
Example print_people :
  print_result (F := Binary64_float)
    {| r_cols := ["Name"; "age"];
       r_rows := [[VStr "ann"; VNone]; [VStr "bob"; VInt 40]] |}
  = (["Name | age "; "-----------"; "ann  | NULL"; "bob  | 40  "], Ok tt).
Proof. vm_compute. reflexivity. Qed.


Lemma execute_result_prints_witness :
  snd (print_result (F := Binary64_float)
         {| r_cols := ["Name"; "age"];
            r_rows := [[VStr "ann"; VNone]; [VStr "bob"; VInt 40]] |})
  = Ok tt.
Proof.
  exact (proj1 (execute_result_prints (F := Binary64_float)
                  "SELECT * FROM people" people_engine
                  {| r_cols := ["Name"; "age"];
                     r_rows := [[VStr "ann"; VNone]; [VStr "bob"; VInt 40]] |}
                  ltac:(vm_compute; reflexivity))).
Defined.

(** ** Queries that [parse] accepts *)

Lemma all_chars_impl (p q : ascii -> bool) s :
  (forall c, p c = true -> q c = true) ->
  all_chars p s = true -> all_chars q s = true.
Proof.
  intros Hpq. induction s as [|c s IH]; [reflexivity|]. cbn [all_chars].
  intros [Hc Hs]%andb_prop. now rewrite (Hpq _ Hc), IH.
Qed.

Lemma all_chars_app p a b :
  all_chars p (a ++ b) = all_chars p a && all_chars p b.
Proof.
  induction a as [|c a IH]; [reflexivity|].
  rewrite append_cons. cbn [all_chars]. now rewrite IH, andb_assoc.
Qed.

Lemma all_chars_concat p sep (l : list string) :
  all_chars p sep = true ->
  Forall (fun x => all_chars p x = true) l ->
  all_chars p (String.concat sep l) = true.
Proof.
  intros Hsep. induction 1 as [|x l Hx Hl IH]; [reflexivity|].
  destruct l as [|y l]; [exact Hx|].
  change (all_chars p (x ++ sep ++ String.concat sep (y :: l)) = true).
  now rewrite !all_chars_app, Hx, Hsep, IH.
Qed.

Lemma ident_char_plain c :
  is_ident_char c = true ->
  isspace c = false /\ Ascii.eqb c "," = false /\ Ascii.eqb c ";" = false /\
  Ascii.eqb (char_upper c) "(" = false.
Proof.
  destruct c as [[] [] [] [] [] [] [] []]; vm_compute; intros H;
    first [discriminate H | repeat split].
Qed.

Lemma ident_start_char c : is_ident_start c = true -> is_ident_char c = true.
Proof. intros H. unfold is_ident_char. now rewrite H. Qed.

Lemma ident_text_chars s :
  ident_text s = true -> all_chars is_ident_char s = true /\ s <> "".
Proof.
  destruct s as [|c s]; [discriminate|]. cbn [ident_text all_chars].
  intros [Hc Hs]%andb_prop. rewrite (ident_start_char _ Hc), Hs.
  split; [reflexivity|discriminate].
Qed.

Lemma ident_text_identifier s : ident_text s = true -> is_identifier s = true.
Proof.
  destruct s as [|c s]; [discriminate|]. cbn [ident_text is_identifier].
  intros [Hc Hs]%andb_prop. rewrite Hc. cbn [andb].
  assert (Hspan : span is_ident_char s = (s, EmptyString)).
  { clear Hc. induction s as [|d s IH]; [reflexivity|].
    cbn [all_chars] in Hs. apply andb_prop in Hs as [Hd Hs].
    cbn [span]. now rewrite Hd, (IH Hs). }
  now rewrite Hspan.
Qed.

Lemma ident_text_no_space s : ident_text s = true -> no_space s = true.
Proof.
  intros [H _]%ident_text_chars. unfold no_space.
  eapply all_chars_impl; [|exact H]. intros c Hc.
  now rewrite (proj1 (ident_char_plain c Hc)).
Qed.

(** Trailing characters of a class are stripped up to the last character
    outside the class. *)
Lemma rstrip_with_kept p a t :
  t <> "" -> all_chars (fun c => negb (p c)) t = true ->
  rstrip_with p (a ++ t) = a ++ t.
Proof.
  intros Hne Ht. induction a as [|c a IH].
  - rewrite append_nil. clear Hne. induction t as [|d t IHt]; [reflexivity|].
    cbn [all_chars] in Ht. apply andb_prop in Ht as [Hd Ht].
    apply negb_true_iff in Hd. rewrite rstrip_cons, (IHt Ht).
    destruct t; [now rewrite Hd|reflexivity].
  - rewrite append_cons, rstrip_cons, IH.
    destruct (a ++ t) eqn:E; [|reflexivity].
    destruct a; [|discriminate E]. rewrite append_nil in E. contradiction.
Qed.

Lemma strip_no_space s : no_space s = true -> strip s = s.
Proof.
  intros Hs. unfold strip. destruct s as [|c s]; [reflexivity|].
  rewrite lstrip_id.
  - change (String c s) with ("" ++ String c s).
    apply rstrip_with_kept; [discriminate|exact Hs].
  - cbn [no_space all_chars] in Hs. apply andb_prop in Hs as [Hc _].
    now apply negb_true_iff in Hc.
Qed.

Lemma single_spaced_skip b a X :
  no_space a = true -> a <> "" ->
  single_spaced b (a ++ X) = single_spaced false X.
Proof.
  intros Ha Hne. revert b. induction a as [|c a IH]; intros b; [contradiction|].
  cbn [no_space all_chars] in Ha. apply andb_prop in Ha as [Hc Ha].
  apply negb_true_iff in Hc. rewrite append_cons. cbn [single_spaced].
  rewrite Hc. destruct a as [|d a]; [now rewrite append_nil|].
  apply IH; [exact Ha|discriminate].
Qed.

Lemma single_spaced_no_space b a : no_space a = true -> single_spaced b a = true.
Proof.
  revert b. induction a as [|c a IH]; intros b; [reflexivity|].
  cbn [no_space all_chars]. intros [Hc Ha]%andb_prop.
  apply negb_true_iff in Hc. cbn [single_spaced]. rewrite Hc. now apply IH.
Qed.

Lemma upper_app a b : upper (a ++ b) = upper a ++ upper b.
Proof.
  unfold upper. induction a as [|c a IH]; [reflexivity|].
  rewrite append_cons. cbn [smap]. now rewrite IH.
Qed.

Lemma isspace_upper c : isspace (char_upper c) = isspace c.
Proof. destruct c as [[] [] [] [] [] [] [] []]; reflexivity. Qed.

Lemma no_space_upper s : no_space (upper s) = no_space s.
Proof.
  unfold no_space, upper. induction s as [|c s IH]; [reflexivity|].
  cbn [smap all_chars]. now rewrite isspace_upper, IH.
Qed.

Lemma contains_app_mid sep a b : contains sep (a ++ sep ++ b) = true.
Proof.
  induction a as [|c a IH].
  - rewrite append_nil. destruct (sep ++ b) eqn:E.
    + cbn [contains]. rewrite orb_false_r. apply prefix_app. exists b.
      now rewrite E.
    + rewrite contains_cons, <- E.
      now rewrite (proj2 (prefix_app sep (sep ++ b)) (ex_intro _ b eq_refl)).
  - rewrite append_cons, contains_cons, IH. apply orb_true_r.
Qed.

(** A separator that starts with a space does not start at a character
    that is no white space. *)
Lemma prefix_space_at_char sep c s :
  isspace c = false -> String.prefix (String " " sep) (String c s) = false.
Proof.
  intros Hc. cbn [String.prefix]. destruct (ascii_dec " " c) as [<-|]; [|reflexivity].
  discriminate Hc.
Qed.

Lemma contains_skip sep a X :
  no_space a = true ->
  contains (String " " sep) (a ++ X) = contains (String " " sep) X.
Proof.
  induction a as [|c a IH]; [reflexivity|].
  cbn [no_space all_chars]. intros [Hc Ha]%andb_prop.
  apply negb_true_iff in Hc.
  rewrite append_cons, contains_cons, (prefix_space_at_char _ _ _ Hc).
  now apply IH.
Qed.

Lemma contains_no_space sep x :
  no_space x = true -> contains (String " " sep) x = false.
Proof.
  induction x as [|c x IH]; [reflexivity|].
  cbn [no_space all_chars]. intros [Hc Hx]%andb_prop.
  apply negb_true_iff in Hc.
  rewrite contains_cons, (prefix_space_at_char _ _ _ Hc). now apply IH.
Qed.

Lemma find_at_skip sep n a X :
  no_space a = true ->
  find_at (String.prefix (String " " sep)) n (a ++ X) =
  match find_at (String.prefix (String " " sep)) n X with
  | Some (l, r) => Some (a ++ l, r)
  | None => None
  end.
Proof.
  induction a as [|c a IH].
  - intros _. rewrite append_nil. destruct (find_at _ n X) as [[l r]|]; reflexivity.
  - cbn [no_space all_chars]. intros [Hc Ha]%andb_prop.
    apply negb_true_iff in Hc. rewrite append_cons. cbn [find_at].
    rewrite (prefix_space_at_char _ _ _ Hc), (IH Ha).
    destruct (find_at _ n X) as [[l r]|]; reflexivity.
Qed.

(** Between two spaces, a keyword is found only where it is written. *)
Lemma prefix_kw kw body Y :
  no_space kw = true -> no_space body = true ->
  String.prefix (kw ++ String " " "") (body ++ String " " Y) = true ->
  body = kw.
Proof.
  revert body. induction kw as [|k kw IH]; intros body Hkw Hbody.
  - rewrite append_nil. destruct body as [|b body]; [reflexivity|].
    rewrite append_cons. cbn [no_space all_chars] in Hbody.
    apply andb_prop in Hbody as [Hb _]. apply negb_true_iff in Hb.
    now rewrite (prefix_space_at_char _ _ _ Hb).
  - cbn [no_space all_chars] in Hkw. apply andb_prop in Hkw as [Hk Hkw].
    apply negb_true_iff in Hk. rewrite append_cons.
    destruct body as [|b body].
    + rewrite append_nil. cbn [String.prefix].
      destruct (ascii_dec k " ") as [->|]; [discriminate Hk|discriminate].
    + rewrite append_cons. cbn [String.prefix].
      cbn [no_space all_chars] in Hbody. apply andb_prop in Hbody as [_ Hbody].
      destruct (ascii_dec k b) as [->|]; [|discriminate].
      intros H. f_equal. now apply IH.
Qed.

Lemma prefix_kw_end kw x :
  no_space x = true -> String.prefix (kw ++ String " " "") x = false.
Proof.
  revert x. induction kw as [|k kw IH]; intros x Hx.
  - rewrite append_nil. destruct x as [|c x]; [reflexivity|].
    cbn [no_space all_chars] in Hx. apply andb_prop in Hx as [Hc _].
    apply negb_true_iff in Hc. now apply prefix_space_at_char.
  - rewrite append_cons. destruct x as [|c x]; [reflexivity|].
    cbn [String.prefix]. cbn [no_space all_chars] in Hx.
    apply andb_prop in Hx as [_ Hx].
    destruct (ascii_dec k c); [now apply IH|reflexivity].
Qed.

Lemma append_nil_r s : s ++ "" = s.
Proof. induction s as [|c s IH]; [reflexivity|]. now rewrite append_cons, IH. Qed.

Lemma str_app_assoc a b c : (a ++ b) ++ c = a ++ (b ++ c).
Proof.
  induction a as [|x a IH]; [reflexivity|]. now rewrite !append_cons, IH.
Qed.

Lemma find_at_here m n s :
  m s = true -> find_at m n s = Some (EmptyString, drop_chars n s).
Proof. intros H. destruct s; cbn [find_at]; now rewrite H. Qed.

Lemma prefix_space_space sep a b :
  String.prefix (String " " a ++ sep) (String " " b) = String.prefix (a ++ sep) b.
Proof.
  rewrite append_cons. cbn [String.prefix].
  destruct (ascii_dec " " " "); [reflexivity|contradiction].
Qed.

(** The text [head body kw t], its four parts separated by single
    spaces, seen as the text before [t] followed by [t]. *)
Lemma query_text_split head body kw t :
  head ++ String " " (body ++ String " " (kw ++ String " " t)) =
  (head ++ String " " (body ++ String " " (kw ++ String " " ""))) ++ t.
Proof.
  rewrite str_app_assoc, append_cons, str_app_assoc, append_cons,
    str_app_assoc, append_cons, append_nil. reflexivity.
Qed.

(** The text is cut at the keyword written between the body and [t]. *)
Lemma find_at_kw kw head body t :
  no_space kw = true -> no_space head = true -> no_space body = true ->
  body <> kw ->
  find_at (String.prefix (String " " kw ++ String " " ""))
          (String.length (String " " kw ++ String " " ""))
          (head ++ String " " (body ++ String " " (kw ++ String " " t)))
  = Some (head ++ String " " body, t).
Proof.
  intros Hkw Hhead Hbody Hne. rewrite append_cons.
  rewrite (find_at_skip _ _ head _ Hhead). cbn [find_at].
  rewrite <- append_cons, prefix_space_space.
  destruct (String.prefix _ (body ++ _)) eqn:E.
  { apply prefix_kw in E; [contradiction|assumption|assumption]. }
  rewrite append_cons. rewrite (find_at_skip _ _ body _ Hbody).
  rewrite find_at_here.
  - rewrite <- append_cons.
    replace (String " " (kw ++ String " " t))
      with ((String " " kw ++ String " " "") ++ t)
      by (now rewrite str_app_assoc, !append_cons, append_nil).
    rewrite drop_chars_app, append_nil_r. reflexivity.
  - apply prefix_app. exists t.
    now rewrite !append_cons, str_app_assoc, append_cons, append_nil.
Qed.

(** A keyword written nowhere between spaces does not occur. *)
Lemma contains_kw_absent kw head body kw2 t :
  no_space kw = true -> no_space head = true -> no_space body = true ->
  no_space kw2 = true -> no_space t = true ->
  body <> kw -> kw2 <> kw ->
  contains (String " " kw ++ String " " "")
           (head ++ String " " (body ++ String " " (kw2 ++ String " " t)))
  = false.
Proof.
  intros Hkw Hhead Hbody Hkw2 Ht Hne Hne2. rewrite append_cons.
  rewrite (contains_skip _ head _ Hhead), contains_cons.
  rewrite <- append_cons, prefix_space_space.
  destruct (String.prefix _ (body ++ _)) eqn:E.
  { apply prefix_kw in E; [contradiction|assumption|assumption]. }
  rewrite orb_false_l, append_cons, (contains_skip _ body _ Hbody), contains_cons.
  rewrite <- append_cons, prefix_space_space.
  destruct (String.prefix _ (kw2 ++ _)) eqn:E2.
  { apply prefix_kw in E2; [contradiction|assumption|assumption]. }
  rewrite orb_false_l, append_cons, (contains_skip _ kw2 _ Hkw2), contains_cons.
  rewrite <- append_cons, prefix_space_space, (prefix_kw_end kw t Ht).
  rewrite orb_false_l, append_cons. now apply contains_no_space.
Qed.

(** Such a text is in the form [parse] normalizes to. *)
Lemma query_text_normal head body kw t :
  no_space head = true -> head <> "" ->
  no_space body = true -> body <> "" ->
  no_space kw = true -> kw <> "" ->
  all_chars is_ident_char t = true -> t <> "" ->
  let q := head ++ String " " (body ++ String " " (kw ++ String " " t)) in
  q <> "" /\ strip q = q /\ rstrip_semicolon q = q /\
  normalize_whitespace q = q.
Proof.
  intros Hh Hhne Hb Hbne Hk Hkne Ht Htne q.
  assert (Htns : no_space t = true).
  { unfold no_space. eapply all_chars_impl; [|exact Ht]. intros c Hc.
    now rewrite (proj1 (ident_char_plain c Hc)). }
  assert (Hq : q <> "").
  { subst q. destruct head; [contradiction|]. rewrite append_cons. discriminate. }
  assert (Hstrip : strip q = q).
  { unfold strip. rewrite lstrip_id.
    - subst q. rewrite query_text_split. apply rstrip_with_kept; assumption.
    - subst q. destruct head as [|c head]; [contradiction|].
      rewrite append_cons. cbn [no_space all_chars] in Hh.
      apply andb_prop in Hh as [Hc _]. now apply negb_true_iff in Hc. }
  assert (Hsemi : rstrip_semicolon q = q).
  { unfold rstrip_semicolon. subst q. rewrite query_text_split.
    apply rstrip_with_kept; [assumption|].
    eapply all_chars_impl; [|exact Ht]. intros c Hc. cbn beta.
    now rewrite (proj1 (proj2 (proj2 (ident_char_plain c Hc)))). }
  repeat split; auto.
  unfold normalize_whitespace. rewrite collapse_single_spaced; [exact Hstrip|].
  subst q. rewrite (single_spaced_skip _ head _ Hh Hhne). cbn [single_spaced].
  change (isspace " ") with true. cbv iota. cbn [negb andb Ascii.eqb Bool.eqb].
  rewrite (single_spaced_skip _ body _ Hb Hbne). cbn [single_spaced].
  change (isspace " ") with true. cbv iota. cbn [negb andb Ascii.eqb Bool.eqb].
  rewrite (single_spaced_skip _ kw _ Hk Hkne). cbn [single_spaced].
  change (isspace " ") with true. cbv iota. cbn [negb andb Ascii.eqb Bool.eqb].
  now apply single_spaced_no_space.
Qed.

Lemma rev_app_rev_app a b c :
  String.rev_app (String.rev_app a b) c = String.rev_app b (a ++ c).
Proof.
  revert b. induction a as [|x a IH]; intros b; [reflexivity|].
  cbn [String.rev_app]. rewrite IH. reflexivity.
Qed.

Lemma rev_rev_app a : String.rev (String.rev_app a "") = a.
Proof. unfold String.rev. rewrite rev_app_rev_app. cbn. apply append_nil_r. Qed.

Lemma prefix_nil s : String.prefix "" s = true.
Proof. destruct s; reflexivity. Qed.

Lemma split_go_piece cur a X :
  all_chars (fun c => negb (Ascii.eqb c ",")) a = true ->
  split_go (String.prefix ",") 0 0 cur (a ++ X) =
  split_go (String.prefix ",") 0 0 (String.rev_app a cur) X.
Proof.
  revert cur. induction a as [|c a IH]; intros cur; [reflexivity|].
  cbn [all_chars]. intros [Hc Ha]%andb_prop. apply negb_true_iff in Hc.
  rewrite append_cons. cbn [split_go String.prefix].
  destruct (ascii_dec "," c) as [<-|_]; [discriminate Hc|].
  cbn [String.rev_app]. now apply IH.
Qed.

(** Splitting at the commas gives back the pieces that were joined with
    commas, when no piece holds a comma. *)
Lemma split_concat (l : list string) :
  l <> [] ->
  Forall (fun x => all_chars (fun c => negb (Ascii.eqb c ",")) x = true) l ->
  split "," (String.concat "," l) = l.
Proof.
  unfold split. cbn [String.length Nat.sub].
  destruct l as [|x l]; [contradiction|]. intros _.
  revert x. induction l as [|y l IH]; intros x Hall.
  - apply Forall_cons in Hall as [Hx _]. cbn [String.concat].
    rewrite <- (append_nil_r x) at 1. rewrite (split_go_piece _ _ _ Hx).
    cbn [split_go]. now rewrite rev_rev_app.
  - apply Forall_cons in Hall as [Hx Hall].
    change (String.concat "," (x :: y :: l))
      with (x ++ String "," (String.concat "," (y :: l))).
    rewrite (split_go_piece _ _ _ Hx). cbn [split_go String.prefix].
    destruct (ascii_dec "," ","); [|contradiction].
    rewrite prefix_nil, rev_rev_app. f_equal. now apply IH.
Qed.

Lemma no_count_prefix body :
  all_chars (fun c => negb (Ascii.eqb (char_upper c) "(")) body = true ->
  startswith (upper body) "COUNT(" = false.
Proof.
  intros H. unfold startswith.
  destruct (String.prefix "COUNT(" (upper body)) eqn:E; [|reflexivity].
  apply prefix_app in E as [r Hr].
  destruct body as [|c1 [|c2 [|c3 [|c4 [|c5 [|c6 body]]]]]];
    unfold upper in Hr; cbn [smap] in Hr;
    cbv beta iota delta [String.append] in Hr; try discriminate Hr.
  injection Hr as _ _ _ _ _ H6 _. cbn [all_chars] in H.
  do 5 (apply andb_prop in H as [_ H]). apply andb_prop in H as [H _].
  rewrite H6 in H. discriminate H.
Qed.

Lemma filter_id {A} (f : A -> bool) (l : list A) :
  Forall (fun x => f x = true) l -> List.filter f l = l.
Proof.
  induction 1 as [|x l Hx _ IH]; [reflexivity|]. cbn. now rewrite Hx, IH.
Qed.

Lemma concat_head sep ch x (l : list string) :
  exists rest, String.concat sep (String ch x :: l) = String ch rest.
Proof.
  destruct l as [|y l]; [now exists x|].
  exists (x ++ sep ++ String.concat sep (y :: l)).
  change (String.concat sep (String ch x :: y :: l))
    with (String ch x ++ sep ++ String.concat sep (y :: l)).
  now rewrite append_cons.
Qed.

Lemma ident_texts_plain (cols : list string) :
  Forall (fun c => ident_text c = true) cols ->
  Forall (fun x => all_chars (fun c => negb (Ascii.eqb c ",")) x = true) cols /\
  Forall (fun x => all_chars (fun c => negb (isspace c)) x = true) cols /\
  Forall (fun x => all_chars
                     (fun c => negb (Ascii.eqb (char_upper c) "(")) x = true)
         cols.
Proof.
  intros H. repeat split; (eapply List.Forall_impl; [|exact H]); cbn beta;
    intros c [Hc _]%ident_text_chars;
    (eapply all_chars_impl; [|exact Hc]); intros ch Hch; cbn beta;
    destruct (ident_char_plain ch Hch) as (H1 & H2 & H3 & H4);
    now rewrite ?H1, ?H2, ?H4.
Qed.

(** A list of identifiers joined with commas is read as that list, in
    lower case. *)
Lemma parse_select_concat (cols : list string) :
  cols <> [] ->
  Forall (fun c => ident_text c = true) cols ->
  parse_select (String.concat "," cols) = Ok (Cols (map lower cols)).
Proof.
  intros Hne Hid. destruct (ident_texts_plain cols Hid) as (Hcomma & Hsp & Hpar).
  rewrite parse_select_columns.
  - cbv zeta.
    assert (Hp : selection_pieces (String.concat "," cols) = map lower cols).
    { unfold selection_pieces. rewrite (split_concat cols Hne Hcomma).
      rewrite filter_id.
      - apply map_ext_in. intros c Hin.
        rewrite strip_no_space; [reflexivity|].
        exact (proj1 (List.Forall_forall _ _) Hsp c Hin).
      - eapply List.Forall_impl; [|exact Hid]. cbn beta. intros c Hc.
        rewrite strip_no_space by now apply ident_text_no_space.
        apply negb_true_iff, String.eqb_neq.
        now apply ident_text_chars in Hc as [_ Hc]. }
    rewrite Hp. destruct cols as [|c0 rest]; [contradiction|]. cbn [map].
    rewrite find_absent; [reflexivity|].
    change (lower c0 :: map lower rest) with (map lower (c0 :: rest)).
    apply Forall_map. eapply List.Forall_impl; [|exact Hid]. cbn beta.
    intros c Hc. now rewrite is_identifier_lower, ident_text_identifier.
  - apply no_count_prefix. apply all_chars_concat; [reflexivity|exact Hpar].
  - destruct cols as [|[|ch c0] rest]; [contradiction| |].
    + apply Forall_cons in Hid as [Hc _]. discriminate Hc.
    + apply Forall_cons in Hid as [Hc _]. cbn [ident_text] in Hc.
      apply andb_prop in Hc as [Hc _].
      destruct (concat_head "," ch c0 rest) as [r ->].
      intros [= -> _]. discriminate Hc.
Qed.

Lemma span_until p a d r :
  all_chars p a = true -> p d = false ->
  span p (a ++ String d r) = (a, String d r).
Proof.
  intros Ha Hd. induction a as [|c a IH].
  - rewrite append_nil. cbn [span]. now rewrite Hd.
  - cbn [all_chars] in Ha. apply andb_prop in Ha as [Hc Ha].
    rewrite append_cons. cbn [span]. now rewrite Hc, (IH Ha).
Qed.

(** Group 1 of the COUNT pattern at an identifier. *)
Lemma count_group_ident ch rest :
  is_ident_start ch = true ->
  match String ch rest with
  | String "*" r => ("*", r)
  | String c _ =>
      if is_ident_start c then span is_ident_char (String ch rest)
      else (EmptyString, String ch rest)
  | EmptyString => (EmptyString, String ch rest)
  end = span is_ident_char (String ch rest).
Proof.
  destruct ch as [[] [] [] [] [] [] [] []]; intros H;
    first [discriminate H | reflexivity].
Qed.

(** The COUNT form of an identifier is read as that identifier. *)
Lemma match_count_ident c :
  ident_text c = true -> match_count ("COUNT(" ++ c ++ ")") = Some c.
Proof.
  destruct c as [|ch c]; [discriminate|]. cbn [ident_text].
  intros [Hch Hc]%andb_prop.
  assert (Hsp : isspace ch = false).
  { now apply ident_char_plain, ident_start_char. }
  change ("COUNT(" ++ String ch c ++ ")")
    with (String "C" (String "O" (String "U" (String "N" (String "T"
            (String "(" (String ch c ++ ")"))))))).
  unfold match_count. cbn [String.substring drop_chars].
  change (String.prefix "COUNT(" (upper "COUNT(")) with true. cbv iota.
  rewrite append_cons. cbn [lstrip_with]. rewrite Hsp.
  rewrite (count_group_ident ch (c ++ ")") Hch).
  rewrite <- append_cons, (span_until is_ident_char (String ch c) ")" "").
  - reflexivity.
  - cbn [all_chars]. now rewrite (ident_start_char _ Hch), Hc.
  - reflexivity.
Qed.

Lemma parse_select_count c :
  ident_text c = true ->
  parse_select ("COUNT(" ++ c ++ ")") = Ok (Count (lower c)).
Proof.
  intros Hc. unfold parse_select.
  assert (Hs : startswith (upper ("COUNT(" ++ c ++ ")")) "COUNT(" = true).
  { rewrite upper_app. apply prefix_app. eexists. reflexivity. }
  now rewrite Hs, (match_count_ident c Hc).
Qed.

Section AcceptedQueries.

Context {float : Type} {F : PyFloat float}.

(** The query [head body kw t] with the keywords in one letter case. *)
Lemma parse_query_text (head kw body t : string) (sel : select_t) :
  (head = "select" /\ kw = "from") \/ (head = "SELECT" /\ kw = "FROM") ->
  no_space body = true ->
  body <> "" ->
  parse_select body = Ok sel ->
  ident_text t = true ->
  body <> "from" ->
  body <> kw ->
  parse (head ++ String " " (body ++ String " " (kw ++ String " " t)))
  = Ok {| q_select := sel; q_from := lower t; q_where := None |}.
Proof.
  intros Hkw Hbody Hbne Hsel0 Ht Hfrom Hbkw.
  destruct (ident_text_chars _ Ht) as [Htc Htne].
  pose proof (ident_text_no_space _ Ht) as Htns.
  assert (Hhk : no_space head = true /\ head <> "" /\ no_space kw = true /\
                kw <> "" /\ upper head = "SELECT" /\ upper kw = "FROM" /\
                String.length head = 6%nat).
  { destruct Hkw as [[-> ->]|[-> ->]]; repeat split; discriminate. }
  destruct Hhk as (Hh & Hhne & Hk & Hkne & Huh & Huk & Hlen).
  set (q := head ++ String " " (body ++ String " " (kw ++ String " " t))).
  destruct (query_text_normal head body kw t Hh Hhne Hbody Hbne Hk Hkne Htc Htne)
    as (Hq & Hstrip & Hsemi & Hnorm). fold q in Hq, Hstrip, Hsemi, Hnorm.
  assert (Hsplit : (if contains " from " q then split1 " from " q
                    else split1 " FROM " q) = [head ++ String " " body; t]).
  { destruct Hkw as [[-> ->]|[-> ->]].
    - assert (Hc : contains " from " q = true).
      { subst q.
        replace ("select" ++ String " " (body ++ String " " ("from" ++ String " " t)))
          with (("select" ++ String " " body) ++ " from " ++ t)
          by (now rewrite str_app_assoc, append_cons).
        apply contains_app_mid. }
      rewrite Hc. unfold split1.
      change (String.prefix " from ")
        with (String.prefix (String " " "from" ++ String " " "")).
      change (String.length " from ")
        with (String.length (String " " "from" ++ String " " "")).
      subst q. now rewrite find_at_kw.
    - assert (Hc : contains " from " q = false).
      { change " from " with (String " " "from" ++ String " " "").
        subst q. apply contains_kw_absent; auto; discriminate. }
      rewrite Hc. unfold split1.
      change (String.prefix " FROM ")
        with (String.prefix (String " " "FROM" ++ String " " "")).
      change (String.length " FROM ")
        with (String.length (String " " "FROM" ++ String " " "")).
      subst q. now rewrite find_at_kw. }
  unfold parse, split_clauses. fold q.
  rewrite Hstrip, Hsemi, Hnorm.
  apply String.eqb_neq in Hq. rewrite Hq. cbn [orb].
  assert (Hsel : startswith (upper q) "SELECT " = true).
  { subst q. rewrite upper_app, Huh. apply prefix_app.
    exists (upper (body ++ String " " (kw ++ String " " t))). reflexivity. }
  assert (Hfr : contains " FROM " (upper q) = true).
  { assert (Hsepu : upper (String " " kw ++ String " " "") = " FROM ")
      by (destruct Hkw as [[_ ->]|[_ ->]]; reflexivity).
    subst q.
    replace (head ++ String " " (body ++ String " " (kw ++ String " " t)))
      with ((head ++ String " " body) ++
            (String " " kw ++ String " " "") ++ t)
      by (now rewrite (str_app_assoc head), !append_cons, !str_app_assoc,
                !append_cons, append_nil).
    rewrite (upper_app (head ++ String " " body)),
      (upper_app (String " " kw ++ String " " "") t), Hsepu.
    apply contains_app_mid. }
  rewrite Hsel, Hfr. cbn [negb]. rewrite Hsplit. cbn [unpack2 rbind].
  assert (Hwh : contains " WHERE " (upper t) = false).
  { apply contains_no_space. now rewrite no_space_upper. }
  rewrite Hwh.
  assert (Hsb : strip (drop_chars (String.length "SELECT ")
                         (head ++ String " " body)) = body).
  { replace (head ++ String " " body) with ((head ++ String " " "") ++ body)
      by (now rewrite str_app_assoc, append_cons, append_nil).
    replace (String.length "SELECT ")
      with (String.length (head ++ String " " ""))
      by (rewrite str_length_app, Hlen; reflexivity).
    rewrite drop_chars_app. now apply strip_no_space. }
  rewrite Hsb, (strip_no_space t Htns). cbn [rbind].
  rewrite Hsel0. reflexivity.
Qed.

Lemma concat_idents_plain (cols : list string) :
  cols <> [] ->
  Forall (fun c => ident_text c = true) cols ->
  no_space (String.concat "," cols) = true /\ String.concat "," cols <> "".
Proof.
  intros Hne Hid. split.
  - apply all_chars_concat; [reflexivity|].
    exact (proj1 (proj2 (ident_texts_plain cols Hid))).
  - destruct cols as [|[|ch c0] rest]; [contradiction| |].
    + apply Forall_cons in Hid as [Hc _]. discriminate Hc.
    + destruct (concat_head "," ch c0 rest) as [r ->]. discriminate.
Qed.


(** X21.  A query written as the keyword SELECT, a list of identifiers
    separated by commas, the keyword FROM and an identifier, the four
    separated by single spaces and the keywords both in lower case or both
    in upper case, is accepted and read as those columns and that table,
    in lower case, unless its column list is the single word of the FROM
    keyword in lower case or as the query writes it. *)
Theorem parse_accepts_column_list (cols : list string) (t : string) :
  cols <> [] ->
  Forall (fun c => ident_text c = true) cols ->
  ident_text t = true ->
  cols <> ["from"] ->
  parse ("select " ++ String.concat "," cols ++ " from " ++ t)
  = Ok {| q_select := Cols (map lower cols); q_from := lower t;
          q_where := None |} /\
  (cols <> ["FROM"] ->
   parse ("SELECT " ++ String.concat "," cols ++ " FROM " ++ t)
   = Ok {| q_select := Cols (map lower cols); q_from := lower t;
           q_where := None |}).
Proof.
  intros Hne Hid Ht Hfrom.
  pose proof (split_concat cols Hne (proj1 (ident_texts_plain cols Hid)))
    as Hsplit.
  destruct (concat_idents_plain cols Hne Hid) as [Hns Hbne].
  pose proof (parse_select_concat cols Hne Hid) as Hsel.
  assert (Hlow : String.concat "," cols <> "from").
  { intros Heq. apply Hfrom. now rewrite <- Hsplit, Heq. }
  split.
  - apply (parse_query_text "select" "from" (String.concat "," cols) t); auto.
  - intros HFROM.
    apply (parse_query_text "SELECT" "FROM" (String.concat "," cols) t); auto.
    intros Heq. apply HFROM. now rewrite <- Hsplit, Heq.
Qed.

(** X22.  With the keywords in upper case and single spaces, the star
    query, the COUNT of the star and the COUNT of an identifier over a
    table named by an identifier are accepted, and read as the star, as
    the count of the star, and as the count of that column in lower
    case. *)
Theorem parse_accepts_star_and_count (t c : string) :
  ident_text t = true ->
  parse ("SELECT * FROM " ++ t)
  = Ok {| q_select := Cols ["*"]; q_from := lower t; q_where := None |} /\
  parse ("SELECT COUNT(*) FROM " ++ t)
  = Ok {| q_select := Count "*"; q_from := lower t; q_where := None |} /\
  (ident_text c = true ->
   parse ("SELECT COUNT(" ++ c ++ ") FROM " ++ t)
   = Ok {| q_select := Count (lower c); q_from := lower t;
           q_where := None |}).
Proof.
  intros Ht. split; [|split].
  - apply (parse_query_text "SELECT" "FROM" "*" t); auto; discriminate.
  - apply (parse_query_text "SELECT" "FROM" "COUNT(*)" t); auto; discriminate.
  - intros Hc.
    replace ("SELECT COUNT(" ++ c ++ ") FROM " ++ t)
      with ("SELECT" ++ String " " (("COUNT(" ++ c ++ ")") ++
              String " " ("FROM" ++ String " " t)))
      by (rewrite !append_cons, !append_nil, !str_app_assoc, !append_cons,
            !append_nil; reflexivity).
    apply (parse_query_text "SELECT" "FROM"); auto.
    + pose proof (ident_text_no_space c Hc) as Hn. unfold no_space in *.
      rewrite !all_chars_app, Hn. reflexivity.
    + now apply parse_select_count.
Qed.

End AcceptedQueries.

(** ** The accepted queries on sample texts *)

Lemma parse_accepts_column_list_witness :
  parse (F := Binary64_float) "select Id,AGE from Sample_1"
  = Ok {| q_select := Cols ["id"; "age"]; q_from := "sample_1";
          q_where := None |} /\
  parse (F := Binary64_float) "SELECT Id,AGE FROM Sample_1"
  = Ok {| q_select := Cols ["id"; "age"]; q_from := "sample_1";
          q_where := None |}.
Proof.
  destruct (parse_accepts_column_list (F := Binary64_float)
              ["Id"; "AGE"] "Sample_1"
              ltac:(discriminate)
              ltac:(repeat constructor)
              ltac:(reflexivity)
              ltac:(discriminate)) as [Hlow Hup].
  exact (conj Hlow (Hup ltac:(discriminate))).
Defined.

(** The column list made of the word of the keyword is cut at that word,
    which leaves no selection. *)
Example parse_from_as_column :
  parse (F := Binary64_float) "select from from t"
  = Raise (SQLParseError "No columns specified in SELECT").
Proof. vm_compute. reflexivity. Qed.

Lemma parse_accepts_star_and_count_witness :
  parse (F := Binary64_float) "SELECT * FROM Sample_1"
  = Ok {| q_select := Cols ["*"]; q_from := "sample_1"; q_where := None |} /\
  parse (F := Binary64_float) "SELECT COUNT(*) FROM Sample_1"
  = Ok {| q_select := Count "*"; q_from := "sample_1"; q_where := None |} /\
  parse (F := Binary64_float) "SELECT COUNT(Age) FROM Sample_1"
  = Ok {| q_select := Count "age"; q_from := "sample_1"; q_where := None |}.
Proof.
  destruct (parse_accepts_star_and_count (F := Binary64_float)
              "Sample_1" "Age" ltac:(reflexivity)) as (Hs & Hc & Hi).
  exact (conj Hs (conj Hc (Hi ltac:(reflexivity)))).
Defined.

(** ** A predicate with a quoted literal *)


(** *** The operator scan *)










(** *** The WHERE keyword *)











Section QuotedLiteral.
Context {float : Type} {F : PyFloat float}.



End QuotedLiteral.


(** White space between the quotes is normalized with the rest of the
    query, and an operator between them is taken for the operator of the
    predicate. *)
Example parse_quoted_literal_with_spaces :
  parse (F := Binary64_float) "select * from t where c = 'x   y'"
  = Ok {| q_select := Cols ["*"]; q_from := "t";
          q_where := Some {| w_col := "c"; w_op := "=";
                             w_val := VStr "x y"; w_val_type := "str" |} |}.
Proof. vm_compute. reflexivity. Qed.

Example parse_quoted_literal_with_operator :
  parse (F := Binary64_float) "select * from t where c = '>='"
  = Raise (SQLParseError "Invalid column in WHERE: c = '").
Proof. vm_compute. reflexivity. Qed.
